(* ===== verification/_CoqProject ===== *)
-Q . S2P
Prelude.v
Collection.v
Yup.v
HookForm.v
Intl.v
Components.v
React.v
Uuid.v
ResumeContext.v
Controller.v
ListForm.v
CertificationsForm.v
WorkExperienceForm.v
ContactForm.v
Theme.v
Refinement.v
Liveness.v
Identifiers.v
App.v
