(* ===== verification/Prelude.v ===== *)
(** * Verification of the resume-maker form components

    The repository is a React application whose sidebar holds one form
    component per resume section.  Each form keeps its own state with
    [useState], the two list forms validate what the user typed with a yup
    schema through react-hook-form and edit an array of records in a
    modal, and every form mirrors its data into the shared resume context
    from a [useEffect].  This development models those components as
    state-passing Rocq functions, one per handler and under the handler's
    name, and proves what makes them correct.  The sources modelled are

    - [src/components/FormSidebar/CertificationsForm/index.tsx] (component
      [AwardsForm]): file [CertificationsForm.v], module [AwardsForm];
    - [src/components/FormSidebar/WorkExperienceForm/index.tsx]: file
      [WorkExperienceForm.v], module [WorkExperienceForm];
    - [src/components/FormSidebar/ContactForm/index.tsx]: file
      [ContactForm.v], module [ContactForm];
    - [src/support/themes/light.ts]: file [Theme.v], module [LightTheme].

    ** Files, in dependency order

    - [Prelude.v] (this file): the JavaScript notions every component uses
      (truthiness of a string, strict equality, reading a property that may
      be unset), the [js_scope] notations, the [js] hint and rewrite
      databases and the tactics built on them.
    - [Collection.v]: arrays of records that carry an [id], behind the
      class [HasId]: the three array idioms of the sources
      ([map] with an id-guarded replacement, [filter] on a different id,
      [find] by id), their laws (positions, lengths, ids, idempotence) and
      their transport along maps that keep the ids.
    - [Yup.v]: the part of yup the schemas use, [string().required(msg)]
      inside [object().shape], and [yupResolver].  Modelled from the
      library's documented behaviour; the schemas themselves are in the
      form files and come from the sources.
    - [HookForm.v]: the part of react-hook-form the forms use: field
      values, field errors, [reset], [setValue], an input's change event
      and [handleSubmit].
    - [Intl.v]: messages of react-intl as the keys and values the forms
      pass; [Components.v]: the properties the forms pass to the base
      components ([CrudList], [Modal], [Input], [Textarea], [Button]), a
      callback property being the event it raises.
    - [React.v]: the render and commit cycle for one component, as a
      record of operations ([Component]: initial state, callbacks, the
      effect with the test and reset of its dependency) with its law
      ([Lawful]).  [step] is one event followed by the commit, [run] a
      sequence of events, [reachable] the worlds a user can get to.  The
      file proves once the schemes every form instantiates: invariants by
      induction on the steps, "the context mirrors the state"
      ([run_synced]), "the rest of the context is untouched"
      ([run_frame]), "a size of the state grows by the cost of the events
      at most" ([run_measure]), "the commit leaves the state as the
      callbacks made it" ([run_alike], states that differ in the record
      of the changed dependency being [alike]), and that a morphism of
      components preserves runs.  [both] puts two components under one context
      value: an event belongs to one of them, and the effects of one
      commit all read the context value of the render, the last one's
      write remaining.  What is proved of [both] is stated so that it
      nests, for any number of sibling components: each component is in
      the state it would be in alone ([both_alone]), an interleaving can
      be raised when each component could raise its own events
      ([both_allowed_mount]), and the contexts mirror the states
      ([both_keeps], [both_spares]).
    - [Uuid.v]: the identifier generator the list forms import, as the
      specification states its contract: a [Generator] is a sequence of
      identifiers without repetition and without the empty string.  A
      component says where it calls the generator in a [Usage], with the
      law [Draws], or [Appends] if it keeps the identifiers in a list it
      appends to; [closed] is the component together with the generator,
      whose state counts the calls.  Proved once: what a closed component
      holds was issued to it, in the order of issue if it appends
      ([closed_in_order]), and the closed component runs as the open one
      on events that carry fresh identifiers ([closed_reachable]).
    - [ResumeContext.v]: the shared context of [@/contexts/Resume], which
      is not among the sources: the record types [Certification] and
      [WorkExperience] as the forms use them, the context value as a
      JavaScript object (a [gmap] from property names to values) and
      [updateState], which replaces the context value.
    - [Controller.v]: the specification's abstract
      CollectionEditController (sessions Closed, OpenCreate, OpenEdit;
      operations startAdd, startEdit, submit, cancel, remove; the sink),
      written from the specification.
    - [ListForm.v]: the program the two list forms share, written once
      over any record type, with what is proved of it once for both: the
      life of a record (created by a submission only, destroyed by the
      deletion of its id only: [created], [destroyed], [untouched],
      [places]), the records keep their order ([order_stable]), it adds
      no identifier but the one it drew from the generator, at the end
      ([pattern_appends]), and it refines the controller on the events
      [good] allows ([refines_run]).
    - [CertificationsForm.v], [WorkExperienceForm.v]: the two list forms.
      State is a record with one field per [useState] cell, the
      react-hook-form state, and one ghost flag [effectPending] that stands
      for "the array reference changed since the effect last ran" (React
      compares dependencies by reference, and [map], [filter] and spread
      always allocate).  A handler reads the state of the render it closes
      over and issues setter calls; since no handler reads a cell after
      setting it, threading the record through the setters is the same as
      React's batched update.  [uuid()] is an input of the event that
      calls it, and [calls] says which events make the call in which
      states.  [render] gives the JSX as data.  [self] is the component
      as [React.v] sees it.
    - [ContactForm.v]: the contact form, whose state is a JavaScript
      object updated under a computed key.
    - [Theme.v]: the light theme, an object built with a spread.
    - [Refinement.v]: each list form is its instance of the pattern of
      [ListForm.v] (a morphism of components, so the same runs), and
      inherits what is proved of the pattern (section [instance]): it
      refines the controller, keeps the order of its records and uses
      the generator as the pattern does.
    - [Liveness.v]: what a user can bring a form to.  The interface
      [Moves] with its laws [Journeys] says what the journeys of a list
      component are made of; the theorems are proved once against it, and
      the modules [CertificationsLiveness], [WorkExperienceLiveness]
      discharge it for the two list forms.  [ContactLiveness] does the
      same, directly, for the contact form.
    - [Identifiers.v]: each list form closed with the generator.  The
      form uses the generator as the pattern does, so the invariants the
      form files prove under the hypothesis of fresh identifiers hold of
      the closed form without it.
    - [App.v]: the three forms side by side under one context value, and
      the three with the one generator they share.

    ** What the theorems show

    - functional behaviour of every handler on every branch: a valid
      submission without a current id appends one record with the fresh id;
      with a current id it replaces the record of that id in place and
      leaves positions, length and ids as they were; deletion removes the
      records of that id and is idempotent; editing an unknown id does
      nothing; editing a known id fills the form so that submitting it
      back changes nothing; a submission that fails validation changes
      neither the array nor the context and reports one message per blank
      required field; a change event of the contact form sets one
      property and shows it in its input;
    - the field names, which the code writes as strings in three places
      (schema, [register] calls, the handler's data), agree: the inputs
      register distinct names, every rule of the schema is for a
      registered field whose input shows that field's error, and the
      submitted data is determined by exactly the registered fields;
    - invariants of the reachable worlds: ids are distinct and non-empty as
      long as the generator's are, stored records satisfy the schema, the
      context mirrors the component's data after every commit, a closed
      modal has a blank form, the contact state keeps its three
      properties, a form writes only its own properties of the context;
    - the effect runs exactly when a handler replaced the array, the
      loop of renders and commits ends after one commit (the effect
      cannot feed itself through the context), and what a form
      renders after a run is what its callbacks alone make of its state:
      the ghost flag is read by no callback, and nothing the effect
      writes comes back to the component;
    - bounds: the array grows by one record per submit event at most, and
      shrinks by one record per deletion at most when ids are distinct;
      no run swaps two records;
    - liveness: every array of valid records with distinct non-empty ids
      can be entered after the mount, and from any state whatever (an
      open modal, errors shown, an edit target left behind) events that
      the render offers lead back to an idle, empty form and from there to
      any such array; every state object of the contact form can be
      typed; in the application every resume can be entered, from the
      mount and from any world between two commits;
    - identifiers: with a generator that meets its contract, and no other
      hypothesis, the arrays of the closed forms are well formed, the
      identifier the generator gives next is new, the records stand in
      the order of their creation, every list of valid records can be
      entered and is stored under the identifiers issued, in order, and
      in the application, where the forms share the generator, no two
      records of the resume carry the same identifier and each array is
      in the order of creation whatever the other form created in
      between;
    - the life of a record (section 3 of the specification), over any
      run: an id in the array was there before or was given by the
      generator to a submission; an id that is gone was deleted by name;
      without a submission no record changes; without a deletion the
      records keep their places;
    - refinement: on good runs each list form is the specification's
      controller, state by state and output by output, and each form is
      equal to the shared pattern;
    - the three forms under one context: each form is in the state it
      would be in alone and a world of the application is made of worlds
      of the forms ([both_reachable]), so the invariants of the form
      files hold inside the application; the application writes the
      sections of the forms and nothing else, and how the user
      interleaves the forms does not matter: the world at the end is
      determined by what each form received; after the mount no write of
      one form is lost to another; at the mount the last effect replaces
      what the others wrote, so their sections are in the context only
      if the provider already held them;
    - where the code and its specification part ways: closing the modal
      keeps the edit target, so the next "add" overwrites a record; a
      submission whose target was deleted is dropped; the empty string
      cannot serve as an id; the website input reads an error that no
      rule can set; the forms' writes to the context do contend
      at the mount.

    ** Bounds and assumptions

    Nothing is bounded: every handler is a structurally recursive or
    non-recursive function, and runs are folds over the list of events.
    One definition takes fuel, [rerender] of [React.v], the loop of
    renders and commits; it is proved to end with fuel for one commit, and
    [step] is defined with that one commit.  Strings are Rocq strings
    (sequences of bytes), compared as JavaScript's [===] compares them.
    Identifiers
    produced by [uuid()] enter the form files as event parameters, and the
    theorems there that need them fresh or non-empty say so in a
    hypothesis; [Uuid.v] and [Identifiers.v] discharge the hypothesis for
    every generator that gives no identifier twice and never the empty
    string.  That is the specification's contract plus non-emptiness;
    version 4 identifiers meet it up to the negligible chance of a
    collision, which the model rules out.  The counter of [Uuid.v] is a
    generator that meets the contract, with which the examples run; it
    is not the library's algorithm.  The context provider
    and the sidebar that mounts the forms are not among the sources:
    [updateState] replaces the context value, and [App.v] takes the
    three forms in the order contact, work experience, certifications;
    its theorems depend on the order only through which form is last.

    ** Not modelled

    Every line of the four sources that is not an import or an export is
    modelled.  Left out is what the sources only call: unmounting and
    concurrent rendering in React, re-validation while typing in
    react-hook-form, the schema types of yup other than required strings,
    how the uuid library draws its random identifiers,
    rendering to the DOM, styled-components, the text of the translated
    messages and the layout primitives; [render] stops at message keys
    and property values. *)

From stdpp Require Import base decidable option list strings gmap.

(** ** JavaScript values the components branch on *)

Declare Scope js_scope.
Delimit Scope js_scope with js.

Notation "x === y" := (bool_decide (x = y))
  (at level 70, no associativity) : js_scope.
Notation "x !== y" := (bool_decide (x ≠ y))
  (at level 70, no associativity) : js_scope.

(** Statements in sequence: [st |> f |> g] is [f] then [g]. *)
Notation "x |> f" := (f x)
  (at level 45, left associativity, only parsing) : js_scope.

(** [if (s)] on a string: the empty string is the only falsy one. *)
Definition truthy (s : string) : bool := bool_decide (s ≠ "").

(** [o.k] for an object whose properties are strings, read where the
    consumer treats an unset property as the blank string (an input that
    was never typed into submits [""]). *)
Definition field (o : gmap string string) (k : string) : string :=
  default "" (o !! k).

(** [c ? a : b] on a string condition. *)
Definition ternary {A : Type} (c : string) (a b : A) : A :=
  if truthy c then a else b.

(** ** Laws *)

Lemma truthy_true (s : string) : truthy s = true ↔ s ≠ "".
Proof. apply bool_decide_eq_true. Qed.

Lemma truthy_false (s : string) : truthy s = false ↔ s = "".
Proof.
  unfold truthy. rewrite bool_decide_eq_false.
  split; [apply dec_stable | by intros -> Hn].
Qed.

Lemma truthy_empty : truthy "" = false.
Proof. reflexivity. Qed.

Lemma truthy_ne (s : string) : s ≠ "" → truthy s = true.
Proof. apply truthy_true. Qed.

Lemma field_insert_eq (o : gmap string string) (k v : string) :
  field (<[k := v]> o) k = v.
Proof. unfold field. by rewrite lookup_insert_eq. Qed.

Lemma field_insert_ne (o : gmap string string) (k k' v : string) :
  k ≠ k' → field (<[k := v]> o) k' = field o k'.
Proof. intros. unfold field. by rewrite lookup_insert_ne. Qed.

Lemma field_empty (k : string) : field ∅ k = "".
Proof. reflexivity. Qed.

Lemma field_blank_iff (o : gmap string string) (k : string) :
  field o k = "" ↔ o !! k = None ∨ o !! k = Some "".
Proof.
  unfold field. destruct (o !! k) as [v|]; simpl; [|by split; [left|]].
  split; [intros ->; by right | intros [?|?]; by simplify_eq].
Qed.

Lemma ternary_truthy {A : Type} (c : string) (a b : A) :
  c ≠ "" → ternary c a b = a.
Proof. intros Hc. unfold ternary. by rewrite truthy_ne. Qed.

Lemma ternary_falsy {A : Type} (a b : A) : ternary "" a b = b.
Proof. reflexivity. Qed.

(** ** Lists *)

Lemma Forall_filter {A : Type} (P Q : A → Prop) `{!∀ x, Decision (Q x)}
    (l : list A) :
  Forall P l → Forall P (filter Q l).
Proof.
  rewrite !Forall_forall. intros HP x Hx.
  apply list_elem_of_filter in Hx as [_ Hx]. by apply HP.
Qed.

Lemma filter_filter_sublist {A : Type} (P Q : A → Prop)
    `{!∀ x, Decision (P x), !∀ x, Decision (Q x)} (l : list A) :
  filter P (filter Q l) `sublist_of` filter P l.
Proof.
  replace (filter P (filter Q l)) with (filter Q (filter P l));
    [apply sublist_filter|].
  rewrite !list_filter_filter. apply list_filter_iff. tauto.
Qed.

Lemma filter_snoc_False {A : Type} (P : A → Prop) `{!∀ x, Decision (P x)}
    (l : list A) (x : A) :
  ¬ P x → filter P (l ++ [x]) = filter P l.
Proof.
  intros Hx. rewrite filter_app, filter_cons, decide_False by done.
  apply app_nil_r.
Qed.

(** A list without repetition has none in what is taken from it, in
    whatever order. *)
Lemma NoDup_submseteq_inv {A : Type} (l k : list A) :
  l ⊆+ k → NoDup k → NoDup l.
Proof.
  intros [l' ->]%submseteq_Permutation. by intros [? _]%NoDup_app.
Qed.

(** An association list with distinct keys is a function. *)
Lemma NoDup_fst_functional {B : Type} (l : list (string * B))
    (k : string) (y1 y2 : B) :
  NoDup l.*1 → (k, y1) ∈ l → (k, y2) ∈ l → y1 = y2.
Proof.
  intros Hnd H1 H2.
  apply (elem_of_list_to_map_1 (M := gmap string)) in H1, H2; [|done..].
  congruence.
Qed.

Lemma list_to_map_empty_iff {B : Type} (l : list (string * B)) :
  (list_to_map l : gmap string B) = ∅ ↔ l = [].
Proof.
  split; [|by intros ->]. destruct l as [|[k v] l]; [done|].
  simpl. intros Hl. by apply insert_non_empty in Hl.
Qed.

(** ** Automation

    [js] is both a rewrite base (the laws above, oriented left to right)
    and an [auto] base; [js_simpl] normalises a goal with it,
    [by_compute] closes a closed decidable goal by evaluation and
    [case_truthy] splits on the next string condition, leaving the
    condition as an equation on the string itself. *)

Create HintDb js discriminated.
Create Rewrite HintDb js.

#[export] Hint Rewrite truthy_empty field_empty @ternary_falsy
  field_insert_eq : js.
#[export] Hint Rewrite field_insert_ne using done : js.
#[export] Hint Rewrite @ternary_truthy using done : js.
#[export] Hint Rewrite truthy_ne using done : js.
#[export] Hint Resolve truthy_ne : js.

Ltac js_simpl := repeat (progress (autorewrite with js in *; simpl in *)).

(** Closed decidable goals (membership, distinctness, equality of
    concrete values) by evaluation. *)
Ltac by_compute :=
  match goal with
  | |- ?P => apply (bool_decide_unpack P); vm_compute; exact I
  end.

Ltac case_truthy :=
  match goal with
  | |- context [truthy ?s] =>
      let E := fresh "Htruthy" in
      destruct (truthy s) eqn:E;
      [apply truthy_true in E | apply truthy_false in E]
  | H : context [truthy ?s] |- _ =>
      let E := fresh "Htruthy" in
      destruct (truthy s) eqn:E;
      [apply truthy_true in E | apply truthy_false in E]
  end.
