(* ===== verification/Collection.v ===== *)
(** * Arrays of records that carry an id

    Both list forms keep an array of records, each with a string [id], and
    touch it with three idioms only:

    - [items.map(x => x.id === i ? f(x) : x)], here [updateById];
    - [items.filter(x => x.id !== i)], here [removeById];
    - [items.find(x => x.id === i)], here [findById].

    The form files write the idioms out as the sources do; their terms are
    convertible with the definitions below, whose laws this file proves once
    for every record type of class [HasId]. *)

From stdpp Require Import base decidable option list strings.
From S2P Require Import Prelude.

(** The records of a collection expose their id. *)
Class HasId (A : Type) := id_of : A → string.
#[global] Hint Mode HasId ! : typeclass_instances.

Section collection.
Context {A : Type} `{HasId A}.
Implicit Types (l : list A) (i j : string) (x y : A) (f : A → A) (k : nat).

Definition ids l : list string := id_of <$> l.

Definition updateById i f l : list A :=
  (λ x, if decide (id_of x = i) then f x else x) <$> l.

Definition removeById i l : list A := filter (λ x, id_of x ≠ i) l.

Definition findById i l : option A :=
  List.find (λ x, bool_decide (id_of x = i)) l.

(** A replacement that keeps the id of the record it replaces. *)
Definition KeepsId f : Prop := ∀ x, id_of (f x) = id_of x.

(** A well-formed collection: ids are distinct and none is the empty
    string (the forms use the empty string for "no current id"). *)
Definition wf_ids l : Prop := NoDup (ids l) ∧ Forall (λ x, id_of x ≠ "") l.

(** ** ids *)

Lemma ids_nil : ids [] = [].
Proof. reflexivity. Qed.

Lemma ids_app l1 l2 : ids (l1 ++ l2) = ids l1 ++ ids l2.
Proof. apply fmap_app. Qed.

Lemma ids_snoc l x : ids (l ++ [x]) = ids l ++ [id_of x].
Proof. by rewrite ids_app. Qed.

Lemma length_ids l : length (ids l) = length l.
Proof. apply length_fmap. Qed.

Lemma elem_of_ids i l : i ∈ ids l ↔ ∃ x, x ∈ l ∧ id_of x = i.
Proof.
  unfold ids. rewrite list_elem_of_fmap.
  split; [intros (x & -> & ?) | intros (x & ? & <-)]; eauto.
Qed.

Lemma elem_of_ids_2 x l : x ∈ l → id_of x ∈ ids l.
Proof. intros. apply elem_of_ids. eauto. Qed.

Lemma ids_lookup l k : ids l !! k = id_of <$> l !! k.
Proof. apply list_lookup_fmap. Qed.

(** With distinct ids, a record is determined by its id. *)
Lemma NoDup_ids_lookup_inj l k1 k2 x1 x2 :
  NoDup (ids l) → l !! k1 = Some x1 → l !! k2 = Some x2 →
  id_of x1 = id_of x2 → k1 = k2.
Proof.
  intros Hnd H1 H2 Hid. eapply NoDup_lookup; [done| |];
    rewrite ids_lookup; [by rewrite H1 | by rewrite H2, Hid].
Qed.

(** ** updateById: replacement in place *)

Lemma length_updateById i f l : length (updateById i f l) = length l.
Proof. apply length_fmap. Qed.

Lemma updateById_lookup i f l k :
  updateById i f l !! k =
  (λ x, if decide (id_of x = i) then f x else x) <$> l !! k.
Proof. apply list_lookup_fmap. Qed.

Lemma updateById_lookup_hit i f l k x :
  l !! k = Some x → id_of x = i → updateById i f l !! k = Some (f x).
Proof.
  intros Hk Hi. rewrite updateById_lookup, Hk. simpl. by rewrite decide_True.
Qed.

Lemma updateById_lookup_miss i f l k x :
  l !! k = Some x → id_of x ≠ i → updateById i f l !! k = Some x.
Proof.
  intros Hk Hi. rewrite updateById_lookup, Hk. simpl. by rewrite decide_False.
Qed.

Lemma ids_updateById i f l : KeepsId f → ids (updateById i f l) = ids l.
Proof.
  intros Hf. unfold ids, updateById. rewrite <- list_fmap_compose.
  apply list_fmap_ext. intros _ x _. simpl. case_decide; [apply Hf | done].
Qed.

Lemma updateById_absent i f l : i ∉ ids l → updateById i f l = l.
Proof.
  intros Hi. unfold updateById. rewrite <- (list_fmap_id l) at 2.
  apply list_fmap_ext. intros k x Hk. simpl. case_decide as Hx; [|done].
  destruct Hi. subst i. eapply elem_of_ids_2, list_elem_of_lookup_2, Hk.
Qed.

(** With distinct ids the replacement touches one position: it is the
    array update [l[k] = f(l[k])]. *)
Lemma updateById_insert i f l k x :
  NoDup (ids l) → l !! k = Some x → id_of x = i →
  updateById i f l = <[k := f x]> l.
Proof.
  intros Hnd Hk Hi. apply list_eq. intros k'.
  destruct (decide (k' = k)) as [->|Hne].
  - rewrite list_lookup_insert_eq by (by eapply lookup_lt_Some).
    by apply updateById_lookup_hit.
  - rewrite list_lookup_insert_ne by done.
    destruct (l !! k') as [y|] eqn:Hk'.
    + apply updateById_lookup_miss; [done|]. intros Hy. apply Hne.
      eapply NoDup_ids_lookup_inj; eauto. congruence.
    + by rewrite updateById_lookup, Hk'.
Qed.

Lemma updateById_compose i f g l :
  KeepsId g → updateById i f (updateById i g l) = updateById i (f ∘ g) l.
Proof.
  intros Hg. unfold updateById. rewrite <- list_fmap_compose.
  apply list_fmap_ext. intros _ x _. simpl.
  destruct (decide (id_of x = i)) as [Hx|Hx].
  - by rewrite decide_True by (by rewrite Hg).
  - by rewrite decide_False.
Qed.

Lemma Forall_updateById (P : A → Prop) i f l :
  (∀ x, id_of x = i → P (f x)) → Forall P l → Forall P (updateById i f l).
Proof.
  intros Hf Hl. unfold updateById. apply Forall_fmap.
  eapply Forall_impl; [done|]. intros x Hx. unfold compose.
  destruct (decide (id_of x = i)); auto.
Qed.

(** Without the distinctness of ids the replacement still hits every
    record of the id and no other. *)
Lemma updateById_Forall2 i f l :
  Forall2 (λ x y, if decide (id_of x = i) then y = f x else y = x)
    l (updateById i f l).
Proof.
  unfold updateById. apply Forall2_fmap_r, Forall2_same_length_lookup_2.
  { done. }
  intros k x y Hx Hy. assert (x = y) as -> by congruence.
  unfold compose. by destruct (decide (id_of y = i)).
Qed.

(** ** removeById: deletion *)

Lemma elem_of_removeById i l x : x ∈ removeById i l ↔ x ∈ l ∧ id_of x ≠ i.
Proof. unfold removeById. rewrite list_elem_of_filter. tauto. Qed.

Lemma removeById_absent i l : i ∉ ids l → removeById i l = l.
Proof.
  intros Hi. induction l as [|x l IH]; [done|].
  unfold removeById in *. rewrite filter_cons.
  rewrite decide_True; [f_equal; apply IH|]; intros Hx; apply Hi.
  - unfold ids. rewrite fmap_cons. by right.
  - subst i. unfold ids. rewrite fmap_cons. by left.
Qed.

Lemma ids_removeById i l : ids (removeById i l) = filter (λ j, j ≠ i) (ids l).
Proof.
  induction l as [|x l IH]; [done|]. unfold removeById, ids in *.
  rewrite fmap_cons, !filter_cons.
  case_decide; [rewrite fmap_cons|]; by rewrite IH.
Qed.

Lemma removeById_not_elem i l : i ∉ ids (removeById i l).
Proof. rewrite ids_removeById, list_elem_of_filter. tauto. Qed.

Lemma removeById_idemp i l : removeById i (removeById i l) = removeById i l.
Proof. apply removeById_absent, removeById_not_elem. Qed.

Lemma removeById_comm i j l :
  removeById i (removeById j l) = removeById j (removeById i l).
Proof.
  induction l as [|x l IH]; [done|]. unfold removeById in *.
  rewrite !filter_cons.
  repeat (case_decide; rewrite ?filter_cons); by rewrite ?IH.
Qed.

Lemma removeById_sublist i l : removeById i l `sublist_of` l.
Proof. apply sublist_filter. Qed.

Lemma length_removeById i l : length (removeById i l) ≤ length l.
Proof. apply length_filter. Qed.

Lemma NoDup_ids_removeById i l : NoDup (ids l) → NoDup (ids (removeById i l)).
Proof. intros. rewrite ids_removeById. by apply NoDup_filter. Qed.

Lemma removeById_other i j l : j ≠ i → j ∈ ids (removeById i l) ↔ j ∈ ids l.
Proof. intros. rewrite ids_removeById, list_elem_of_filter. tauto. Qed.

(** Deleting a present id of a collection with distinct ids removes
    exactly one record. *)
Lemma length_removeById_present i l :
  NoDup (ids l) → i ∈ ids l → S (length (removeById i l)) = length l.
Proof.
  induction l as [|x l IH]; intros Hnd Hi; [by apply elem_of_nil in Hi|].
  unfold ids in Hnd, Hi. rewrite fmap_cons in Hnd, Hi.
  apply NoDup_cons in Hnd as [Hx Hnd].
  unfold removeById. rewrite filter_cons.
  destruct (decide (id_of x = i)) as [<-|Hxi].
  - rewrite decide_False by auto. f_equal.
    fold (removeById (id_of x) l). by rewrite removeById_absent.
  - rewrite decide_True by done. simpl. f_equal. apply IH; [done|].
    by apply elem_of_cons in Hi as [->|Hi].
Qed.

(** Deleting with distinct ids removes one record at most. *)
Lemma length_removeById_NoDup i l :
  NoDup (ids l) → length l ≤ S (length (removeById i l)).
Proof.
  intros Hnd. destruct (decide (i ∈ ids l)) as [Hi|Hi].
  - by rewrite (length_removeById_present i l).
  - rewrite removeById_absent by done. lia.
Qed.

(** Deleting one id after the other leaves the records of the other
    ids; deleting every id leaves nothing. *)
Definition removeAll (js : list string) l : list A :=
  foldl (λ l i, removeById i l) l js.

Lemma elem_of_removeAll js l x : x ∈ removeAll js l ↔ x ∈ l ∧ id_of x ∉ js.
Proof.
  unfold removeAll. revert l. induction js as [|i js IH]; intros l; simpl.
  - rewrite elem_of_nil. tauto.
  - rewrite IH, elem_of_removeById, not_elem_of_cons. tauto.
Qed.

Lemma removeAll_ids l : removeAll (ids l) l = [].
Proof.
  apply elem_of_nil_inv. intros x [Hx Hid]%elem_of_removeAll.
  by apply Hid, elem_of_ids_2.
Qed.

(** ** findById: lookup *)

Lemma findById_Some i l x : findById i l = Some x → x ∈ l ∧ id_of x = i.
Proof.
  unfold findById. intros Hf. apply find_some in Hf as [Hin Hb].
  apply bool_decide_eq_true in Hb. split; [by apply list_elem_of_In|done].
Qed.

Lemma findById_None i l : findById i l = None ↔ i ∉ ids l.
Proof.
  unfold findById. rewrite elem_of_ids. split.
  - intros Hf (x & Hin & Hx). apply list_elem_of_In in Hin.
    pose proof (find_none _ _ Hf _ Hin) as Hb. simpl in Hb.
    by apply bool_decide_eq_false in Hb.
  - intros Hn. destruct (find _ l) as [x|] eqn:Hf; [|done].
    apply findById_Some in Hf. destruct Hn. eauto.
Qed.

Lemma findById_is_Some i l : is_Some (findById i l) ↔ i ∈ ids l.
Proof.
  rewrite <- not_eq_None_Some, findById_None. split; [apply dec_stable|auto].
Qed.

(** The record found is the first of that id, which with distinct ids is
    the one at the position that holds the id. *)
Lemma findById_lookup i l k x :
  NoDup (ids l) → l !! k = Some x → id_of x = i → findById i l = Some x.
Proof.
  intros Hnd Hk Hi.
  destruct (findById i l) as [y|] eqn:Hf.
  - apply findById_Some in Hf as [Hy Hyi].
    apply list_elem_of_lookup in Hy as [k' Hk'].
    assert (k' = k) as -> by (eapply NoDup_ids_lookup_inj; eauto; congruence).
    congruence.
  - apply findById_None in Hf. destruct Hf. subst i.
    eapply elem_of_ids_2, list_elem_of_lookup_2, Hk.
Qed.

(** ** Well-formed collections *)

Lemma wf_ids_nil : wf_ids [].
Proof. split; [apply NoDup_nil_2 | apply Forall_nil_2]. Qed.

Lemma wf_ids_snoc l x :
  wf_ids l → id_of x ∉ ids l → id_of x ≠ "" → wf_ids (l ++ [x]).
Proof.
  intros [Hnd Hne] Hx Hx'. split.
  - rewrite ids_snoc. apply NoDup_app. split_and!;
    [done| |apply NoDup_singleton].
    intros j Hj ->%list_elem_of_singleton. done.
  - apply Forall_app. split; [done|]. by apply Forall_singleton.
Qed.

Lemma wf_ids_updateById i f l :
  KeepsId f → wf_ids l → wf_ids (updateById i f l).
Proof.
  intros Hf [Hnd Hne]. split; [by rewrite ids_updateById|].
  unfold updateById. apply Forall_fmap. eapply Forall_impl; [done|].
  intros x Hx. simpl. case_decide; [by rewrite Hf|done].
Qed.

Lemma wf_ids_removeById i l : wf_ids l → wf_ids (removeById i l).
Proof.
  intros [Hnd Hne]. split; [by apply NoDup_ids_removeById|].
  by apply Forall_filter.
Qed.

End collection.

#[export] Hint Resolve wf_ids_nil wf_ids_snoc wf_ids_updateById
  wf_ids_removeById removeById_not_elem elem_of_ids_2 : js.
#[export] Hint Rewrite @length_updateById @removeById_idemp @ids_snoc : js.
#[export] Hint Rewrite @ids_updateById using done : js.

(** ** Maps between collections that keep the ids

    A function from one kind of record to another that keeps the id
    commutes with the three idioms: what holds of a collection holds of
    its image. *)
Section transport.
Context {A B : Type} `{HasId A, HasId B} (g : A → B).
Context (g_id : ∀ x, id_of (g x) = id_of x).

Lemma ids_fmap (l : list A) : ids (g <$> l) = ids l.
Proof.
  unfold ids. rewrite <- list_fmap_compose.
  apply list_fmap_ext. intros _ x _. apply g_id.
Qed.

Lemma updateById_fmap (i : string) (f : A → A) (f' : B → B) (l : list A) :
  (∀ x, id_of x = i → g (f x) = f' (g x)) →
  g <$> updateById i f l = updateById i f' (g <$> l).
Proof.
  intros Hf. unfold updateById. rewrite <- !list_fmap_compose.
  apply list_fmap_ext. intros _ x _. simpl. rewrite g_id.
  case_decide; [by apply Hf|done].
Qed.

Lemma removeById_fmap (i : string) (l : list A) :
  g <$> removeById i l = removeById i (g <$> l).
Proof.
  unfold removeById. induction l as [|x l IH]; [done|].
  rewrite fmap_cons, !filter_cons, g_id.
  case_decide; [by rewrite fmap_cons, IH|done].
Qed.

End transport.
