(* ===== verification/Yup.v ===== *)
(** * The part of yup the form schemas use

    The forms declare [yup.object().shape({ name: yup.string().required(msg),
    ... })] and hand it to react-hook-form through [yupResolver].  yup is a
    library the sources call, so this file is written from its documented
    behaviour: a required string rejects [undefined] and the empty string
    with the message given; every field is checked (the resolver does not
    stop at the first failure); the resolver answers either the values or
    one message per failing field. *)

From stdpp Require Import base decidable option list strings gmap.
From S2P Require Import Prelude.

(** [yup.string()], with the message of [.required(msg)] when it was
    called. *)
Record StringSchema := { requiredMessage : option string }.

Definition yup_string : StringSchema := {| requiredMessage := None |}.

Definition required (message : string) (s : StringSchema) : StringSchema :=
  {| requiredMessage := Some message |}.

(** [yup.object().shape({...})]: the fields in the order written. *)
Definition ObjectSchema : Type := list (string * StringSchema).

(** The message a field's value earns, if any. *)
Definition validateField (s : StringSchema) (v : option string) :
    option string :=
  match requiredMessage s with
  | Some message => if truthy (default "" v) then None else Some message
  | None => None
  end.

Definition fieldError (values : gmap string string)
    (entry : string * StringSchema) : option (string * string) :=
  (λ message, (entry.1, message)) <$> validateField entry.2 (values !! entry.1).

(** All failures, by field name. *)
Definition validate (shape : ObjectSchema) (values : gmap string string) :
    gmap string string :=
  list_to_map (omap (fieldError values) shape).

Inductive ResolverResult :=
  | Resolved (values : gmap string string)
  | Rejected (errors : gmap string string).

Definition yupResolver (shape : ObjectSchema) (values : gmap string string) :
    ResolverResult :=
  let errors := validate shape values in
  if decide (errors = ∅) then Resolved values else Rejected errors.

(** ** Laws *)

Section yup.
Context (shape : ObjectSchema).
Implicit Types (values : gmap string string) (name message : string).

Lemma validateField_required message (v : option string) :
  validateField (required message yup_string) v =
  if truthy (default "" v) then None else Some message.
Proof. reflexivity. Qed.

Lemma validateField_optional (v : option string) :
  validateField yup_string v = None.
Proof. reflexivity. Qed.

Lemma fieldError_name values entry name message :
  fieldError values entry = Some (name, message) → name = entry.1.
Proof.
  unfold fieldError. destruct (validateField _ _); simpl; congruence.
Qed.

(** Validation reads the fields of the shape and nothing else. *)
Lemma validate_ext values values' :
  (∀ name, name ∈ shape.*1 → field values name = field values' name) →
  validate shape values = validate shape values'.
Proof.
  unfold validate. intros Hext. f_equal.
  apply list_omap_ext, Forall2_same_length_lookup_2; [done|].
  intros k entry entry' Hk Hk'. simplify_eq. unfold fieldError, validateField.
  change (default "" (?v !! entry.1)) with (field v entry.1).
  rewrite (Hext entry.1); [done|].
  apply list_elem_of_fmap. exists entry. eauto using list_elem_of_lookup_2.
Qed.

(** A message is reported only under the name of a field of the shape. *)
Lemma validate_Some_shape values name message :
  validate shape values !! name = Some message →
  ∃ s, (name, s) ∈ shape ∧ validateField s (values !! name) = Some message.
Proof.
  unfold validate. intros Hl. apply elem_of_list_to_map_2 in Hl.
  apply list_elem_of_omap in Hl as ([n s] & Hin & Hf).
  unfold fieldError in Hf. simpl in Hf.
  destruct (validateField s (values !! n)) as [m|] eqn:Hv; simplify_eq/=.
  eauto.
Qed.

Lemma validate_dom values name :
  is_Some (validate shape values !! name) → name ∈ shape.*1.
Proof.
  intros [message Hm]. apply validate_Some_shape in Hm as (s & Hin & _).
  apply list_elem_of_fmap. by exists (name, s).
Qed.

(** The field names an [omap] of [fieldError] keeps are a sublist of the
    names of the shape, so distinct names stay distinct. *)
Lemma fieldError_names values :
  (omap (fieldError values) shape).*1 `sublist_of` shape.*1.
Proof.
  induction shape as [|[n s] sh IH]; [done|]. simpl.
  unfold fieldError at 1. simpl.
  destruct (validateField s (values !! n)); simpl;
    [by apply sublist_skip | by apply sublist_cons].
Qed.

Lemma validate_lookup values name s :
  NoDup shape.*1 → (name, s) ∈ shape →
  validate shape values !! name = validateField s (values !! name).
Proof.
  intros Hnd Hin. unfold validate.
  destruct (validateField s (values !! name)) as [message|] eqn:Hv.
  - apply elem_of_list_to_map_1.
    + eapply sublist_NoDup; [done|apply fieldError_names].
    + apply list_elem_of_omap. exists (name, s). split; [done|].
      unfold fieldError. simpl. by rewrite Hv.
  - apply not_elem_of_list_to_map_1. intros Hn.
    apply list_elem_of_fmap in Hn as ([n m] & -> & Hn). simpl in *.
    apply list_elem_of_omap in Hn as ([n' s'] & Hin' & Hf).
    unfold fieldError in Hf. simpl in Hf.
    destruct (validateField s' (values !! n')) eqn:Hv'; simplify_eq/=.
    assert (s' = s) as -> by (by eapply NoDup_fst_functional).
    congruence.
Qed.

(** No message at all exactly when every field of the shape passes. *)
Lemma validate_empty values :
  validate shape values = ∅ ↔
  Forall (λ entry, validateField entry.2 (values !! entry.1) = None) shape.
Proof.
  unfold validate. rewrite list_to_map_empty_iff, Forall_forall. split.
  - intros Hnil [n s] Hin. simpl.
    destruct (validateField s (values !! n)) as [m|] eqn:Hv; [|done].
    assert ((n, m) ∈ omap (fieldError values) shape) as Hel.
    { apply list_elem_of_omap. exists (n, s). split; [done|].
      unfold fieldError. simpl. by rewrite Hv. }
    rewrite Hnil in Hel. by apply elem_of_nil in Hel.
  - intros Hall. destruct (omap _ shape) as [|[n m] l] eqn:Ho; [done|].
    assert ((n, m) ∈ omap (fieldError values) shape) as Hel
      by (rewrite Ho; left).
    apply list_elem_of_omap in Hel as ([n' s'] & Hin & Hf).
    apply Hall in Hin. unfold fieldError in Hf. simpl in *.
    by rewrite Hin in Hf.
Qed.

(** *** Shapes whose fields are all required with one message

    Both list forms have such a shape: the failures are then exactly the
    blank fields, each with that message. *)

Definition AllRequired (message : string) : Prop :=
  Forall (λ entry, entry.2 = required message yup_string) shape.

Lemma validate_all_required message values name m :
  NoDup shape.*1 → AllRequired message →
  validate shape values !! name = Some m ↔
  name ∈ shape.*1 ∧ field values name = "" ∧ m = message.
Proof.
  intros Hnd Hall. split.
  - intros Hm. apply validate_Some_shape in Hm as (s & Hin & Hv).
    pose proof (proj1 (Forall_forall _ _) Hall _ Hin) as Hs. simpl in Hs.
    subst s. rewrite validateField_required in Hv.
    fold (field values name) in Hv.
    case_truthy; simplify_eq. split_and!; [|done..].
    apply list_elem_of_fmap. by eexists (_, _).
  - intros (Hin & Hblank & ->).
    apply list_elem_of_fmap in Hin as ([n s] & -> & Hin). simpl in *.
    pose proof (proj1 (Forall_forall _ _) Hall _ Hin) as Hs. simpl in Hs.
    subst s. rewrite (validate_lookup values n _ Hnd Hin).
    rewrite validateField_required. fold (field values n).
    by rewrite Hblank.
Qed.

Lemma validate_all_required_None message values name :
  NoDup shape.*1 → AllRequired message →
  validate shape values !! name = None ↔
  name ∉ shape.*1 ∨ field values name ≠ "".
Proof.
  intros Hnd Hall. rewrite eq_None_not_Some. unfold is_Some.
  setoid_rewrite (validate_all_required message values name _ Hnd Hall).
  split.
  - intros Hn. destruct (decide (name ∈ shape.*1)); [|by left].
    destruct (decide (field values name = "")); [|by right].
    destruct Hn. by exists message.
  - intros [?|?] (m & ? & ? & _); done.
Qed.

Lemma validate_all_required_decide message values name :
  NoDup shape.*1 → AllRequired message →
  validate shape values !! name
  = if decide (name ∈ shape.*1 ∧ field values name = "")
    then Some message else None.
Proof.
  intros Hnd Hall. case_decide as Hd.
  - by apply (validate_all_required message); [..|destruct Hd].
  - apply (validate_all_required_None message); [done..|].
    destruct (decide (name ∈ shape.*1)); [right|by left].
    intros Hb. by apply Hd.
Qed.

Lemma validate_all_required_empty message values :
  NoDup shape.*1 → AllRequired message →
  validate shape values = ∅ ↔
  Forall (λ name, field values name ≠ "") shape.*1.
Proof.
  intros Hnd Hall. rewrite Forall_forall. split.
  - intros He name Hin Hblank.
    assert (validate shape values !! name = Some message) as Hm
      by (by apply (validate_all_required message)).
    by rewrite He in Hm.
  - intros Hne. apply map_empty. intros name.
    apply (validate_all_required_None message); [done..|].
    destruct (decide (name ∈ shape.*1)); [right; auto|by left].
Qed.

Lemma yupResolver_Resolved values data :
  yupResolver shape values = Resolved data ↔
  data = values ∧ validate shape values = ∅.
Proof.
  unfold yupResolver. case_decide; split; intros; destruct_and?; by simplify_eq.
Qed.

Lemma yupResolver_Rejected values errors :
  yupResolver shape values = Rejected errors ↔
  errors = validate shape values ∧ errors ≠ ∅.
Proof.
  unfold yupResolver. case_decide; split; intros; destruct_and?; by simplify_eq.
Qed.

End yup.
