(* ===== verification/HookForm.v ===== *)
(** * The part of react-hook-form the forms use

    [useForm({ resolver })] gives a form its field values and its field
    errors.  The forms call [reset()] (no argument, no default values: every
    field becomes blank and the errors are cleared), [setValue(name, v)]
    (the value of one field, errors untouched), [register(name)] (an input
    bound to a field: typing changes the field) and [handleSubmit(onValid)]
    (run the resolver on the values; on success clear the errors and call
    [onValid] with the data, otherwise keep the values, store the errors
    and call nothing).  react-hook-form is a library the sources call, so
    this file follows its documentation.  Re-validation of a field while
    the user types after a failed submission is not modelled: errors change
    at [handleSubmit] and [reset] only. *)

From stdpp Require Import base decidable option list strings gmap.
From S2P Require Import Prelude Yup.

Record UseForm := {
  values : gmap string string;
  errors : gmap string string;
}.

Definition useForm : UseForm := {| values := ∅; errors := ∅ |}.

Definition reset (f : UseForm) : UseForm := useForm.

Definition setValue (name value : string) (f : UseForm) : UseForm :=
  {| values := <[name := value]> (values f); errors := errors f |}.

(** The change event of the input that [register(name)] is spread on. *)
Definition onChange (name value : string) (f : UseForm) : UseForm :=
  setValue name value f.

(** What [handleSubmit(onValid)] does with the form before it decides
    whether to call [onValid]. *)
Inductive Submission :=
  | Valid (data : gmap string string) (f : UseForm)
  | Invalid (f : UseForm).

Definition handleSubmit (resolver : gmap string string → ResolverResult)
    (f : UseForm) : Submission :=
  match resolver (values f) with
  | Resolved data => Valid data {| values := values f; errors := ∅ |}
  | Rejected errs => Invalid {| values := values f; errors := errs |}
  end.

(** [errors.name?.message] *)
Definition errorMessage (f : UseForm) (name : string) : option string :=
  errors f !! name.

(** ** Laws *)

Lemma reset_idemp (f : UseForm) : reset (reset f) = reset f.
Proof. reflexivity. Qed.

Lemma field_setValue_eq (name value : string) (f : UseForm) :
  field (values (setValue name value f)) name = value.
Proof. apply field_insert_eq. Qed.

Lemma field_setValue_ne (name name' value : string) (f : UseForm) :
  name ≠ name' →
  field (values (setValue name value f)) name' = field (values f) name'.
Proof. apply field_insert_ne. Qed.

Lemma errors_setValue (name value : string) (f : UseForm) :
  errors (setValue name value f) = errors f.
Proof. reflexivity. Qed.

Section handleSubmit.
Context (shape : ObjectSchema).

Lemma handleSubmit_Valid (f f' : UseForm) (data : gmap string string) :
  handleSubmit (yupResolver shape) f = Valid data f' ↔
  validate shape (values f) = ∅ ∧ data = values f ∧
  f' = {| values := values f; errors := ∅ |}.
Proof.
  unfold handleSubmit, yupResolver.
  case_decide; split; intros; destruct_and?; by simplify_eq.
Qed.

Lemma handleSubmit_Invalid (f f' : UseForm) :
  handleSubmit (yupResolver shape) f = Invalid f' ↔
  validate shape (values f) ≠ ∅ ∧
  f' = {| values := values f; errors := validate shape (values f) |}.
Proof.
  unfold handleSubmit, yupResolver.
  case_decide; split; intros; destruct_and?; by simplify_eq.
Qed.

End handleSubmit.

#[export] Hint Rewrite field_setValue_eq errors_setValue : js.
#[export] Hint Rewrite field_setValue_ne using done : js.
