(* ===== verification/Intl.v ===== *)
(** * Messages of react-intl

    The forms never hold translated text: they hold what they ask
    react-intl for.  A message is the key passed to [intl.formatMessage] or
    [<FormattedMessage>], with the values to interpolate
    ([withValue], one per value); the translation
    tables are not part of the sources and are not modelled. *)

From stdpp Require Import base strings list.

Inductive Message :=
  | formatMessage (id : string)
  | withValue (m : Message) (name : string) (value : Message)
  | toLowerCase (m : Message)
  | text (s : string).

#[global] Instance Message_eq_dec : EqDecision Message.
Proof. solve_decision. Defined.

(** [<FormattedMessage id=... />] is [intl.formatMessage({ id })]. *)
Definition FormattedMessage (id : string) : Message := formatMessage id.

(** The key a message starts from. *)
Fixpoint messageId (m : Message) : option string :=
  match m with
  | formatMessage id => Some id
  | withValue m _ _ => messageId m
  | toLowerCase m => messageId m
  | text _ => None
  end.
