(* ===== verification/Components.v ===== *)
(** * Properties of the base components the forms render

    [CrudList], [Modal], [Input], [Textarea] and [Button] live under
    [@/components], outside the sources.  What a form passes to them is
    data of the form's render, so each gets a record of the properties the
    forms set.  A callback property is the event it raises; layout
    properties ([marginTop], [columns], [small], [outline]) are left out. *)

From stdpp Require Import base strings list.
From S2P Require Import Intl.

Module CrudList.
Record Props (Item Event : Type) := {
  items : list Item;
  propertyToShow : string;
  emptyMessage : Message;
  onAdd : Event;
  onEdit : string → Event;
  onDelete : string → Event;
}.
Arguments items {_ _}. Arguments propertyToShow {_ _}.
Arguments emptyMessage {_ _}. Arguments onAdd {_ _}.
Arguments onEdit {_ _}. Arguments onDelete {_ _}.
End CrudList.

(** [Input] and [Textarea]: [element] tells which.  [name] and [onChange]
    are what [register(name)] spreads on the element, or what the form
    passes itself; [onChange] takes what the user typed.  [value] is set
    when the form controls the input and [None] when react-hook-form
    does; a [Textarea] is given no [error]. *)
Module Input.
Record Props (Event : Type) := {
  element : string;
  type : string;
  label : Message;
  name : string;
  value : option string;
  error : option string;
  onChange : string → Event;
}.
Arguments element {_}. Arguments type {_}. Arguments label {_}.
Arguments name {_}. Arguments value {_}. Arguments error {_}.
Arguments onChange {_}.
End Input.

Module Button.
Record Props (Event : Type) := {
  type : string;
  onClick : option Event;
  children : Message;
}.
Arguments type {_}. Arguments onClick {_}. Arguments children {_}.
End Button.

(** The modal with the form element inside it: [onSubmit] is the form's,
    and takes the identifier [uuid()] would produce during the call. *)
Module Modal.
Record Props (Event : Type) := {
  show : bool;
  onCloseModal : Event;
  onSubmit : string → Event;
  header : list Message;
  content : list (Input.Props Event);
  actions : list (Button.Props Event);
}.
Arguments show {_}. Arguments onCloseModal {_}. Arguments onSubmit {_}.
Arguments header {_}. Arguments content {_}. Arguments actions {_}.
End Modal.
