(* ===== verification/React.v ===== *)
(** * React's render and commit cycle, for one component

    A function component is, for this development, what its hooks make of
    it: an initial state, what each event callback does to the state, and
    one effect with a dependency list.  React runs the callback of an
    event, renders, and then, in the commit, runs the effect if one of its
    dependencies changed since the effect last ran; the effect sees the
    context value of that render and may replace it.

    [Component] is that interface as a record of operations, [Lawful] its
    law, and the rest of the file is proved against them: the steps of
    a component, the worlds it can reach, invariants by induction on the
    steps, and the schemes the forms instantiate (the context mirrors the
    state; the component leaves the rest of the context alone; a size of
    the state grows with the events; the commit leaves the state as the
    callbacks made it).  Then morphisms of components, and sibling
    components under one context.  React itself is not among the
    sources. *)

From stdpp Require Import base decidable option list.

Section component.
Context {Ctx St Ev : Type}.

Record Component := {
  c_initial : St;
  c_handle : Ev → St → St;
  c_pending : St → bool;
  c_settle : St → St;
  c_effect : Ctx → St → Ctx;
}.

(** Once the effect has run it does not run again by itself. *)
Class Lawful (C : Component) : Prop :=
  settle_quiet : ∀ st, c_pending C (c_settle C st) = false.

(** The component together with the context value it reads. *)
Record World := {
  component : St;
  context : Ctx;
}.

Context (C : Component).
Implicit Types (w : World) (e : Ev) (es : list Ev) (ctx : Ctx) (st : St).

Definition commit w : World :=
  if c_pending C (component w) then
    {| component := c_settle C (component w);
       context := c_effect C (context w) (component w) |}
  else w.

(** The first render: the effect always runs. *)
Definition mount ctx : World :=
  {| component := c_settle C (c_initial C);
     context := c_effect C ctx (c_initial C) |}.

Definition step e w : World :=
  commit {| component := c_handle C e (component w); context := context w |}.

Definition run es w : World := foldl (λ w e, step e w) w es.

(** An effect that replaces the context makes React render again, and
    commit again if that render finds a dependency changed.  [rerender]
    is that loop, with fuel: it answers the world in which no effect is
    due, if the fuel allows as many commits as it takes. *)
Fixpoint rerender (fuel : nat) w : option World :=
  if c_pending C (component w) then
    match fuel with
    | 0 => None
    | S fuel => rerender fuel (commit w)
    end
  else Some w.

(** ** Worlds a user can reach

    [G e st] says that event [e] can be raised in state [st]. *)
Inductive reachable (G : Ev → St → Prop) ctx : World → Prop :=
  | reachable_mount : reachable G ctx (mount ctx)
  | reachable_step e w :
      reachable G ctx w → G e (component w) → reachable G ctx (step e w).

Fixpoint allowed (G : Ev → St → Prop) es w : Prop :=
  match es with
  | [] => True
  | e :: es => G e (component w) ∧ allowed G es (step e w)
  end.

#[global] Instance allowed_dec G `{!∀ e st, Decision (G e st)} es w :
  Decision (allowed G es w).
Proof. revert w. induction es; intros w; simpl; apply _. Defined.

(** ** Laws of the cycle *)

Lemma run_nil w : run [] w = w.
Proof. reflexivity. Qed.

Lemma run_cons e es w : run (e :: es) w = run es (step e w).
Proof. reflexivity. Qed.

Lemma run_app es1 es2 w : run (es1 ++ es2) w = run es2 (run es1 w).
Proof. apply foldl_app. Qed.

Lemma commit_context w :
  context (commit w)
  = if c_pending C (component w)
    then c_effect C (context w) (component w) else context w.
Proof. unfold commit. by destruct (c_pending C (component w)). Qed.

Lemma commit_component w :
  component (commit w)
  = if c_pending C (component w)
    then c_settle C (component w) else component w.
Proof. unfold commit. by destruct (c_pending C (component w)). Qed.

(** The state of the component after an event does not depend on the
    context: it is the callback's result, settled if the effect ran. *)
Definition settled e st : St :=
  if c_pending C (c_handle C e st) then c_settle C (c_handle C e st)
  else c_handle C e st.

Lemma component_step e w : component (step e w) = settled e (component w).
Proof. unfold step. by rewrite commit_component. Qed.

Lemma component_run es w :
  component (run es w) = foldl (λ st e, settled e st) (component w) es.
Proof.
  revert w. induction es as [|e es IH]; intros w; [done|].
  by rewrite run_cons, IH, component_step.
Qed.

Lemma allowed_app G es1 es2 w :
  allowed G (es1 ++ es2) w ↔ allowed G es1 w ∧ allowed G es2 (run es1 w).
Proof.
  revert w. induction es1 as [|e es1 IH]; intros w; simpl; [tauto|].
  rewrite IH. tauto.
Qed.

(** Whether events can be raised depends on the component only. *)
Lemma allowed_component G es w w' :
  component w = component w' → allowed G es w → allowed G es w'.
Proof.
  revert w w'. induction es as [|e es IH]; intros w w' Hw; [done|].
  simpl. rewrite Hw. intros [He Hes]. split; [done|].
  apply (IH (step e w)); [|done]. by rewrite !component_step, Hw.
Qed.

Lemma run_invariant (P : World → Prop) es w :
  (∀ e w, P w → P (step e w)) → P w → P (run es w).
Proof.
  intros Hstep. revert w. induction es as [|e es IH]; intros w Hw; [done|].
  apply IH, Hstep, Hw.
Qed.

(** A property of the state that the callbacks keep and that the
    settling of the effect does not see holds along a run. *)
Lemma run_component_invariant (I : St → Prop) es w :
  (∀ st, I st → I (c_settle C st)) → (∀ e st, I st → I (c_handle C e st)) →
  I (component w) → I (component (run es w)).
Proof.
  intros Hsettle Hhandle.
  apply (run_invariant (λ w, I (component w))). clear w. intros e w Hw.
  rewrite component_step. unfold settled.
  destruct (c_pending C _); auto.
Qed.

Lemma allowed_impl (G G' : Ev → St → Prop) es w :
  (∀ e st, G e st → G' e st) → allowed G es w → allowed G' es w.
Proof.
  intros HG. revert w. induction es as [|e es IH]; intros w; [done|].
  simpl. intros [? ?]. auto.
Qed.

Lemma reachable_impl (G G' : Ev → St → Prop) ctx w :
  (∀ e st, G e st → G' e st) → reachable G ctx w → reachable G' ctx w.
Proof. intros HG. induction 1; [constructor|constructor; auto]. Qed.

Lemma reachable_run G ctx es w :
  reachable G ctx w → allowed G es w → reachable G ctx (run es w).
Proof.
  revert w. induction es as [|e es IH]; intros w Hw Hes; [done|].
  destruct Hes as [He Hes]. apply IH; [by constructor|done].
Qed.

Lemma reachable_is_run G ctx w :
  reachable G ctx w → ∃ es, w = run es (mount ctx).
Proof.
  induction 1 as [|e w _ [es ->] _]; [by exists []|].
  exists (es ++ [e]). by rewrite run_app.
Qed.

Lemma reachable_is_allowed G ctx w :
  reachable G ctx w ↔ ∃ es, w = run es (mount ctx) ∧ allowed G es (mount ctx).
Proof.
  split; [|intros (es & -> & Hes); by apply reachable_run; [constructor|]].
  induction 1 as [|e w _ (es & -> & Hes) He]; [by exists []|].
  exists (es ++ [e]). rewrite run_app, allowed_app. simpl. tauto.
Qed.

(** An invariant of the reachable worlds: it holds after mounting and
    every allowed step keeps it. *)
Lemma reachable_invariant (P : World → Prop) G ctx w :
  P (mount ctx) →
  (∀ e w, reachable G ctx w → G e (component w) → P w → P (step e w)) →
  reachable G ctx w → P w.
Proof. intros Hm Hs. induction 1; auto. Qed.

Section lawful.
Context `{!Lawful C}.

Lemma commit_quiet w : c_pending C (component (commit w)) = false.
Proof.
  rewrite commit_component.
  destruct (c_pending C (component w)) eqn:E; [apply settle_quiet|done].
Qed.

(** Rendering again after a commit runs nothing. *)
Lemma commit_idempotent w : commit (commit w) = commit w.
Proof. unfold commit at 1. by rewrite commit_quiet. Qed.

(** The loop ends after one commit: with any fuel but none it answers
    what [commit] answers, which is why [step] commits once. *)
Theorem rerender_commit fuel w : rerender (S fuel) w = Some (commit w).
Proof.
  simpl. destruct (c_pending C (component w)) eqn:E.
  - destruct fuel; simpl; by rewrite commit_quiet.
  - unfold commit. by rewrite E.
Qed.

Lemma step_quiet e w : c_pending C (component (step e w)) = false.
Proof. apply commit_quiet. Qed.

Lemma settled_quiet e st : c_pending C (settled e st) = false.
Proof.
  unfold settled. destruct (c_pending C (c_handle C e st)) eqn:E;
    [apply settle_quiet|done].
Qed.

Lemma run_quiet es w :
  c_pending C (component w) = false →
  c_pending C (component (run es w)) = false.
Proof. intros. apply run_invariant; [intros; apply step_quiet|done]. Qed.

(** *** The context mirrors the state

    [Sync ctx st]: the context holds what the effect would write for
    [st].  A world is [Synced] when no effect is due and [Sync] holds; a
    component [Keeps] it when every step from a synced world ends in one.
    A component whose effect establishes [Sync], and whose callbacks that
    schedule no effect keep it, keeps it and has it from the mount on. *)
Section sync.
Context (Sync : Ctx → St → Prop).

Definition Synced w : Prop :=
  c_pending C (component w) = false ∧ Sync (context w) (component w).

Definition Keeps : Prop := ∀ e w, Synced w → Synced (step e w).

Lemma Synced_commit w :
  (c_pending C (component w) = false → Sync (context w) (component w)) →
  (c_pending C (component w) = true →
   Sync (c_effect C (context w) (component w)) (c_settle C (component w))) →
  Synced (commit w).
Proof.
  intros Hq Hp. split; [apply commit_quiet|].
  rewrite commit_context, commit_component.
  destruct (c_pending C (component w)); auto.
Qed.

Lemma keeps_run es w : Keeps → Synced w → Synced (run es w).
Proof. intros Hk. by apply run_invariant. Qed.

Context (sync_effect : ∀ ctx st, Sync (c_effect C ctx st) (c_settle C st)).
Context (sync_handle : ∀ e ctx st,
  c_pending C st = false → Sync ctx st →
  c_pending C (c_handle C e st) = false → Sync ctx (c_handle C e st)).

Lemma Synced_mount ctx : Synced (mount ctx).
Proof. split; [apply settle_quiet|apply sync_effect]. Qed.

Lemma Synced_step : Keeps.
Proof.
  intros e w [Hq Hs]. apply Synced_commit; simpl.
  - intros Hq'. by apply sync_handle.
  - intros _. apply sync_effect.
Qed.

Theorem run_synced ctx es : Synced (run es (mount ctx)).
Proof. apply keeps_run; [apply Synced_step|apply Synced_mount]. Qed.

End sync.

(** *** A measure of the state along a run

    [m] is a size of the state that the effect leaves alone.  If an event
    [e] raises it by [cost e] at most, a run raises it by the costs of its
    events at most. *)
Section measure.
Context (m : St → nat) (cost : Ev → nat).
Context (measure_settle : ∀ st, m (c_settle C st) = m st).
Context (measure_handle : ∀ e st, m (c_handle C e st) ≤ m st + cost e).

Lemma step_measure e w : m (component (step e w)) ≤ m (component w) + cost e.
Proof.
  rewrite component_step. unfold settled.
  destruct (c_pending C _); [rewrite measure_settle|]; apply measure_handle.
Qed.

Theorem run_measure es w :
  m (component (run es w)) ≤ m (component w) + sum_list (cost <$> es).
Proof.
  revert w. induction es as [|e es IH]; intros w; [simpl; lia|].
  rewrite run_cons, fmap_cons. etrans; [apply IH|].
  pose proof (step_measure e w). simpl. lia.
Qed.

End measure.
End lawful.

(** *** What the commit leaves of the state

    The commit resets the record of the changed dependency and nothing
    else.  Two states are [alike] when they differ in that record only.
    If the callbacks do not read it, the state after a run is like the
    one the callbacks alone make of the first: neither the commit nor
    what the effect writes to the context comes back to the component. *)
Section alike.

Definition alike st st' : Prop := c_settle C st = c_settle C st'.

#[global] Instance alike_equivalence : Equivalence alike.
Proof.
  unfold alike. split; [by intros st|by intros st st'|].
  intros st1 st2 st3. congruence.
Qed.

(** What the callbacks alone make of a state. *)
Definition handled es st : St := foldl (λ st e, c_handle C e st) st es.

Context (settle_idemp : ∀ st, c_settle C (c_settle C st) = c_settle C st).
Context (handle_alike : ∀ e st,
  alike (c_handle C e (c_settle C st)) (c_handle C e st)).

Lemma settle_alike st : alike (c_settle C st) st.
Proof. apply settle_idemp. Qed.

#[local] Instance handle_proper e : Proper (alike ==> alike) (c_handle C e).
Proof.
  intros st st' Hst. rewrite <- (handle_alike e st), <- (handle_alike e st').
  unfold alike in Hst. by rewrite Hst.
Qed.

#[local] Instance handled_proper es : Proper (alike ==> alike) (handled es).
Proof.
  induction es as [|e es IH]; intros st st' Hst; [done|].
  simpl. apply IH. by rewrite Hst.
Qed.

Lemma settled_alike e st : alike (settled e st) (c_handle C e st).
Proof.
  unfold settled. destruct (c_pending C _); [apply settle_alike|done].
Qed.

Theorem run_alike es w :
  alike (component (run es w)) (handled es (component w)).
Proof.
  rewrite component_run. generalize (component w). clear w.
  induction es as [|e es IH]; intros st; [done|].
  simpl. rewrite IH. apply handled_proper, settled_alike.
Qed.

End alike.

(** *** The component leaves the rest of the context alone

    [Frame ctx ctx']: what the component does not own is the same in both.
    If the effect keeps it, so does every run. *)
Section frame.
Context (Frame : Ctx → Ctx → Prop) `{!PreOrder Frame}.
Context (frame_effect : ∀ ctx st, Frame ctx (c_effect C ctx st)).

Lemma commit_frame w : Frame (context w) (context (commit w)).
Proof.
  rewrite commit_context. by destruct (c_pending C (component w)).
Qed.

Lemma mount_frame ctx : Frame ctx (context (mount ctx)).
Proof. apply frame_effect. Qed.

Lemma step_frame e w : Frame (context w) (context (step e w)).
Proof.
  apply (commit_frame {| component := c_handle C e (component w);
                          context := context w |}).
Qed.

Theorem run_frame es w : Frame (context w) (context (run es w)).
Proof.
  revert w. induction es as [|e es IH]; intros w; [done|].
  rewrite run_cons. etrans; [apply step_frame|apply IH].
Qed.

End frame.
End component.

Arguments Component : clear implicits.
Arguments World : clear implicits.

(** ** Morphisms of components

    A map of states [f] and a map of events [g] from one component to
    another, over the same context, that commute with everything React
    does with a component.  Then whatever the first component does, the
    second does on the images: the two have the same runs. *)
Section morphism.
Context {Ctx St1 Ev1 St2 Ev2 : Type}.
Context (C1 : Component Ctx St1 Ev1) (C2 : Component Ctx St2 Ev2).
Context (f : St1 → St2) (g : Ev1 → Ev2).

Record Morphism : Prop := {
  m_initial : f (c_initial C1) = c_initial C2;
  m_handle : ∀ e st, f (c_handle C1 e st) = c_handle C2 (g e) (f st);
  m_pending : ∀ st, c_pending C1 st = c_pending C2 (f st);
  m_settle : ∀ st, f (c_settle C1 st) = c_settle C2 (f st);
  m_effect : ∀ ctx st, c_effect C1 ctx st = c_effect C2 ctx (f st);
}.

Definition onWorld (w : World Ctx St1) : World Ctx St2 :=
  {| component := f (component w); context := context w |}.

Context (M : Morphism).

Lemma morphism_commit w : onWorld (commit C1 w) = commit C2 (onWorld w).
Proof.
  unfold commit, onWorld. simpl. rewrite <- (m_pending M).
  destruct (c_pending C1 (component w)); simpl; [|done].
  by rewrite (m_settle M), (m_effect M).
Qed.

Lemma morphism_mount ctx : onWorld (mount C1 ctx) = mount C2 ctx.
Proof.
  unfold mount, onWorld. simpl.
  by rewrite (m_settle M), (m_effect M), (m_initial M).
Qed.

Lemma morphism_step e w : onWorld (step C1 e w) = step C2 (g e) (onWorld w).
Proof.
  unfold step. rewrite morphism_commit. unfold onWorld. simpl.
  by rewrite (m_handle M).
Qed.

Theorem morphism_run es w :
  onWorld (run C1 es w) = run C2 (g <$> es) (onWorld w).
Proof.
  revert w. induction es as [|e es IH]; intros w; [done|].
  rewrite fmap_cons, !run_cons, IH. by rewrite morphism_step.
Qed.

Lemma morphism_allowed (G : Ev2 → St2 → Prop) es w :
  allowed C1 (λ e st, G (g e) (f st)) es w
  ↔ allowed C2 G (g <$> es) (onWorld w).
Proof.
  revert w. induction es as [|e es IH]; intros w; [done|].
  simpl. by rewrite IH, morphism_step.
Qed.

End morphism.

(** ** Two components under one context

    Two sibling components read the same context value.  An event belongs
    to one of them and runs its callback.  In the commit every component
    whose dependency changed runs its effect; each effect was built by the
    render, so each sees the context value of that render, and each
    replaces the context value: when both run, the second one's write is
    what remains.  After the commit both have run.

    [MountsPending] says that the effect is due at the first render, which
    is how [mount] treats a single component. *)

Class MountsPending {Ctx St Ev : Type} (C : Component Ctx St Ev) : Prop :=
  mounts_pending : c_pending C (c_initial C) = true.

Section both.
Context {Ctx St1 Ev1 St2 Ev2 : Type}.
Context (C1 : Component Ctx St1 Ev1) (C2 : Component Ctx St2 Ev2).

Definition settleIfPending {St Ev : Type} (C : Component Ctx St Ev) (st : St) :
    St :=
  if c_pending C st then c_settle C st else st.

Definition both : Component Ctx (St1 * St2) (Ev1 + Ev2) :=
  {| c_initial := (c_initial C1, c_initial C2);
     c_handle := λ e st,
       match e with
       | inl e1 => (c_handle C1 e1 st.1, st.2)
       | inr e2 => (st.1, c_handle C2 e2 st.2)
       end;
     c_pending := λ st, c_pending C1 st.1 || c_pending C2 st.2;
     c_settle := λ st, (settleIfPending C1 st.1, settleIfPending C2 st.2);
     c_effect := λ ctx st,
       if c_pending C2 st.2 then c_effect C2 ctx st.2
       else if c_pending C1 st.1 then c_effect C1 ctx st.1
       else ctx |}.

Context `{!Lawful C1, !Lawful C2}.

Lemma settleIfPending_quiet_1 st : c_pending C1 (settleIfPending C1 st) = false.
Proof.
  unfold settleIfPending. destruct (c_pending C1 st) eqn:E; [|done].
  apply settle_quiet.
Qed.

Lemma settleIfPending_quiet_2 st : c_pending C2 (settleIfPending C2 st) = false.
Proof.
  unfold settleIfPending. destruct (c_pending C2 st) eqn:E; [|done].
  apply settle_quiet.
Qed.

#[global] Instance both_lawful : Lawful both.
Proof.
  intros [s1 s2]. simpl.
  by rewrite settleIfPending_quiet_1, settleIfPending_quiet_2.
Qed.

Lemma settleIfPending_both st :
  settleIfPending both st = (settleIfPending C1 st.1, settleIfPending C2 st.2).
Proof.
  destruct st as [s1 s2]. unfold settleIfPending at 1. simpl.
  destruct (c_pending C1 s1) eqn:E1, (c_pending C2 s2) eqn:E2; simpl; try done.
  unfold settleIfPending. by rewrite E1, E2.
Qed.

#[global] Instance both_mounts_pending `{!MountsPending C2} :
  MountsPending both.
Proof.
  unfold MountsPending. simpl. rewrite (mounts_pending (C := C2)).
  apply orb_true_r.
Qed.

(** At the first render both effects run: what the first one wrote is
    replaced by what the second one writes over the context value of the
    render. *)
Lemma both_mount_context `{!MountsPending C2} ctx :
  context (mount both ctx) = c_effect C2 ctx (c_initial C2).
Proof. simpl. by rewrite (mounts_pending (C := C2)). Qed.

(** With the other component quiet, an event is a step of its own
    component on the context value of the moment. *)
Lemma both_step_inl e1 s1 s2 ctx :
  c_pending C2 s2 = false →
  step both (inl e1) {| component := (s1, s2); context := ctx |}
  = {| component :=
         (component (step C1 e1 {| component := s1; context := ctx |}), s2);
       context := context (step C1 e1 {| component := s1; context := ctx |}) |}.
Proof.
  intros Hq. unfold step, commit. simpl. rewrite Hq, orb_false_r.
  destruct (c_pending C1 (c_handle C1 e1 s1)) eqn:E; [|done].
  simpl. unfold settleIfPending. by rewrite E, Hq.
Qed.

Lemma both_step_inr e2 s1 s2 ctx :
  c_pending C1 s1 = false →
  step both (inr e2) {| component := (s1, s2); context := ctx |}
  = {| component :=
         (s1, component (step C2 e2 {| component := s2; context := ctx |}));
       context := context (step C2 e2 {| component := s2; context := ctx |}) |}.
Proof.
  intros Hq. unfold step, commit. simpl. rewrite Hq. simpl.
  destruct (c_pending C2 (c_handle C2 e2 s2)) eqn:E; [|done].
  simpl. unfold settleIfPending. by rewrite E, Hq.
Qed.

(** While only the second component is used, the two together are the
    second alone: the first does nothing and writes nothing. *)
Lemma both_run_inr es s1 s2 ctx :
  c_pending C1 s1 = false →
  run both (inr <$> es) {| component := (s1, s2); context := ctx |}
  = {| component :=
         (s1, component (run C2 es {| component := s2; context := ctx |}));
       context := context (run C2 es {| component := s2; context := ctx |}) |}.
Proof.
  intros Hq. revert s2 ctx. induction es as [|e es IH]; intros s2 ctx; [done|].
  rewrite fmap_cons, !run_cons, both_step_inr by done.
  rewrite IH. by destruct (step C2 e _).
Qed.

(** So from the mount on: the context is what the second component
    alone makes of it. *)
Lemma both_mount_run_inr `{!MountsPending C2} es ctx :
  run both (inr <$> es) (mount both ctx)
  = {| component :=
         (settleIfPending C1 (c_initial C1), component (run C2 es (mount C2 ctx)));
       context := context (run C2 es (mount C2 ctx)) |}.
Proof.
  unfold mount at 1. simpl.
  rewrite both_run_inr by apply settleIfPending_quiet_1.
  assert (settleIfPending C2 (c_initial C2) = c_settle C2 (c_initial C2))
    as -> by (unfold settleIfPending; by rewrite mounts_pending).
  by rewrite (mounts_pending (C := C2)).
Qed.

(** *** Each component behaves as it does alone

    The state of a component depends on its own events only: the events
    of its sibling, and what the siblings write to the context, do not
    reach it. *)

Definition lefts (es : list (Ev1 + Ev2)) : list Ev1 :=
  omap (λ e, match e with inl e1 => Some e1 | inr _ => None end) es.

Definition rights (es : list (Ev1 + Ev2)) : list Ev2 :=
  omap (λ e, match e with inr e2 => Some e2 | inl _ => None end) es.

Lemma both_settled_inl e1 s1 s2 :
  c_pending C2 s2 = false →
  settled both (inl e1) (s1, s2) = (settled C1 e1 s1, s2).
Proof.
  intros Hq. unfold settled. simpl. rewrite Hq, orb_false_r.
  destruct (c_pending C1 (c_handle C1 e1 s1)) eqn:E; [|done].
  unfold settleIfPending. by rewrite E, Hq.
Qed.

Lemma both_settled_inr e2 s1 s2 :
  c_pending C1 s1 = false →
  settled both (inr e2) (s1, s2) = (s1, settled C2 e2 s2).
Proof.
  intros Hq. unfold settled. simpl. rewrite Hq. simpl.
  destruct (c_pending C2 (c_handle C2 e2 s2)) eqn:E; [|done].
  unfold settleIfPending. by rewrite E, Hq.
Qed.

Lemma both_component_run es s1 s2 :
  c_pending C1 s1 = false → c_pending C2 s2 = false →
  foldl (λ st e, settled both e st) (s1, s2) es
  = (foldl (λ st e, settled C1 e st) s1 (lefts es),
     foldl (λ st e, settled C2 e st) s2 (rights es)).
Proof.
  revert s1 s2. induction es as [|[e1|e2] es IH]; intros s1 s2 H1 H2; [done|..].
  - simpl. rewrite both_settled_inl by done.
    apply IH; [apply (settled_quiet C1)|done].
  - simpl. rewrite both_settled_inr by done.
    apply IH; [done|apply (settled_quiet C2)].
Qed.

(** From a world in which no effect is due, on any contexts. *)
Lemma both_run_alone es s1 s2 ctx ctx1 ctx2 :
  c_pending C1 s1 = false → c_pending C2 s2 = false →
  component (run both es {| component := (s1, s2); context := ctx |})
  = (component (run C1 (lefts es) {| component := s1; context := ctx1 |}),
     component (run C2 (rights es) {| component := s2; context := ctx2 |})).
Proof. intros. rewrite !component_run. by apply both_component_run. Qed.

Lemma lefts_app es es' : lefts (es ++ es') = lefts es ++ lefts es'.
Proof. apply omap_app. Qed.

Lemma rights_app es es' : rights (es ++ es') = rights es ++ rights es'.
Proof. apply omap_app. Qed.

Lemma lefts_inl (es : list Ev1) : lefts (inl <$> es) = es.
Proof. induction es; [done|]. unfold lefts in *. simpl. by f_equal. Qed.

Lemma lefts_inr (es : list Ev2) : lefts (inr <$> es) = [].
Proof. by induction es. Qed.

Lemma rights_inl (es : list Ev1) : rights (inl <$> es) = [].
Proof. by induction es. Qed.

Lemma rights_inr (es : list Ev2) : rights (inr <$> es) = es.
Proof. induction es; [done|]. unfold rights in *. simpl. by f_equal. Qed.

(** An event can be raised in the two together when it can be raised in
    the component it belongs to. *)
Definition either (G1 : Ev1 → St1 → Prop) (G2 : Ev2 → St2 → Prop)
    (e : Ev1 + Ev2) (st : St1 * St2) : Prop :=
  match e with
  | inl e1 => G1 e1 st.1
  | inr e2 => G2 e2 st.2
  end.

#[global] Instance either_dec G1 G2
    `{!∀ e st, Decision (G1 e st), !∀ e st, Decision (G2 e st)} e st :
  Decision (either G1 G2 e st).
Proof. destruct e; simpl; apply _. Defined.

Lemma both_allowed G1 G2 es s1 s2 ctx ctx1 ctx2 :
  c_pending C1 s1 = false → c_pending C2 s2 = false →
  allowed both (either G1 G2) es {| component := (s1, s2); context := ctx |}
  ↔ allowed C1 G1 (lefts es) {| component := s1; context := ctx1 |}
    ∧ allowed C2 G2 (rights es) {| component := s2; context := ctx2 |}.
Proof.
  revert s1 s2 ctx ctx1 ctx2.
  induction es as [|[e1|e2] es IH]; intros s1 s2 ctx ctx1 ctx2 H1 H2;
    [simpl; tauto|..].
  - change (lefts (inl e1 :: es)) with (e1 :: lefts es).
    change (rights (inl e1 :: es)) with (rights es).
    cbn [allowed either component fst]. rewrite both_step_inl by done.
    rewrite (IH _ _ _ (context (step C1 e1 {| component := s1;
                                               context := ctx1 |})) ctx2);
      [|apply (step_quiet C1)|done].
    split; [intros (? & Ha & ?)|intros ((? & Ha) & ?)]; split_and!;
      try done; (eapply allowed_component; [|exact Ha]); simpl;
      by rewrite !component_step.
  - change (lefts (inr e2 :: es)) with (lefts es).
    change (rights (inr e2 :: es)) with (e2 :: rights es).
    cbn [allowed either component snd]. rewrite both_step_inr by done.
    rewrite (IH _ _ _ ctx1 (context (step C2 e2 {| component := s2;
                                                    context := ctx2 |})));
      [|done|apply (step_quiet C2)].
    split; [intros (? & ? & Ha)|intros (? & ? & Ha)]; split_and!;
      try done; (eapply allowed_component; [|exact Ha]); simpl;
      by rewrite !component_step.
Qed.

(** Mounted together and used in any interleaving, each component is in
    the state it would be in had it been mounted alone, on any context,
    and received its own events. *)
Theorem both_alone `{!MountsPending C1, !MountsPending C2} es ctx ctx1 ctx2 :
  component (run both es (mount both ctx))
  = (component (run C1 (lefts es) (mount C1 ctx1)),
     component (run C2 (rights es) (mount C2 ctx2))).
Proof.
  rewrite !component_run. simpl. unfold settleIfPending.
  rewrite (mounts_pending (C := C1)), (mounts_pending (C := C2)).
  apply both_component_run; [apply (settle_quiet (C := C1))|].
  apply (settle_quiet (C := C2)).
Qed.

(** And an interleaving can be raised exactly when each component could
    raise its own events alone. *)
Theorem both_allowed_mount `{!MountsPending C1, !MountsPending C2} G1 G2 es
    ctx ctx1 ctx2 :
  allowed both (either G1 G2) es (mount both ctx)
  ↔ allowed C1 G1 (lefts es) (mount C1 ctx1)
    ∧ allowed C2 G2 (rights es) (mount C2 ctx2).
Proof.
  unfold mount. simpl. unfold settleIfPending.
  rewrite (mounts_pending (C := C1)), (mounts_pending (C := C2)).
  apply both_allowed; [apply (settle_quiet (C := C1))|].
  apply (settle_quiet (C := C2)).
Qed.

(** So a world the two reach together is made of worlds each reaches
    alone: what holds of the states of a component in its reachable
    worlds holds of them among siblings. *)
Theorem both_reachable `{!MountsPending C1, !MountsPending C2} G1 G2
    ctx ctx1 ctx2 w :
  reachable both (either G1 G2) ctx w →
  ∃ w1 w2, reachable C1 G1 ctx1 w1 ∧ reachable C2 G2 ctx2 w2
           ∧ component w = (component w1, component w2).
Proof.
  intros (es & -> & Hes)%reachable_is_allowed.
  apply (both_allowed_mount _ _ _ ctx ctx1 ctx2) in Hes as [H1 H2].
  exists (run C1 (lefts es) (mount C1 ctx1)),
    (run C2 (rights es) (mount C2 ctx2)).
  split_and!; [by apply reachable_run; [constructor|]..|apply both_alone].
Qed.

(** What the effects of both leave alone, the two together leave
    alone. *)
Lemma both_frame_effect (Frame : Ctx → Ctx → Prop) `{!Reflexive Frame} :
  (∀ ctx st, Frame ctx (c_effect C1 ctx st)) →
  (∀ ctx st, Frame ctx (c_effect C2 ctx st)) →
  ∀ ctx st, Frame ctx (c_effect both ctx st).
Proof.
  intros H1 H2 ctx [s1 s2]. simpl.
  destruct (c_pending C2 s2); [done|]. by destruct (c_pending C1 s1).
Qed.

(** *** Both contexts mirror their states

    Each component has its own [Sync] and keeps it; the effects of one
    spare the [Sync] of the other (they write different properties).
    Then the two together keep both, and are a component of which the
    same can be said: the construction nests. *)

(** The effects of [C] spare what [Q] says of the context. *)
Definition Spares {St Ev S : Type} (C : Component Ctx St Ev)
    (Q : Ctx → S → Prop) : Prop :=
  ∀ ctx st s, Q ctx s → Q (c_effect C ctx st) s.

Definition Sync12 {S1 S2 : Type} (Sync1 : Ctx → S1 → Prop)
    (Sync2 : Ctx → S2 → Prop) (ctx : Ctx) (st : S1 * S2) : Prop :=
  Sync1 ctx st.1 ∧ Sync2 ctx st.2.

Lemma both_spares {S : Type} (Q : Ctx → S → Prop) :
  Spares C1 Q → Spares C2 Q → Spares both Q.
Proof.
  intros H1 H2 ctx [s1 s2] s Hs. simpl.
  destruct (c_pending C2 s2); [by apply H2|].
  destruct (c_pending C1 s1); [by apply H1|done].
Qed.

Lemma spares_both {St Ev S1 S2 : Type} (C : Component Ctx St Ev)
    (Q1 : Ctx → S1 → Prop) (Q2 : Ctx → S2 → Prop) :
  Spares C Q1 → Spares C Q2 → Spares C (Sync12 Q1 Q2).
Proof. intros H1 H2 ctx st s [? ?]. split; [by apply H1|by apply H2]. Qed.

Lemma step_spares {St Ev S : Type} (C : Component Ctx St Ev)
    (Q : Ctx → S → Prop) e w s :
  Spares C Q → Q (context w) s → Q (context (step C e w)) s.
Proof.
  intros H1 Hs. unfold step. rewrite commit_context. simpl.
  destruct (c_pending C _); [by apply H1|done].
Qed.

Section sync.
Context (Sync1 : Ctx → St1 → Prop) (Sync2 : Ctx → St2 → Prop).
Context (keeps1 : Keeps C1 Sync1) (keeps2 : Keeps C2 Sync2).
Context (spares12 : Spares C1 Sync2) (spares21 : Spares C2 Sync1).

(** An event belongs to one component, so one effect at most runs, on the
    context value of the moment: nothing is lost. *)
Theorem both_keeps : Keeps both (Sync12 Sync1 Sync2).
Proof.
  intros e [[s1 s2] ctx] (Hq & H1 & H2). simpl in *.
  apply orb_false_elim in Hq as [Hq1 Hq2]. destruct e as [e1|e2].
  - rewrite both_step_inl by done.
    destruct (keeps1 e1 {| component := s1; context := ctx |}) as [Hq1' H1'];
      [done|].
    split; [simpl; by rewrite Hq1', Hq2|]. split; [done|].
    by apply (step_spares C1 Sync2).
  - rewrite both_step_inr by done.
    destruct (keeps2 e2 {| component := s2; context := ctx |}) as [Hq2' H2'];
      [done|].
    split; [simpl; by rewrite Hq1, Hq2'|]. split; [|done].
    by apply (step_spares C2 Sync1).
Qed.

(** At the mount the second effect has the last word: what the first
    component would have written is in the context afterwards only if it
    was there before. *)
Lemma both_mount_synced `{!MountsPending C2} ctx :
  Sync1 ctx (settleIfPending C1 (c_initial C1)) →
  Synced C2 Sync2 (mount C2 ctx) →
  Synced both (Sync12 Sync1 Sync2) (mount both ctx).
Proof.
  intros H1 [_ H2]. split; [apply (settle_quiet (C := both))|].
  rewrite both_mount_context. split; simpl; [by apply spares21|].
  unfold settleIfPending. by rewrite (mounts_pending (C := C2)).
Qed.

Theorem both_run_synced `{!MountsPending C2} ctx es :
  Sync1 ctx (settleIfPending C1 (c_initial C1)) →
  Synced C2 Sync2 (mount C2 ctx) →
  Synced both (Sync12 Sync1 Sync2) (run both es (mount both ctx)).
Proof.
  intros H1 H2. apply keeps_run; [apply both_keeps|].
  by apply both_mount_synced.
Qed.

End sync.
End both.
