(* ===== verification/Uuid.v ===== *)
(** * The identifier generator

    The list forms call [uuid()] where they build a new record, and the
    theorems of the form files take the identifier it returns as a
    parameter of the submit event, assumed fresh.  This file puts the
    generator in place of the assumption.  The library is not among the
    sources; what is modelled is its contract in the specification:
    [next()] gives a string, and never the same string twice in the
    lifetime of the application.

    A [Generator] is the sequence of the identifiers it gives, one per
    call, without repetition and without the empty string (which the forms
    could not tell from "no identifier").  A component says how it uses
    the generator in a [Usage]: which events call [uuid()] in which
    states, what the event is once the call has returned an identifier,
    and which identifiers its state holds; [Draws] is the law that a
    callback adds no identifier but the one it drew, [Appends] the
    stronger one that it adds it at the end of a list whose order it
    keeps.  [closed] is then
    the component together with the generator: its state counts the calls
    made so far, and its events carry no identifier of their own.

    The theorems: every identifier a closed component holds was issued to
    it, so identifiers are distinct and the next one is new
    ([closed_issued], [closed_unique]); a run of the closed component is a
    run of the open one on events that carry fresh identifiers
    ([closed_run], [closed_reachable]), so whatever the form files prove
    of worlds reached with fresh identifiers holds of the closed
    component without that hypothesis.  A component that appends holds
    its identifiers in the order of issue ([closed_in_order]).  Several
    components may share one generator ([usage_both]), and a usage is
    inherited along a morphism of components ([appends_morphism]). *)

From stdpp Require Import base decidable option list strings pretty.
From S2P Require Import Prelude React.

(** ** The generator and its contract *)

Class Generator := {
  (** the identifier the call number [n] returns *)
  uuidAt : nat → string;
  uuidAt_inj :: Inj (=) (=) uuidAt;
  uuidAt_nonblank n : uuidAt n ≠ "";
}.

(** A generator that counts: it shows that the contract can be met, and
    it is the one the examples run with. *)
Definition countAt (n : nat) : string := "id-" +:+ pretty n.

#[global] Instance countAt_inj : Inj (=) (=) countAt.
Proof. intros n m Hnm. unfold countAt in Hnm. simpl in Hnm. by simplify_eq. Qed.

#[export] Instance counter : Generator :=
  {| uuidAt := countAt; uuidAt_nonblank := λ n, ltac:(done) |}.

Section issued.
Context `{!Generator}.

(** The identifiers given by the first [n] calls. *)
Definition issued (n : nat) : list string := uuidAt <$> seq 0 n.

Lemma issued_S n : issued (S n) = issued n ++ [uuidAt n].
Proof. unfold issued. by rewrite seq_S, fmap_app. Qed.

Lemma elem_of_issued i n : i ∈ issued n ↔ ∃ k, k < n ∧ i = uuidAt k.
Proof.
  unfold issued. rewrite list_elem_of_fmap. setoid_rewrite elem_of_seq.
  split; intros (k & ? & ?); exists k; split; try done; lia.
Qed.

Lemma NoDup_issued n : NoDup (issued n).
Proof. apply (NoDup_fmap_2 _), NoDup_seq. Qed.

Lemma next_not_issued n : uuidAt n ∉ issued n.
Proof. intros (k & Hk & ->%(inj _))%elem_of_issued. lia. Qed.

Lemma blank_not_issued n : "" ∉ issued n.
Proof.
  intros (k & _ & Hk)%elem_of_issued. by apply (uuidAt_nonblank k).
Qed.

Lemma issued_next_Permutation n : uuidAt n :: issued n ≡ₚ issued (S n).
Proof. rewrite issued_S. apply Permutation_cons_append. Qed.

End issued.

(** ** How a component uses the generator *)

Section usage.
Context {Ctx St Ev : Type}.

Record Usage := {
  (** the event, once [uuid()] has returned [i] for it *)
  u_stamp : string → Ev → Ev;
  (** the callback of the event calls [uuid()] in this state *)
  u_calls : Ev → St → bool;
  (** the identifiers the state holds *)
  u_owned : St → list string;
}.

Context (C : Component Ctx St Ev) (U : Usage).
Implicit Types (e : Ev) (es : list Ev) (st : St) (i : string) (n : nat).

(** The component starts without identifiers, the effect touches none,
    and a callback adds the identifier it drew at most. *)
Class Draws : Prop := {
  owned_initial : u_owned U (c_initial C) = [];
  owned_settle st : u_owned U (c_settle C st) = u_owned U st;
  owned_handle e i st :
    u_owned U (c_handle C (u_stamp U i e) st)
    ⊆+ (if u_calls U e st then i :: u_owned U st else u_owned U st);
}.

(** Stronger, and true of a component that keeps its identifiers in a
    list to which it appends: what a callback leaves is in the order it
    found, the identifier it drew last. *)
Class Appends : Prop := {
  appends_initial : u_owned U (c_initial C) = [];
  appends_settle st : u_owned U (c_settle C st) = u_owned U st;
  appends_handle e i st :
    u_owned U (c_handle C (u_stamp U i e) st)
    `sublist_of`
    (if u_calls U e st then u_owned U st ++ [i] else u_owned U st);
}.

#[global] Instance appends_draws `{!Appends} : Draws.
Proof.
  split; [apply appends_initial|apply appends_settle|]. intros e i st.
  etrans; [apply sublist_submseteq, appends_handle|].
  destruct (u_calls U e st); [|done]. by rewrite <- Permutation_cons_append.
Qed.

Context `{!Generator}.

(** The component with its generator: the state counts the calls. *)
Definition closed : Component Ctx (St * nat) Ev :=
  {| c_initial := (c_initial C, 0);
     c_handle := λ e s,
       (c_handle C (u_stamp U (uuidAt s.2) e) s.1,
        if u_calls U e s.1 then S s.2 else s.2);
     c_pending := λ s, c_pending C s.1;
     c_settle := λ s, (c_settle C s.1, s.2);
     c_effect := λ ctx s, c_effect C ctx s.1 |}.

#[global] Instance closed_lawful `{!Lawful C} : Lawful closed.
Proof. intros [st n]. apply (settle_quiet (C := C)). Qed.

#[global] Instance closed_mounts_pending `{!MountsPending C} :
  MountsPending closed.
Proof. apply (mounts_pending (C := C)). Qed.

Abbreviation opened := (onWorld (fst : St * nat → St)).

(** The guard of an event once it carries the next identifier. *)
Definition drawing (G : Ev → St → Prop) (e : Ev) (s : St * nat) : Prop :=
  G (u_stamp U (uuidAt s.2) e) s.1.

#[global] Instance drawing_dec G `{!∀ e st, Decision (G e st)} e s :
  Decision (drawing G e s).
Proof. unfold drawing. apply _. Defined.

(** The events of a run as the open component receives them. *)
Fixpoint stamped es (w : World Ctx (St * nat)) : list Ev :=
  match es with
  | [] => []
  | e :: es =>
      u_stamp U (uuidAt (component w).2) e :: stamped es (step closed e w)
  end.

(** Every identifier of the state was issued. *)
Definition Issued (s : St * nat) : Prop := u_owned U s.1 ⊆+ issued s.2.

(** ** The closed component runs as the open one *)

Lemma closed_mount ctx : opened (mount closed ctx) = mount C ctx.
Proof. reflexivity. Qed.

Lemma closed_step e w :
  opened (step closed e w)
  = step C (u_stamp U (uuidAt (component w).2) e) (opened w).
Proof.
  unfold step, commit, onWorld. simpl.
  by destruct (c_pending C (c_handle C _ (component w).1)).
Qed.

Theorem closed_run es w :
  opened (run closed es w) = run C (stamped es w) (opened w).
Proof.
  revert w. induction es as [|e es IH]; intros w; [done|].
  cbn [stamped]. by rewrite !run_cons, IH, closed_step.
Qed.

Lemma closed_component_run es w :
  (component (run closed es w)).1 = component (run C (stamped es w) (opened w)).
Proof. by rewrite <- closed_run. Qed.

Lemma closed_allowed G es w :
  allowed closed (drawing G) es w ↔ allowed C G (stamped es w) (opened w).
Proof.
  revert w. induction es as [|e es IH]; intros w; [done|].
  cbn [stamped allowed]. by rewrite IH, closed_step.
Qed.

Lemma stamped_app es es' w :
  stamped (es ++ es') w = stamped es w ++ stamped es' (run closed es w).
Proof.
  revert w. induction es as [|e es IH]; intros w; [done|].
  simpl. by rewrite IH.
Qed.

(** The calls made so far, after one more event. *)
Lemma closed_step_count e w :
  (component (step closed e w)).2
  = if u_calls U e (component w).1 then S (component w).2
    else (component w).2.
Proof.
  rewrite component_step. unfold settled. simpl.
  by destruct (c_pending C _).
Qed.

(** Events that never call the generator leave it where it was. *)
Lemma stamped_calls_none es w :
  Forall (λ e, ∀ st, u_calls U e st = false) es →
  stamped es w = u_stamp U (uuidAt (component w).2) <$> es
  ∧ (component (run closed es w)).2 = (component w).2.
Proof.
  revert w. induction es as [|e es IH]; intros w Hes; [done|].
  apply Forall_cons in Hes as [He Hes].
  destruct (IH (step closed e w) Hes) as [IH1 IH2].
  rewrite run_cons, IH2. cbn [stamped]. rewrite IH1, fmap_cons.
  by rewrite closed_step_count, He.
Qed.

(** ** Every identifier held was issued *)

Section draws.
Context `{!Draws}.

Lemma owned_settleIfPending st :
  u_owned U (settleIfPending C st) = u_owned U st.
Proof.
  unfold settleIfPending. destruct (c_pending C st); [|done].
  apply (owned_settle st).
Qed.

Lemma Issued_mount ctx : Issued (component (mount closed ctx)).
Proof.
  unfold Issued. simpl. rewrite owned_settle, owned_initial.
  apply submseteq_nil_l.
Qed.

Lemma Issued_handle e s : Issued s → Issued (c_handle closed e s).
Proof.
  unfold Issued. destruct s as [st n]. simpl. intros Hs.
  etrans; [apply owned_handle|]. destruct (u_calls U e st); [|done].
  rewrite <- issued_next_Permutation. by apply submseteq_skip.
Qed.

Lemma Issued_run es w :
  Issued (component w) → Issued (component (run closed es w)).
Proof.
  apply (run_component_invariant closed Issued); [|apply Issued_handle].
  intros s. unfold Issued. simpl. by rewrite owned_settle.
Qed.

Theorem closed_issued ctx es :
  Issued (component (run closed es (mount closed ctx))).
Proof. apply Issued_run, Issued_mount. Qed.

(** So the identifiers held are distinct, none is blank, and the next
    one the generator gives is held by no record. *)
Lemma Issued_unique s :
  Issued s →
  NoDup (u_owned U s.1) ∧ ("" ∉ u_owned U s.1)
  ∧ uuidAt s.2 ∉ u_owned U s.1.
Proof.
  intros Hs. split_and!.
  - eapply NoDup_submseteq_inv; [done|apply NoDup_issued].
  - intros Hin. eapply blank_not_issued, elem_of_submseteq; done.
  - intros Hin. eapply next_not_issued, elem_of_submseteq; done.
Qed.

Theorem closed_unique ctx es :
  let s := component (run closed es (mount closed ctx)) in
  NoDup (u_owned U s.1) ∧ ("" ∉ u_owned U s.1)
  ∧ uuidAt s.2 ∉ u_owned U s.1.
Proof. apply Issued_unique, closed_issued. Qed.

(** ** The hypothesis of fresh identifiers, discharged

    [F] is what a component asks of the identifier an event carries; it
    holds of an identifier that is not blank and that the state does not
    hold.  Then whatever the closed component reaches under a guard [G]
    on its events, the open component reaches under [F] and [G]. *)
Section fresh.
Context (F G : Ev → St → Prop).
Context (fresh_stamp : ∀ e i st,
  i ≠ "" → i ∉ u_owned U st → F (u_stamp U i e) st).

Lemma Issued_fresh e s : Issued s → F (u_stamp U (uuidAt s.2) e) s.1.
Proof.
  intros (_ & _ & Hnew)%Issued_unique.
  by apply fresh_stamp; [apply uuidAt_nonblank|].
Qed.

Lemma reachable_Issued ctx w :
  reachable closed (drawing G) ctx w → Issued (component w).
Proof.
  intros (es & ->)%reachable_is_run. apply closed_issued.
Qed.

Theorem closed_reachable ctx w :
  reachable closed (drawing G) ctx w →
  reachable C (λ e st, F e st ∧ G e st) ctx (opened w).
Proof.
  induction 1 as [|e w Hw IH Hg]; [constructor|].
  rewrite closed_step. constructor; [done|]. split; [|done].
  by apply Issued_fresh, (reachable_Issued ctx).
Qed.

End fresh.
End draws.

(** ** The identifiers held are in the order of issue

    A component that appends holds its identifiers in the order in which
    the generator gave them: a record stands before another exactly when
    it was created earlier. *)
Section appends.
Context `{!Appends}.

Definition InOrder (s : St * nat) : Prop :=
  u_owned U s.1 `sublist_of` issued s.2.

Lemma InOrder_Issued s : InOrder s → Issued s.
Proof. apply sublist_submseteq. Qed.

Lemma InOrder_mount ctx : InOrder (component (mount closed ctx)).
Proof.
  unfold InOrder. simpl. rewrite appends_settle, appends_initial.
  apply sublist_nil_l.
Qed.

Lemma InOrder_handle e s : InOrder s → InOrder (c_handle closed e s).
Proof.
  unfold InOrder. destruct s as [st n]. simpl. intros Hs.
  etrans; [apply appends_handle|]. destruct (u_calls U e st); [|done].
  rewrite issued_S. by apply sublist_app.
Qed.

Lemma InOrder_run es w :
  InOrder (component w) → InOrder (component (run closed es w)).
Proof.
  apply (run_component_invariant closed InOrder); [|apply InOrder_handle].
  intros s. unfold InOrder. simpl. by rewrite appends_settle.
Qed.

Theorem closed_in_order ctx es :
  InOrder (component (run closed es (mount closed ctx))).
Proof. apply InOrder_run, InOrder_mount. Qed.

Lemma reachable_InOrder G ctx w :
  reachable closed (drawing G) ctx w → InOrder (component w).
Proof. intros (es & ->)%reachable_is_run. apply closed_in_order. Qed.

End appends.
End usage.

Arguments Usage : clear implicits.

(** ** Components that share the generator

    Sibling components draw from the one generator of the application:
    the identifiers of the two together are those of each, and a
    component that never calls [uuid()] holds none. *)
Section shared.
Context {Ctx St1 Ev1 St2 Ev2 : Type}.
Context (C1 : Component Ctx St1 Ev1) (C2 : Component Ctx St2 Ev2).
Context (U1 : Usage St1 Ev1) (U2 : Usage St2 Ev2).

Definition usage_both : Usage (St1 * St2) (Ev1 + Ev2) :=
  {| u_stamp := λ i e,
       match e with
       | inl e1 => inl (u_stamp U1 i e1)
       | inr e2 => inr (u_stamp U2 i e2)
       end;
     u_calls := λ e st,
       match e with
       | inl e1 => u_calls U1 e1 st.1
       | inr e2 => u_calls U2 e2 st.2
       end;
     u_owned := λ st, u_owned U1 st.1 ++ u_owned U2 st.2 |}.

#[global] Instance both_draws `{!Draws C1 U1, !Draws C2 U2} :
  Draws (both C1 C2) usage_both.
Proof.
  split.
  - simpl. by rewrite !owned_initial.
  - intros [s1 s2]. simpl.
    by rewrite (owned_settleIfPending C1 U1), (owned_settleIfPending C2 U2).
  - intros [e1|e2] i [s1 s2]; simpl.
    + pose proof (owned_handle C1 U1 e1 i s1) as Hh.
      destruct (u_calls U1 e1 s1); by apply (submseteq_app _ _ _ _ Hh).
    + pose proof (owned_handle C2 U2 e2 i s2) as Hh.
      destruct (u_calls U2 e2 s2); [|by apply submseteq_app].
      rewrite (Permutation_middle (u_owned U1 s1)).
      by apply submseteq_app.
Qed.

(** The two together do not append: their identifiers interleave.  But
    each keeps its own in the order of issue, whatever the other draws in
    between.  [usage_left] and [usage_right] are the usage of the two with
    the identifiers of one of them in view. *)
Definition usage_left : Usage (St1 * St2) (Ev1 + Ev2) :=
  {| u_stamp := u_stamp usage_both;
     u_calls := u_calls usage_both;
     u_owned := λ st, u_owned U1 st.1 |}.

Definition usage_right : Usage (St1 * St2) (Ev1 + Ev2) :=
  {| u_stamp := u_stamp usage_both;
     u_calls := u_calls usage_both;
     u_owned := λ st, u_owned U2 st.2 |}.

#[global] Instance left_appends `{!Appends C1 U1} :
  Appends (both C1 C2) usage_left.
Proof.
  split; [apply (appends_initial C1 U1)|..].
  - intros [s1 s2]. apply (owned_settleIfPending C1 U1).
  - intros [e1|e2] i [s1 s2]; simpl; [apply (appends_handle C1 U1)|].
    destruct (u_calls U2 e2 s2); [apply sublist_inserts_r|]; done.
Qed.

#[global] Instance right_appends `{!Appends C2 U2} :
  Appends (both C1 C2) usage_right.
Proof.
  split; [apply (appends_initial C2 U2)|..].
  - intros [s1 s2]. apply (owned_settleIfPending C2 U2).
  - intros [e1|e2] i [s1 s2]; simpl; [|apply (appends_handle C2 U2)].
    destruct (u_calls U1 e1 s1); [apply sublist_inserts_r|]; done.
Qed.

Theorem both_in_order `{!Generator, !Appends C1 U1, !Appends C2 U2}
    (G : Ev1 + Ev2 → St1 * St2 → Prop) ctx w :
  reachable (closed (both C1 C2) usage_both) (drawing usage_both G) ctx w →
  u_owned U1 (component w).1.1 `sublist_of` issued (component w).2
  ∧ u_owned U2 (component w).1.2 `sublist_of` issued (component w).2.
Proof.
  intros Hr. split.
  - apply (reachable_InOrder (both C1 C2) usage_left G ctx w Hr).
  - apply (reachable_InOrder (both C1 C2) usage_right G ctx w Hr).
Qed.

End shared.

Section unused.
Context {Ctx St Ev : Type} (C : Component Ctx St Ev).

Definition usage_none : Usage St Ev :=
  {| u_stamp := λ _ e, e; u_calls := λ _ _, false; u_owned := λ _, [] |}.

#[global] Instance none_draws : Draws C usage_none.
Proof. by split. Qed.

End unused.

(** ** Usage along a morphism

    A component that is another one in disguise uses the generator as the
    other does. *)
Section inherited.
Context {Ctx St1 Ev1 St2 Ev2 : Type}.
Context (C1 : Component Ctx St1 Ev1) (C2 : Component Ctx St2 Ev2).
Context (f : St1 → St2) (g : Ev1 → Ev2) (M : Morphism C1 C2 f g).
Context (U1 : Usage St1 Ev1) (U2 : Usage St2 Ev2).
Context (stamp_g : ∀ i e, g (u_stamp U1 i e) = u_stamp U2 i (g e)).
Context (calls_f : ∀ e st, u_calls U1 e st = u_calls U2 (g e) (f st)).
Context (owned_f : ∀ st, u_owned U1 st = u_owned U2 (f st)).

Lemma appends_morphism : Appends C2 U2 → Appends C1 U1.
Proof.
  intros H2. split.
  - rewrite owned_f, (m_initial _ _ _ _ M). apply (appends_initial C2 U2).
  - intros st. rewrite !owned_f, (m_settle _ _ _ _ M).
    apply (appends_settle C2 U2).
  - intros e i st.
    rewrite !owned_f, (m_handle _ _ _ _ M), stamp_g, calls_f.
    apply (appends_handle C2 U2).
Qed.

End inherited.
