(* ===== verification/ResumeContext.v ===== *)
(** * The shared resume context

    The forms import the record types [Certification] and [WorkExperience]
    and the hook [useResume] from [@/contexts/Resume], which is not among
    the sources.  The record types are given the fields the forms read and
    write.  The context value is a JavaScript object, a finite map from
    property names to values; the forms build its next value with a spread
    and pass it to [updateState], which replaces the context value.
    [sameOutside keys] relates two context values that differ at most on
    [keys]: the frame a component that owns those keys must keep. *)

From stdpp Require Import base decidable option list strings gmap.
From S2P Require Import Prelude Collection.

Module Certification.
Record t := mk {
  id : string;
  title : string;
  issuer : string;
  date : string;
  summary : string;
}.
#[global] Instance eq_dec : EqDecision t.
Proof. solve_decision. Defined.
#[global] Instance has_id : HasId t := id.
End Certification.

Module WorkExperience.
Record t := mk {
  id : string;
  company : string;
  position : string;
  website : string;
  startDate : string;
  endDate : string;
  summary : string;
}.
#[global] Instance eq_dec : EqDecision t.
Proof. solve_decision. Defined.
#[global] Instance has_id : HasId t := id.
End WorkExperience.

(** The values the forms store under a property of the context. *)
Inductive Value :=
  | VString (s : string)
  | VCertifications (items : list Certification.t)
  | VWorkExperience (items : list WorkExperience.t).

#[global] Instance Value_eq_dec : EqDecision Value.
Proof. solve_decision. Defined.

(** [updateState(next)]: the provider's state becomes [next]. *)
Definition updateState (next current : gmap string Value) : gmap string Value :=
  next.

(** Two context values that agree on every property outside [keys]: what a
    component that owns [keys] leaves to the others. *)
Definition sameOutside (keys : list string) (ctx ctx' : gmap string Value) :
    Prop :=
  ∀ k, k ∉ keys → ctx' !! k = ctx !! k.

#[global] Instance sameOutside_equivalence keys :
  Equivalence (sameOutside keys).
Proof.
  split.
  - by intros ctx k Hk.
  - intros ctx ctx' H k Hk. symmetry. by apply H.
  - intros c1 c2 c3 H12 H23 k Hk. by rewrite H23, H12.
Qed.

Lemma sameOutside_insert keys k v (ctx : gmap string Value) :
  k ∈ keys → sameOutside keys ctx (<[k := v]> ctx).
Proof.
  intros Hin k' Hk'. apply lookup_insert_ne. by intros ->.
Qed.

Lemma sameOutside_mono keys keys' (ctx ctx' : gmap string Value) :
  keys ⊆ keys' → sameOutside keys ctx ctx' → sameOutside keys' ctx ctx'.
Proof. intros Hsub H k Hk. apply H. intros Hin. by apply Hk, Hsub. Qed.

(** [sameOutside] is coarser than equality, and reading a property outside
    the keys respects it. *)
#[global] Instance lookup_sameOutside keys k :
  k ∉ keys →
  Proper (sameOutside keys ==> (=)) (λ ctx : gmap string Value, ctx !! k).
Proof. intros Hk ctx ctx' H. symmetry. by apply H. Qed.

Lemma updateState_last_wins (a b current : gmap string Value) :
  updateState b (updateState a current) = updateState b current.
Proof. reflexivity. Qed.

Lemma updateState_idemp (a current : gmap string Value) :
  updateState a (updateState a current) = updateState a current.
Proof. reflexivity. Qed.
