(* ===== verification/Controller.v ===== *)
(** * The collection edit controller of the specification

    The specification describes every list form as one abstract machine,
    the CollectionEditController: an ordered collection of records, an
    edit session that is closed, open to create, or open to edit a target
    id, and five operations (startAdd, startEdit, submit, cancel, remove)
    that push a full snapshot of the collection to a sink after each
    successful mutation.  This file is that machine, written from the
    specification's sections 3 and 4 and not from the sources: a record is
    a mapping from field names to strings with an id; the validator is a
    parameter that answers the errors of a candidate, none meaning
    accepted; the identifier generator is the [next] argument of submit.
    Where the specification leaves a choice it is taken as the
    specification recommends: a submission whose edit target is gone falls
    back to create mode.

    A step answers what the outside sees of it: nothing, the snapshot
    pushed to the sink, or the errors surfaced.  The laws at the end are
    the machine's own; that the forms implement it, and where they do not,
    is the matter of [ListForm.v] and [Refinement.v]. *)

From stdpp Require Import base decidable option list strings gmap.
From S2P Require Import Prelude Collection.

Module Controller.

(** ** Data model (section 3) *)

Record Entry := {
  id : string;
  fields : gmap string string;
}.

#[global] Instance Entry_eq_dec : EqDecision Entry.
Proof. solve_decision. Defined.

#[global] Instance Entry_has_id : HasId Entry := id.

Inductive EditSession :=
  | Closed
  | OpenCreate
  | OpenEdit (targetId : string).

#[global] Instance EditSession_eq_dec : EqDecision EditSession.
Proof. solve_decision. Defined.

Record t := {
  collection : list Entry;
  session : EditSession;
  sink : list Entry;
}.

Inductive Op :=
  | StartAdd
  | StartEdit (id : string)
  | Submit (next : string) (candidate : gmap string string)
  | Cancel
  | Remove (id : string).

Inductive Output :=
  | Quiet
  | Replaced (snapshot : list Entry)
  | Rejected (errors : gmap string string).

#[global] Instance Output_eq_dec : EqDecision Output.
Proof. solve_decision. Defined.

(** ** Operations (section 4.1) *)

Section operations.
Context (validator : gmap string string → gmap string string).
Implicit Types (c : t) (o : Op) (i next : string)
  (candidate : gmap string string).

Definition initial : t :=
  {| collection := []; session := Closed; sink := [] |}.

Definition setSession (s : EditSession) c : t :=
  {| collection := collection c; session := s; sink := sink c |}.

(** [SharedStateSink.replace(snapshot)] after the collection became
    [snapshot]. *)
Definition replace (snapshot : list Entry) c : t :=
  {| collection := snapshot; session := session c; sink := snapshot |}.

Definition startAdd c : t := setSession OpenCreate c.

Definition startEdit i c : t :=
  if decide (i ∈ ids (collection c)) then setSession (OpenEdit i) c else c.

Definition cancel c : t := setSession Closed c.

Definition remove i c : t := replace (removeById i (collection c)) c.

Definition appended next candidate c : list Entry :=
  collection c ++ [{| id := next; fields := candidate |}].

Definition replaced i candidate c : list Entry :=
  updateById i (λ _, {| id := i; fields := candidate |}) (collection c).

Definition submit next candidate c : t * Output :=
  if decide (validator candidate = ∅) then
    match session c with
    | Closed => (c, Quiet)
    | OpenCreate =>
        let snapshot := appended next candidate c in
        (replace snapshot (setSession Closed c), Replaced snapshot)
    | OpenEdit targetId =>
        let snapshot :=
          if decide (targetId ∈ ids (collection c))
          then replaced targetId candidate c
          else appended next candidate c in
        (replace snapshot (setSession Closed c), Replaced snapshot)
    end
  else (c, Rejected (validator candidate)).

Definition step o c : t * Output :=
  match o with
  | StartAdd => (startAdd c, Quiet)
  | StartEdit i => (startEdit i c, Quiet)
  | Submit next candidate => submit next candidate c
  | Cancel => (cancel c, Quiet)
  | Remove i => (remove i c, Replaced (removeById i (collection c)))
  end.

(** A step of the user interface that is no operation of the controller
    (typing into the edit surface) leaves it as it is. *)
Definition stepOpt (o : option Op) c : t * Output :=
  match o with
  | Some o => step o c
  | None => (c, Quiet)
  end.

Fixpoint run (os : list (option Op)) c : t * list Output :=
  match os with
  | [] => (c, [])
  | o :: os =>
      let (c', out) := stepOpt o c in
      let (c'', outs) := run os c' in
      (c'', out :: outs)
  end.

(** ** Invariants of the data model *)

(** The sink holds the collection. *)
Definition InSync c : Prop := sink c = collection c.

(** An edit session targets a record that is present (section 3). *)
Definition TargetPresent c : Prop :=
  ∀ i, session c = OpenEdit i → i ∈ ids (collection c).

(** The identifier a submission would use is new and not blank. *)
Definition freshFor o c : Prop :=
  match o with
  | Submit next _ => next ≠ "" ∧ next ∉ ids (collection c)
  | _ => True
  end.

(** ** Laws *)

(** Every step that changes the collection pushes it, whole, to the sink,
    and says so; every other step leaves both alone. *)
Lemma ctl_step_output o c :
  match (step o c).2 with
  | Replaced snapshot =>
      collection (step o c).1 = snapshot ∧ sink (step o c).1 = snapshot
  | _ =>
      collection (step o c).1 = collection c ∧ sink (step o c).1 = sink c
  end.
Proof.
  destruct o as [|i|next candidate| |i]; simpl; try done.
  - unfold startEdit. by case_decide.
  - unfold submit. case_decide; [|done]. by destruct (session c).
Qed.

Lemma ctl_step_InSync o c : InSync c → InSync (step o c).1.
Proof.
  unfold InSync. intros Hc. pose proof (ctl_step_output o c) as Ho.
  destruct (step o c).2; destruct Ho; congruence.
Qed.

Lemma ctl_replaced_ids i candidate c :
  ids (replaced i candidate c) = ids (collection c).
Proof.
  unfold replaced, ids, updateById. rewrite <- list_fmap_compose.
  apply list_fmap_ext. intros _ x _. simpl. by case_decide.
Qed.

Lemma ctl_replaced_wf_ids i candidate c :
  wf_ids (collection c) → wf_ids (replaced i candidate c).
Proof.
  intros [Hnd Hne]. split; [by rewrite ctl_replaced_ids|].
  unfold replaced, updateById. apply Forall_fmap.
  eapply Forall_impl; [done|]. intros x Hx. simpl. by case_decide; subst.
Qed.

(** With fresh identifiers, ids stay distinct and non-blank. *)
Lemma ctl_step_wf_ids o c :
  freshFor o c → wf_ids (collection c) → wf_ids (collection (step o c).1).
Proof.
  intros Hf Hwf. destruct o as [|i|next candidate| |i]; simpl; try done.
  - unfold startEdit. by case_decide.
  - destruct Hf as [Hne Hnew]. unfold submit. case_decide; [|done].
    destruct (session c) as [| |target]; simpl; [done| |case_decide].
    + by apply wf_ids_snoc.
    + by apply ctl_replaced_wf_ids.
    + by apply wf_ids_snoc.
  - by apply wf_ids_removeById.
Qed.

(** The session's target stays present under every operation but the
    removal of the target itself. *)
Lemma ctl_step_TargetPresent o c :
  (∀ i, o = Remove i → session c ≠ OpenEdit i) →
  TargetPresent c → TargetPresent (step o c).1.
Proof.
  unfold TargetPresent. intros Ho Hc j.
  destruct o as [|i|next candidate| |i]; simpl; try done.
  - unfold startEdit. case_decide; simpl; [|by auto]. by intros [= <-].
  - unfold submit. case_decide; [|by auto].
    destruct (session c) eqn:E; simpl; [by rewrite E|done..].
  - intros Hj. apply removeById_other; [|by auto].
    intros ->. by apply (Ho i).
Qed.

(** Removing the record that is being edited leaves a session without a
    target: the operations do not keep the invariant of section 3 by
    themselves. *)
Lemma ctl_remove_loses_target i c :
  session c = OpenEdit i → ¬ TargetPresent (step (Remove i) c).1.
Proof.
  intros Hs Ht. specialize (Ht i Hs). simpl in Ht.
  by apply (removeById_not_elem (A := Entry)) in Ht.
Qed.

Lemma ctl_run_cons (o : option Op) (os : list (option Op)) c :
  run (o :: os) c
  = ((run os (stepOpt o c).1).1, (stepOpt o c).2 :: (run os (stepOpt o c).1).2).
Proof. simpl. destruct (stepOpt o c), (run os _). reflexivity. Qed.

End operations.
End Controller.
