(* ===== verification/ListForm.v ===== *)
(** * The list form pattern, and its refinement of the controller

    The two list forms of the sources are one program written twice: the
    same hooks, the same handlers, the same effect, over different
    records.  This file is that program once, over any record type of
    class [HasId], with what differs between the forms gathered in a
    [Pattern]: the schema, how a record is built from an id and the
    submitted values, which fields [onEdit] fills, and the property of the
    context the effect writes.  [Refinement.v] proves each form equal to
    its instance, handler by handler; what is proved here of the pattern
    then holds of both.

    Proved here are the life of a record (what creates it, what destroys
    it, what replaces it), the order of the records, which no run
    changes, and the refinement: between two events the pattern is in a state [abs]
    of the specification's controller ([Controller.v]), each event is an
    operation of the controller, and as long as the events are [good] the
    two move together and show the same outputs.  [good] is where the
    code and the specification part ways: it rules out an add while an
    edit target is set, and a submission whose target was deleted. *)

From stdpp Require Import base decidable option list strings gmap.
From S2P Require Import Prelude Collection Yup HookForm React Uuid.
From S2P Require Import ResumeContext.
From S2P Require Import Controller.

#[local] Open Scope js_scope.

Module ListForm.

Inductive Event :=
  | OnAdd
  | OnEdit (id : string)
  | OnDelete (id : string)
  | OnCloseModal
  | OnChange (name value : string)
  | OnSubmit (uuid : string).

#[global] Instance Event_eq_dec : EqDecision Event.
Proof. solve_decision. Defined.

Section pattern.
Context {R : Type} `{HasId R}.

Record Pattern := {
  p_schema : ObjectSchema;
  p_build : string → gmap string string → R;
  p_fill : R → UseForm → UseForm;
  p_key : string;
  p_inject : list R → Value;
}.

Record State := {
  form : UseForm;
  showModal : bool;
  currentId : string;
  items : list R;
  effectPending : bool;
}.

Context (P : Pattern).
Implicit Types (st : State) (e : Event) (es : list Event).

Definition initialState : State :=
  {| form := useForm; showModal := false; currentId := "";
     items := []; effectPending := true |}.

Definition setForm (f : UseForm) st : State :=
  {| form := f; showModal := showModal st; currentId := currentId st;
     items := items st; effectPending := effectPending st |}.

Definition setShowModal (b : bool) st : State :=
  {| form := form st; showModal := b; currentId := currentId st;
     items := items st; effectPending := effectPending st |}.

Definition setCurrentId (i : string) st : State :=
  {| form := form st; showModal := showModal st; currentId := i;
     items := items st; effectPending := effectPending st |}.

Definition setItems (l : list R) st : State :=
  {| form := form st; showModal := showModal st; currentId := currentId st;
     items := l; effectPending := true |}.

Definition reset st : State := setForm (HookForm.reset (form st)) st.

Definition useEffect (contextState : gmap string Value) st :
    gmap string Value :=
  updateState (<[p_key P := p_inject P (items st)]> contextState) contextState.

Definition submit (uuid : string) (data : gmap string string) st : State :=
  (if truthy (currentId st) then
     let updated :=
       (λ r, if decide (id_of r = currentId st)
             then p_build P (id_of r) data else r) <$> items st in
     st |> setItems updated |> setCurrentId ""
   else
     st |> setItems (items st ++ [p_build P uuid data]))
  |> reset |> setShowModal false.

Definition edit (id : string) st : State :=
  match List.find (λ r, id_of r === id) (items st) with
  | Some r =>
      st |> setCurrentId (id_of r) |> setForm (p_fill P r (form st))
         |> setShowModal true
  | None => st
  end.

Definition close st : State := st |> setShowModal false |> reset.

Definition delete (id : string) st : State :=
  st |> setItems (filter (λ r, id_of r ≠ id) (items st)).

Definition formSubmit (uuid : string) st : State :=
  match handleSubmit (yupResolver (p_schema P)) (form st) with
  | Valid data f => submit uuid data (setForm f st)
  | Invalid f => setForm f st
  end.

Definition dispatch e st : State :=
  match e with
  | OnAdd => setShowModal true st
  | OnEdit id => edit id st
  | OnDelete id => delete id st
  | OnCloseModal => close st
  | OnChange name value => setForm (onChange name value (form st)) st
  | OnSubmit uuid => formSubmit uuid st
  end.

Definition effectRan st : State :=
  {| form := form st; showModal := showModal st; currentId := currentId st;
     items := items st; effectPending := false |}.

Definition component : Component (gmap string Value) State Event :=
  {| c_initial := initialState;
     c_handle := dispatch;
     c_pending := effectPending;
     c_settle := effectRan;
     c_effect := useEffect |}.

(** ** The call of the identifier generator

    [uuid()] is called where the new record is built: by a submission
    that passed validation while no current id is set.  [stamp i e] is
    the event [e] when that call returns [i]. *)
Definition calls e st : bool :=
  match e with
  | OnSubmit _ =>
      match handleSubmit (yupResolver (p_schema P)) (form st) with
      | Valid _ _ => negb (truthy (currentId st))
      | Invalid _ => false
      end
  | _ => false
  end.

Definition stamp (i : string) e : Event :=
  match e with
  | OnSubmit _ => OnSubmit i
  | _ => e
  end.

Definition usage : Usage State Event :=
  {| u_stamp := stamp; u_calls := calls; u_owned := λ st, ids (items st) |}.

#[global] Instance component_lawful : Lawful component.
Proof. intros st. reflexivity. Qed.

#[global] Instance component_mounts_pending : MountsPending component.
Proof. reflexivity. Qed.

(** The effect leaves the array as the callback made it. *)
Lemma items_step e (w : World (gmap string Value) State) :
  items (React.component (step component e w))
  = items (dispatch e (React.component w)).
Proof.
  rewrite component_step. unfold settled. simpl.
  by destruct (effectPending _).
Qed.

(** ** Laws of the handlers *)

Lemma formSubmit_valid (uuid : string) st :
  validate (p_schema P) (values (form st)) = ∅ →
  formSubmit uuid st
  = submit uuid (values (form st))
      (setForm {| values := values (form st); errors := ∅ |} st).
Proof.
  intros Hv. unfold formSubmit.
  destruct (handleSubmit _ _) as [data f|f] eqn:E.
  - by apply handleSubmit_Valid in E as (_ & -> & ->).
  - by apply handleSubmit_Invalid in E as [Hne _].
Qed.

Lemma formSubmit_invalid (uuid : string) st :
  validate (p_schema P) (values (form st)) ≠ ∅ →
  formSubmit uuid st
  = setForm {| values := values (form st);
               errors := validate (p_schema P) (values (form st)) |} st.
Proof.
  intros Hv. unfold formSubmit.
  destruct (handleSubmit _ _) as [data f|f] eqn:E.
  - by apply handleSubmit_Valid in E as (He & _).
  - by apply handleSubmit_Invalid in E as [_ ->].
Qed.

Lemma edit_found (id : string) st r :
  findById id (items st) = Some r →
  edit id st
  = {| form := p_fill P r (form st); showModal := true; currentId := id;
       items := items st; effectPending := effectPending st |}.
Proof.
  intros Hf. unfold edit. change (find _ ?l) with (findById id l).
  rewrite Hf. apply findById_Some in Hf as [_ <-]. reflexivity.
Qed.

Lemma edit_absent (id : string) st : id ∉ ids (items st) → edit id st = st.
Proof.
  intros Hid. unfold edit. change (find _ ?l) with (findById id l).
  by rewrite (proj2 (findById_None id _) Hid).
Qed.

(** ** The order of the records

    The array is an ordered sequence: a record keeps its place among the
    others from its creation to its deletion.  What an event does to the
    ids is nothing, one more at the end, or one removed; so the ids that
    were there before a run and are still there after it are in the order
    they were in, as long as the generator does not give one of them
    again. *)
Section order.
Context (build_id : ∀ i values, id_of (p_build P i values) = i).

(** The identifiers the generator gave during a run. *)
Definition uuids es : list string :=
  omap (λ e, match e with OnSubmit uuid => Some uuid | _ => None end) es.

Lemma ids_submit (uuid : string) (data : gmap string string) st :
  ids (items (submit uuid data st))
  = if truthy (currentId st) then ids (items st)
    else ids (items st) ++ [uuid].
Proof.
  unfold submit. destruct (truthy _); simpl.
  - apply (ids_updateById (currentId st) (λ r, p_build P (id_of r) data)).
    intros r. apply build_id.
  - by rewrite ids_snoc, build_id.
Qed.

Lemma ids_dispatch e st :
  ids (items (dispatch e st))
  = match e with
    | OnSubmit uuid =>
        if calls e st then ids (items st) ++ [uuid] else ids (items st)
    | OnDelete id => filter (λ j, j ≠ id) (ids (items st))
    | _ => ids (items st)
    end.
Proof.
  destruct e as [|id|id| | |uuid]; simpl; try done.
  - unfold edit. by destruct (find _ _).
  - apply ids_removeById.
  - unfold formSubmit. destruct (handleSubmit _ _) as [data f|f]; [|done].
    rewrite ids_submit. simpl. by destruct (truthy _).
Qed.

Lemma kept_dispatch (old : list string) e st :
  Forall (.∉ old) (uuids [e]) →
  filter (.∈ old) (ids (items (dispatch e st)))
  `sublist_of` filter (.∈ old) (ids (items st)).
Proof.
  intros Hnew. rewrite ids_dispatch.
  destruct e as [|id|id| | |uuid]; try done.
  - apply filter_filter_sublist.
  - destruct (calls _ _); [|done]. apply Forall_cons in Hnew as [Hnew _].
    by rewrite filter_snoc_False.
Qed.

(** The pattern adds no identifier but the one it drew, and adds it at
    the end. *)
Lemma pattern_appends : Appends component usage.
Proof.
  split; [done..|]. intros e i st. simpl. rewrite ids_dispatch.
  destruct e as [|id|id| | |uuid]; simpl; try done.
  apply sublist_filter.
Qed.

Lemma uuids_cons e es : uuids (e :: es) = uuids [e] ++ uuids es.
Proof. by destruct e. Qed.

(** A run keeps the order of the records that outlive it. *)
Theorem order_stable es (w : World (gmap string Value) State)
    (old : list string) :
  Forall (.∉ old) (uuids es) →
  filter (.∈ old) (ids (items (React.component (run component es w))))
  `sublist_of` filter (.∈ old) (ids (items (React.component w))).
Proof.
  revert w. induction es as [|e es IH]; intros w Hnew; [done|].
  rewrite uuids_cons in Hnew. apply Forall_app in Hnew as [He Hes].
  rewrite run_cons. etrans; [by apply IH|].
  rewrite items_step. by apply kept_dispatch.
Qed.

(** *** The life of a record

    Section 3 of the specification: a record is created by a submission
    only, under the identifier the generator gave; it is destroyed by the
    deletion of its identifier only; it is replaced by a submission
    only; and as long as nothing is deleted the records keep their
    places, new ones going to the end. *)

(** The identifiers the user asked to delete during a run. *)
Definition deletions es : list string :=
  omap (λ e, match e with OnDelete id => Some id | _ => None end) es.

Lemma deletions_cons e es :
  deletions (e :: es) = deletions [e] ++ deletions es.
Proof. by destruct e. Qed.

Lemma created_dispatch e st :
  ids (items (dispatch e st)) ⊆ ids (items st) ++ uuids [e].
Proof.
  rewrite ids_dispatch. destruct e as [|id|id| | |uuid]; simpl;
    rewrite ?app_nil_r; try done.
  - apply list_subseteq_filter.
  - destruct (match handleSubmit _ _ with Valid _ _ => _ | Invalid _ => _ end);
      [done|]. by apply list_subseteq_app_l.
Qed.

Lemma destroyed_dispatch e st i :
  i ∈ ids (items st) → i ∉ ids (items (dispatch e st)) → i ∈ deletions [e].
Proof.
  rewrite ids_dispatch. destruct e as [|id|id| | |uuid]; simpl; try done.
  - rewrite list_elem_of_filter, list_elem_of_singleton.
    intros Hi Hout. destruct (decide (i = id)); tauto.
  - destruct (match handleSubmit _ _ with Valid _ _ => _ | Invalid _ => _ end);
      [|done]. rewrite elem_of_app. tauto.
Qed.

Lemma untouched_dispatch e st :
  uuids [e] = [] → items (dispatch e st) `sublist_of` items st.
Proof.
  destruct e as [|id|id| | |uuid]; simpl; try done; intros _.
  - unfold edit. by destruct (find _ _).
  - apply sublist_filter.
Qed.

Lemma places_dispatch e st :
  deletions [e] = [] → ids (items st) `prefix_of` ids (items (dispatch e st)).
Proof.
  rewrite ids_dispatch. destruct e as [|id|id| | |uuid]; simpl; try done.
  intros _.
  destruct (match handleSubmit _ _ with Valid _ _ => _ | Invalid _ => _ end);
    [apply prefix_app_r|]; done.
Qed.

Section life.
Implicit Types (w : World (gmap string Value) State).

Lemma created es w :
  ids (items (React.component (run component es w)))
  ⊆ ids (items (React.component w)) ++ uuids es.
Proof.
  revert w. induction es as [|e es IH]; intros w; [by rewrite app_nil_r|].
  rewrite run_cons, uuids_cons, app_assoc. etrans; [apply IH|].
  rewrite items_step.
  intros i [?%created_dispatch|?]%elem_of_app; apply elem_of_app; auto.
Qed.

Lemma destroyed es w i :
  i ∈ ids (items (React.component w)) →
  i ∉ ids (items (React.component (run component es w))) →
  i ∈ deletions es.
Proof.
  revert w. induction es as [|e es IH]; intros w Hi Hout; [done|].
  rewrite deletions_cons, elem_of_app. rewrite run_cons in Hout.
  destruct (decide (i ∈ ids (items (React.component (step component e w)))))
    as [Hin|Hin]; [right; by apply (IH (step component e w))|left].
  rewrite items_step in Hin. by apply (destroyed_dispatch e (React.component w)).
Qed.

Lemma untouched es w :
  uuids es = [] →
  items (React.component (run component es w))
  `sublist_of` items (React.component w).
Proof.
  revert w. induction es as [|e es IH]; intros w; [done|].
  rewrite uuids_cons. intros [He Hes]%app_eq_nil.
  rewrite run_cons. etrans; [by apply IH|].
  rewrite items_step. by apply untouched_dispatch.
Qed.

Lemma places es w :
  deletions es = [] →
  ids (items (React.component w))
  `prefix_of` ids (items (React.component (run component es w))).
Proof.
  revert w. induction es as [|e es IH]; intros w; [done|].
  rewrite deletions_cons. intros [He Hes]%app_eq_nil.
  rewrite run_cons. etrans; [|by apply IH].
  rewrite items_step. by apply places_dispatch.
Qed.

End life.

End order.

(** ** The controller state a form is in *)

Section refinement.
Context (entry : R → Controller.Entry).
Context (candidate : gmap string string → gmap string string).

(** What connects the records of a form to the records of the
    specification: the id is the id, a record built from submitted values
    is the candidate under that id, and the validator judges the
    candidate as the schema judges the values. *)
Class Abstraction : Prop := {
  entry_id : ∀ r, Controller.id (entry r) = id_of r;
  entry_build : ∀ i values,
    entry (p_build P i values)
    = {| Controller.id := i; Controller.fields := candidate values |};
  candidate_valid : ∀ values,
    validate (p_schema P) (candidate values) = validate (p_schema P) values;
}.

Definition validator : gmap string string → gmap string string :=
  validate (p_schema P).

Definition sessionOf st : Controller.EditSession :=
  if showModal st
  then ternary (currentId st) (Controller.OpenEdit (currentId st))
         Controller.OpenCreate
  else Controller.Closed.

Definition abs st : Controller.t :=
  {| Controller.collection := entry <$> items st;
     Controller.session := sessionOf st;
     Controller.sink := entry <$> items st |}.

(** The operation an event is; typing is none. *)
Definition op e st : option Controller.Op :=
  match e with
  | OnAdd => Some Controller.StartAdd
  | OnEdit id => Some (Controller.StartEdit id)
  | OnDelete id => Some (Controller.Remove id)
  | OnCloseModal => Some Controller.Cancel
  | OnChange _ _ => None
  | OnSubmit uuid =>
      Some (Controller.Submit uuid (candidate (values (form st))))
  end.

(** What the outside sees of an event raised in [st]: the array written
    to the context if the effect runs, else the errors a submission
    left. *)
Definition observe e st : Controller.Output :=
  if effectPending (dispatch e st)
  then Controller.Replaced (entry <$> items (dispatch e st))
  else match e with
       | OnSubmit _ =>
           if decide (errors (form (dispatch e st)) = ∅) then Controller.Quiet
           else Controller.Rejected (errors (form (dispatch e st)))
       | _ => Controller.Quiet
       end.

(** The events on which the code does what the specification says. *)
Definition good e st : Prop :=
  match e with
  | OnAdd => currentId st = ""
  | OnSubmit uuid =>
      showModal st = true ∧ uuid ≠ ""
      ∧ (currentId st = "" ∨ currentId st ∈ ids (items st))
  | _ => True
  end.

#[global] Instance good_dec e st : Decision (good e st).
Proof. destruct e; simpl; apply _. Defined.

(** Between two events: the effect has run and no record has the blank
    id. *)
Definition Settled st : Prop :=
  effectPending st = false ∧ "" ∉ ids (items st).

Fixpoint ops es (w : World (gmap string Value) State) :
    list (option Controller.Op) :=
  match es with
  | [] => []
  | e :: es => op e (React.component w) :: ops es (step component e w)
  end.

Fixpoint observations es (w : World (gmap string Value) State) :
    list Controller.Output :=
  match es with
  | [] => []
  | e :: es =>
      observe e (React.component w) :: observations es (step component e w)
  end.

(** ** Laws of the abstraction *)

Lemma abs_effectRan st : abs (effectRan st) = abs st.
Proof. reflexivity. Qed.

Lemma abs_step e (w : World (gmap string Value) State) :
  abs (React.component (step component e w))
  = abs (dispatch e (React.component w)).
Proof.
  rewrite component_step. unfold settled. simpl.
  by destruct (effectPending _).
Qed.

Context `{!Abstraction}.

Lemma ids_entry (l : list R) : ids (entry <$> l) = ids l.
Proof. apply ids_fmap, entry_id. Qed.

Lemma entry_updated (cur : string) (data : gmap string string) (l : list R) :
  entry <$> ((λ r, if decide (id_of r = cur)
                   then p_build P (id_of r) data else r) <$> l)
  = updateById cur
      (λ _, {| Controller.id := cur; Controller.fields := candidate data |})
      (entry <$> l).
Proof.
  apply (updateById_fmap entry entry_id cur (λ r, p_build P (id_of r) data)).
  intros r Hr. by rewrite entry_build, Hr.
Qed.

(** *** One event, one operation *)

Lemma refines_edit (id : string) st :
  "" ∉ ids (items st) →
  abs (edit id st) = Controller.startEdit id (abs st).
Proof.
  intros Hne. unfold Controller.startEdit. simpl. rewrite ids_entry.
  case_decide as Hid.
  - apply findById_is_Some in Hid as [r Hr]. rewrite (edit_found id st r Hr).
    unfold abs, sessionOf. simpl. rewrite ternary_truthy; [done|].
    intros ->. apply Hne. apply findById_is_Some. eauto.
  - by rewrite edit_absent.
Qed.

Lemma refines_delete (id : string) st :
  abs (delete id st) = Controller.remove id (abs st).
Proof.
  unfold abs, Controller.remove, Controller.replace. simpl.
  by rewrite <- (removeById_fmap entry entry_id).
Qed.

Lemma refines_submit_valid (uuid : string) st :
  showModal st = true →
  currentId st = "" ∨ currentId st ∈ ids (items st) →
  validate (p_schema P) (values (form st)) = ∅ →
  Controller.submit validator uuid (candidate (values (form st))) (abs st)
  = (abs (formSubmit uuid st),
     Controller.Replaced (entry <$> items (formSubmit uuid st))).
Proof.
  intros Hshow Hcur Hv. rewrite (formSubmit_valid uuid st Hv).
  unfold Controller.submit, validator.
  rewrite candidate_valid, decide_True by done.
  unfold abs at 1, sessionOf. simpl. rewrite Hshow. unfold submit, ternary.
  simpl. case_truthy; simpl.
  - destruct Hcur as [?|Hin]; [done|].
    rewrite ids_entry, decide_True by done.
    unfold Controller.replace, Controller.replaced, abs. simpl.
    by rewrite entry_updated.
  - unfold Controller.replace, Controller.appended, abs. simpl.
    rewrite fmap_app. simpl. by rewrite entry_build.
Qed.

Lemma refines_submit_invalid (uuid : string) st :
  validate (p_schema P) (values (form st)) ≠ ∅ →
  Controller.submit validator uuid (candidate (values (form st))) (abs st)
  = (abs (formSubmit uuid st),
     Controller.Rejected (errors (form (formSubmit uuid st)))).
Proof.
  intros Hv. rewrite (formSubmit_invalid uuid st Hv).
  unfold Controller.submit, validator.
  by rewrite candidate_valid, decide_False.
Qed.

(** An event that is [good], raised between two events, is the
    controller's operation: same next state, same output. *)
Theorem refines_dispatch e st :
  Settled st → good e st →
  Controller.stepOpt validator (op e st) (abs st)
  = (abs (dispatch e st), observe e st).
Proof.
  intros [Hq Hne] Hg. unfold observe.
  destruct e as [|id|id| |name value|uuid]; simpl in *.
  - rewrite Hq. unfold abs, sessionOf, Controller.startAdd. simpl.
    by rewrite Hg.
  - rewrite refines_edit by done. f_equal.
    unfold edit. destruct (find _ _); simpl; by rewrite Hq.
  - rewrite refines_delete. do 2 f_equal.
    symmetry. apply (removeById_fmap entry entry_id).
  - by rewrite Hq.
  - by rewrite Hq.
  - destruct Hg as (Hshow & _ & Hcur).
    destruct (decide (validate (p_schema P) (values (form st)) = ∅)) as [Hv|Hv].
    + rewrite refines_submit_valid by done.
      rewrite (formSubmit_valid uuid st Hv). unfold submit.
      by destruct (truthy _).
    + rewrite refines_submit_invalid by done.
      rewrite (formSubmit_invalid uuid st Hv). simpl.
      by rewrite Hq, decide_False.
Qed.

(** *** Settled states *)

Lemma blank_free_dispatch e st :
  good e st → "" ∉ ids (items st) → "" ∉ ids (items (dispatch e st)).
Proof.
  intros Hg Hne.
  destruct e as [|id|id| |name value|uuid]; simpl in *; try done.
  - unfold edit. by destruct (find _ _).
  - intros (r & Hr & Hid)%elem_of_ids. apply Hne, elem_of_ids.
    exists r. by apply (elem_of_removeById id (items st) r) in Hr as [? _].
  - destruct Hg as (_ & Huuid & _).
    destruct (decide (validate (p_schema P) (values (form st)) = ∅)) as [Hv|Hv].
    + rewrite (formSubmit_valid uuid st Hv). unfold submit.
      destruct (truthy _); simpl.
      * change (fmap _ (items st))
          with (updateById (currentId st)
                  (λ r, p_build P (id_of r) (values (form st))) (items st)).
        rewrite ids_updateById; [done|]. intros r.
        by rewrite <- !(entry_id), entry_build.
      * rewrite ids_snoc, elem_of_app, list_elem_of_singleton.
        rewrite <- (entry_id (p_build _ _ _)), entry_build. simpl.
        intros [?|?]; [done|]. by apply Huuid.
    + by rewrite (formSubmit_invalid uuid st Hv).
Qed.

Lemma Settled_mount ctx : Settled (React.component (mount component ctx)).
Proof. split; [done|]. simpl. apply not_elem_of_nil. Qed.

Lemma Settled_step e (w : World (gmap string Value) State) :
  good e (React.component w) → Settled (React.component w) →
  Settled (React.component (step component e w)).
Proof.
  intros Hg [Hq Hne]. split; [apply (step_quiet component)|].
  rewrite component_step. unfold settled. simpl.
  destruct (effectPending (dispatch e _)); by apply blank_free_dispatch.
Qed.

(** *** Runs *)

(** As long as the events are [good], a run of the form is a run of the
    controller: the same collection, session and sink at the end, and the
    same outputs on the way. *)
Theorem refines_run es (w : World (gmap string Value) State) :
  Settled (React.component w) → allowed component good es w →
  Controller.run validator (ops es w) (abs (React.component w))
  = (abs (React.component (run component es w)), observations es w).
Proof.
  revert w. induction es as [|e es IH]; intros w Hw Hes; [done|].
  destruct Hes as [He Hes].
  rewrite React.run_cons. cbn [ops observations].
  rewrite Controller.ctl_run_cons, (refines_dispatch e _ Hw He). simpl.
  rewrite <- abs_step, IH; [done| |done]. by apply Settled_step.
Qed.

(** *** The events that are not good

    [good] cannot be weakened: on an add with an edit target set the
    controller opens a creation and the form an edit; on a valid
    submission whose target is gone the controller appends a record and
    the form stores nothing. *)

Lemma departs_add st :
  currentId st ≠ "" →
  Controller.session (Controller.stepOpt validator (op OnAdd st) (abs st)).1
    = Controller.OpenCreate
  ∧ Controller.session (abs (dispatch OnAdd st))
    = Controller.OpenEdit (currentId st).
Proof.
  intros Hcur. split; [done|]. simpl. unfold sessionOf. simpl.
  by rewrite ternary_truthy.
Qed.

Lemma departs_stale_submit (uuid : string) st :
  showModal st = true → currentId st ≠ "" →
  currentId st ∉ ids (items st) →
  validate (p_schema P) (values (form st)) = ∅ →
  Controller.collection
    (Controller.stepOpt validator (op (OnSubmit uuid) st) (abs st)).1
  = Controller.collection (abs (dispatch (OnSubmit uuid) st))
    ++ [{| Controller.id := uuid;
           Controller.fields := candidate (values (form st)) |}].
Proof.
  intros Hshow Hcur Hstale Hv. simpl.
  rewrite (formSubmit_valid uuid st Hv).
  unfold Controller.submit, validator.
  rewrite candidate_valid, decide_True by done.
  unfold abs at 1, sessionOf. simpl.
  rewrite Hshow, ternary_truthy, ids_entry, decide_False by done.
  unfold submit. rewrite truthy_ne by done. simpl.
  unfold Controller.appended. simpl. do 2 f_equal.
  symmetry. apply (updateById_absent (currentId st)
                     (λ r, p_build P (id_of r) (values (form st)))), Hstale.
Qed.

Lemma abs_mount ctx :
  abs (React.component (mount component ctx)) = Controller.initial.
Proof. reflexivity. Qed.

End refinement.
End pattern.

Arguments Pattern R : clear implicits.
Arguments State R : clear implicits.

End ListForm.
