(* ===== verification/CertificationsForm.v ===== *)
(** * The certifications form

    [src/components/FormSidebar/CertificationsForm/index.tsx], component
    [AwardsForm]: the schema, the component's state, its handlers with the
    names they have in the source, the effect that mirrors the array into
    the resume context, the JSX as data, and the component as React sees
    it ([self], whose steps are those of [React.v]).  Then the vocabulary
    of the statements, then the theorems: the behaviour of every handler on
    every branch, the invariants of the reachable worlds and the
    behaviours in which the component departs from the edit controller it
    is meant to be. *)

From stdpp Require Import base decidable option list strings gmap.
From S2P Require Import Prelude Collection Yup HookForm Intl Components.
From S2P Require Import React ResumeContext.

#[local] Open Scope js_scope.

Module AwardsForm.

(** ** Schema and data (lines 16-27) *)

Definition schema : ObjectSchema :=
  [("title", required "Campo obrigatório" yup_string);
   ("issuer", required "Campo obrigatório" yup_string);
   ("date", required "Campo obrigatório" yup_string)].

Record FormData := {
  title : string;
  issuer : string;
  date : string;
  summary : string;
}.

(** ** State (lines 29-41)

    One field per hook: the react-hook-form state of [useForm], then the
    three [useState] cells.  [effectPending] is ghost: it is set by every
    [setCertifications], which always passes a new array, and cleared when
    the effect of lines 50-55 has run. *)

Record State := {
  form : UseForm;
  showModal : bool;
  currentId : string;
  certifications : list Certification.t;
  effectPending : bool;
}.

Definition initialState : State :=
  {| form := useForm; showModal := false; currentId := "";
     certifications := []; effectPending := true |}.

Definition setForm (f : UseForm) (st : State) : State :=
  {| form := f; showModal := showModal st; currentId := currentId st;
     certifications := certifications st; effectPending := effectPending st |}.

Definition setShowModal (b : bool) (st : State) : State :=
  {| form := form st; showModal := b; currentId := currentId st;
     certifications := certifications st; effectPending := effectPending st |}.

Definition setCurrentId (i : string) (st : State) : State :=
  {| form := form st; showModal := showModal st; currentId := i;
     certifications := certifications st; effectPending := effectPending st |}.

Definition setCertifications (l : list Certification.t) (st : State) : State :=
  {| form := form st; showModal := showModal st; currentId := currentId st;
     certifications := l; effectPending := true |}.

(** [reset] and [setValue] of the component's form (lines 34-35). *)
Definition reset (st : State) : State := setForm (HookForm.reset (form st)) st.

Definition setValue (name value : string) (st : State) : State :=
  setForm (HookForm.setValue name value (form st)) st.

(** ** The effect (lines 50-55) *)

Definition useEffect (contextState : gmap string Value) (st : State) :
    gmap string Value :=
  updateState
    (<["certifications" := VCertifications (certifications st)]> contextState)
    contextState.

(** ** Handlers (lines 57-93) *)

(** [{ id: i, ...data }] *)
Definition withId (i : string) (data : FormData) : Certification.t :=
  {| Certification.id := i;
     Certification.title := title data;
     Certification.issuer := issuer data;
     Certification.date := date data;
     Certification.summary := summary data |}.

(** [uuid] is what [uuid()] returns if the handler calls it. *)
Definition handleFormSubmit (uuid : string) (data : FormData) (st : State) :
    State :=
  (if truthy (currentId st) then
     let updatedItems :=
       (λ award,
          if decide (Certification.id award = currentId st)
          then withId (Certification.id award) data
          else award) <$> certifications st in
     st |> setCertifications updatedItems |> setCurrentId ""
   else
     st |> setCertifications (certifications st ++ [withId uuid data]))
  |> reset |> setShowModal false.

Definition onEdit (id : string) (st : State) : State :=
  match List.find (λ sn, Certification.id sn === id) (certifications st) with
  | Some award =>
      st |> setCurrentId (Certification.id award)
         |> setValue "title" (Certification.title award)
         |> setValue "issuer" (Certification.issuer award)
         |> setValue "date" (Certification.date award)
         |> setValue "summary" (Certification.summary award)
         |> setShowModal true
  | None => st
  end.

Definition closeModal (st : State) : State :=
  st |> setShowModal false |> reset.

Definition handleDelete (id : string) (st : State) : State :=
  st |> setCertifications
          (filter (λ project, Certification.id project ≠ id)
           (certifications st)).

(** ** The form element (lines 107-136)

    The data react-hook-form hands to [handleFormSubmit] holds the four
    registered fields; [formOnSubmit] is the form's [onSubmit], that is
    [handleSubmit(handleFormSubmit)]. *)

Definition toFormData (values : gmap string string) : FormData :=
  {| title := field values "title";
     issuer := field values "issuer";
     date := field values "date";
     summary := field values "summary" |}.

Definition formOnSubmit (uuid : string) (st : State) : State :=
  match handleSubmit (yupResolver schema) (form st) with
  | Valid data f => handleFormSubmit uuid (toFormData data) (setForm f st)
  | Invalid f => setForm f st
  end.

(** ** Events (the callbacks of lines 95-147) *)

Inductive Event :=
  | OnAdd
  | OnEdit (id : string)
  | OnDelete (id : string)
  | OnCloseModal
  | OnChange (name value : string)
  | OnSubmit (uuid : string).

#[global] Instance Event_eq_dec : EqDecision Event.
Proof. solve_decision. Defined.

Definition dispatch (e : Event) (st : State) : State :=
  match e with
  | OnAdd => setShowModal true st
  | OnEdit id => onEdit id st
  | OnDelete id => handleDelete id st
  | OnCloseModal => closeModal st
  | OnChange name value => setForm (onChange name value (form st)) st
  | OnSubmit uuid => formOnSubmit uuid st
  end.

(** ** The call of [uuid()] (lines 58-68)

    The identifier of a new record is asked of the generator in the
    branch of [handleFormSubmit] without a current id, which a submission
    reaches when it passed validation.  [calls e st] says that the
    callback of [e] makes the call in [st]; [stamp i e] is the event whose
    call, if made, returns [i]. *)

Definition calls (e : Event) (st : State) : bool :=
  match e with
  | OnSubmit _ =>
      match handleSubmit (yupResolver schema) (form st) with
      | Valid _ _ => negb (truthy (currentId st))
      | Invalid _ => false
      end
  | _ => false
  end.

Definition stamp (i : string) (e : Event) : Event :=
  match e with
  | OnSubmit _ => OnSubmit i
  | _ => e
  end.

(** ** Render (lines 42-48 and 95-149) *)



Definition renderModal (st : State) : Modal.Props Event :=
  {| Modal.show := showModal st;
     Modal.onCloseModal := OnCloseModal;
     Modal.onSubmit := OnSubmit;
     Modal.header := [FormattedMessage "global.certifications"];
     Modal.content :=
       [ {| Input.element := "Input"; Input.type := "text";
            Input.label := formatMessage "sidebar.form.certifications.title";
            Input.name := "title"; Input.value := None;
            Input.error := errorMessage (form st) "title";
            Input.onChange := OnChange "title" |};
         {| Input.element := "Input"; Input.type := "text";
            Input.label := formatMessage "sidebar.form.certifications.issuer";
            Input.name := "issuer"; Input.value := None;
            Input.error := errorMessage (form st) "issuer";
            Input.onChange := OnChange "issuer" |};
         {| Input.element := "Input"; Input.type := "date";
            Input.label := formatMessage "sidebar.form.certifications.date";
            Input.name := "date"; Input.value := None;
            Input.error := errorMessage (form st) "date";
            Input.onChange := OnChange "date" |};
         {| Input.element := "Textarea"; Input.type := "text";
            Input.label := formatMessage "sidebar.form.certifications.summary";
            Input.name := "summary"; Input.value := None;
            Input.error := None;
            Input.onChange := OnChange "summary" |} ];
     Modal.actions :=
       [ {| Button.type := "button"; Button.onClick := Some OnCloseModal;
            Button.children := FormattedMessage "global.close" |};
         {| Button.type := "submit"; Button.onClick := None;
            Button.children :=
              FormattedMessage
                (ternary (currentId st) "global.update" "global.add") |} ] |}.


(** ** The component (lines 29-55)

    What React needs of the component: its first state, its callbacks,
    and its one effect with the test and the reset of [effectPending]. *)

Definition effectRan (st : State) : State :=
  {| form := form st; showModal := showModal st; currentId := currentId st;
     certifications := certifications st; effectPending := false |}.

Definition self : Component (gmap string Value) State Event :=
  {| c_initial := initialState;
     c_handle := dispatch;
     c_pending := effectPending;
     c_settle := effectRan;
     c_effect := useEffect |}.

#[global] Instance self_lawful : Lawful self.
Proof. intros st. reflexivity. Qed.

#[global] Instance self_mounts_pending : MountsPending self.
Proof. reflexivity. Qed.

(** * Vocabulary of the statements *)

Abbreviation World := (React.World (gmap string Value) State).

(** The data a record was built from. *)
Definition dataOf (award : Certification.t) : FormData :=
  {| title := Certification.title award;
     issuer := Certification.issuer award;
     date := Certification.date award;
     summary := Certification.summary award |}.

(** Every required field holds something. *)
Definition Complete (values : gmap string string) : Prop :=
  Forall (λ name, field values name ≠ "") ["title"; "issuer"; "date"].

#[global] Instance Complete_dec values : Decision (Complete values).
Proof. unfold Complete. apply _. Defined.

(** A stored record that satisfies the schema. *)
Definition ValidRecord (award : Certification.t) : Prop :=
  Certification.title award ≠ "" ∧ Certification.issuer award ≠ ""
  ∧ Certification.date award ≠ "".

#[global] Instance ValidRecord_dec award : Decision (ValidRecord award).
Proof. unfold ValidRecord. apply _. Defined.

Definition WellFormed (l : list Certification.t) : Prop :=
  wf_ids l ∧ Forall ValidRecord l.

(** The events whose handler calls [setCertifications]. *)
Definition mutates (e : Event) (st : State) : bool :=
  match e with
  | OnDelete _ => true
  | OnSubmit _ => bool_decide (Complete (values (form st)))
  | _ => false
  end.

(** The contract of the identifier generator, as a condition on the
    submit event: the identifier [uuid()] would return is non-empty and
    carried by no record. *)
Definition fresh (e : Event) (st : State) : Prop :=
  match e with
  | OnSubmit uuid => uuid ≠ "" ∧ uuid ∉ ids (certifications st)
  | _ => True
  end.

#[global] Instance fresh_dec e st : Decision (fresh e st).
Proof. destruct e; apply _. Defined.

(** The events the rendered tree can raise: the list is always there;
    the inputs, the close button and the form are inside the modal. *)
Definition offered (e : Event) (st : State) : Prop :=
  match e with
  | OnAdd | OnEdit _ | OnDelete _ => True
  | OnCloseModal | OnSubmit _ => Modal.show (renderModal st) = true
  | OnChange name _ =>
      Modal.show (renderModal st) = true
      ∧ name ∈ Input.name <$> Modal.content (renderModal st)
  end.

#[global] Instance offered_dec e st : Decision (offered e st).
Proof. destruct e; simpl; apply _. Defined.

(** What the effect maintains: the context holds the array. *)
Definition Mirrors (ctx : gmap string Value) (st : State) : Prop :=
  ctx !! "certifications" = Some (VCertifications (certifications st)).

(** A closed modal has a blank form. *)
Definition ClosedBlank (st : State) : Prop :=
  showModal st = false → form st = useForm.

(** The label of the submit button. *)
Definition submitLabel (st : State) : option Message :=
  Button.children <$> last (Modal.actions (renderModal st)).

(** How many records an event can add to the array, and how many it can
    remove from an array with distinct ids. *)
Definition grows (e : Event) : nat :=
  match e with OnSubmit _ => 1 | _ => 0 end.

Definition shrinks (e : Event) : nat :=
  match e with OnDelete _ => 1 | _ => 0 end.

(** ** Concrete inputs used by the witnesses *)

Definition awsCert : FormData :=
  {| title := "AWS Cert"; issuer := "Amazon"; date := "2024-01-01";
     summary := "" |}.

Definition awsCertPro : FormData :=
  {| title := "AWS Cert Pro"; issuer := "Amazon"; date := "2024-01-01";
     summary := "" |}.

(** One record of id ["X"], modal closed. *)
Definition oneRecord : State :=
  {| form := useForm; showModal := false; currentId := "";
     certifications := [withId "X" awsCert]; effectPending := false |}.

(** The same while the record is being edited. *)
Definition editingX : State :=
  {| form := useForm; showModal := true; currentId := "X";
     certifications := [withId "X" awsCert]; effectPending := false |}.

(** The modal open on a new record with only the title typed. *)
Definition titleOnly : State :=
  setForm (onChange "title" "AWS Cert" useForm)
    (setShowModal true initialState).

(** Typing the four fields. *)
Definition typed (data : FormData) : list Event :=
  [OnChange "title" (title data); OnChange "issuer" (issuer data);
   OnChange "date" (date data); OnChange "summary" (summary data)].

(** Opening the modal, typing a record and submitting it. *)
Definition addRecord (uuid : string) (data : FormData) : list Event :=
  [OnAdd] ++ typed data ++ [OnSubmit uuid].

(** * Theorems *)

(** ** The replacement record and the data of the form *)

Lemma withId_id (i : string) (data : FormData) :
  Certification.id (withId i data) = i.
Proof. reflexivity. Qed.

Lemma withId_keeps_id (data : FormData) :
  KeepsId (λ award : Certification.t, withId (id_of award) data).
Proof. intros award. reflexivity. Qed.

Lemma withId_dataOf (award : Certification.t) :
  withId (Certification.id award) (dataOf award) = award.
Proof. by destruct award. Qed.

Lemma dataOf_withId (i : string) (data : FormData) :
  dataOf (withId i data) = data.
Proof. by destruct data. Qed.

(** ** Submission of valid data (lines 57-72) *)

(** C1. Without a current id, [handleFormSubmit] appends exactly one
    record, built from the data and the fresh identifier, at the end of
    the array; the array grows by one, the modal closes, the form is
    reset and the effect is scheduled. *)
Theorem cert_submit_create_appends (uuid : string) (data : FormData)
    (st : State) :
  currentId st = "" →
  certifications (handleFormSubmit uuid data st)
    = certifications st ++ [withId uuid data]
  ∧ length (certifications (handleFormSubmit uuid data st))
    = S (length (certifications st))
  ∧ showModal (handleFormSubmit uuid data st) = false
  ∧ currentId (handleFormSubmit uuid data st) = ""
  ∧ form (handleFormSubmit uuid data st) = useForm
  ∧ effectPending (handleFormSubmit uuid data st) = true.
Proof.
  intros Hid. unfold handleFormSubmit. rewrite Hid. simpl.
  rewrite length_app. simpl. split_and!; [done|lia|done..].
Qed.

Lemma cert_submit_create_appends_witness :
  certifications (handleFormSubmit "X" awsCert initialState)
    = [withId "X" awsCert].
Proof.
  exact (proj1 (cert_submit_create_appends "X" awsCert initialState eq_refl)).
Defined.

(** C2. With a current id that names the record at position [k] of an
    array with distinct ids, [handleFormSubmit] replaces that record in
    place by the data under the same id: every other position, the length
    and the sequence of ids are unchanged; the current id is cleared, the
    modal closes and the form is reset. *)
Theorem cert_submit_edit_in_place (uuid : string) (data : FormData)
    (st : State) (k : nat) (award : Certification.t) :
  NoDup (ids (certifications st)) →
  currentId st ≠ "" →
  certifications st !! k = Some award →
  Certification.id award = currentId st →
  certifications (handleFormSubmit uuid data st)
    = <[k := withId (currentId st) data]> (certifications st)
  ∧ ids (certifications (handleFormSubmit uuid data st))
    = ids (certifications st)
  ∧ length (certifications (handleFormSubmit uuid data st))
    = length (certifications st)
  ∧ currentId (handleFormSubmit uuid data st) = ""
  ∧ showModal (handleFormSubmit uuid data st) = false
  ∧ form (handleFormSubmit uuid data st) = useForm.
Proof.
  intros Hnd Hcur Hk Hid. unfold handleFormSubmit.
  rewrite (truthy_ne _ Hcur). simpl.
  change (fmap _ (certifications st)) with
    (updateById (currentId st) (λ a, withId (id_of a) data)
     (certifications st)).
  rewrite ids_updateById by apply withId_keeps_id.
  rewrite length_updateById. split_and!; try done.
  rewrite (updateById_insert _ _ _ k award Hnd Hk Hid). simpl.
  by rewrite <- Hid.
Qed.

Lemma cert_submit_edit_in_place_witness :
  certifications (handleFormSubmit "Y" awsCertPro editingX)
    = [withId "X" awsCertPro].
Proof.
  apply (cert_submit_edit_in_place "Y" awsCertPro editingX 0
           (withId "X" awsCert)); [by_compute|done..].
Defined.

(** ** Deletion (lines 91-93) *)

(** C3. [handleDelete] removes the records of the given id and nothing
    else, keeps the others in their order, and is idempotent: deleting the
    same id again leaves the state as the first deletion left it. *)
Theorem cert_delete_idempotent (id : string) (st : State) :
  handleDelete id (handleDelete id st) = handleDelete id st
  ∧ (id ∉ ids (certifications (handleDelete id st)))
  ∧ (∀ award, award ∈ certifications (handleDelete id st)
       ↔ award ∈ certifications st ∧ Certification.id award ≠ id)
  ∧ certifications (handleDelete id st) `sublist_of` certifications st.
Proof.
  split_and!.
  - unfold handleDelete, setCertifications. simpl. f_equal.
    apply (removeById_idemp (A := Certification.t)).
  - apply (removeById_not_elem (A := Certification.t)).
  - intros award. apply (elem_of_removeById (A := Certification.t)).
  - apply (removeById_sublist (A := Certification.t)).
Qed.

(** ** Editing (lines 74-84) *)

(** C4. [onEdit] on an id that no record carries is a no-op: the state,
    modal included, is the state before. *)
Theorem cert_onEdit_absent_noop (id : string) (st : State) :
  id ∉ ids (certifications st) → onEdit id st = st.
Proof.
  intros Hid. unfold onEdit.
  change (find _ ?l) with (findById id l).
  by rewrite (proj2 (findById_None id _) Hid).
Qed.

Lemma cert_onEdit_absent_noop_witness : onEdit "Z" oneRecord = oneRecord.
Proof.
  apply cert_onEdit_absent_noop. by_compute.
Defined.

(** C5. [onEdit] on the id of the record at position [k] of an array with
    distinct ids makes that id current, opens the modal and fills the four
    fields with the record's values, so that the data the form would
    submit is the record's own; the array and the errors are untouched. *)
Theorem cert_onEdit_populates (st : State) (k : nat)
    (award : Certification.t) :
  NoDup (ids (certifications st)) →
  certifications st !! k = Some award →
  currentId (onEdit (Certification.id award) st) = Certification.id award
  ∧ showModal (onEdit (Certification.id award) st) = true
  ∧ toFormData (values (form (onEdit (Certification.id award) st)))
    = dataOf award
  ∧ errors (form (onEdit (Certification.id award) st)) = errors (form st)
  ∧ certifications (onEdit (Certification.id award) st) = certifications st
  ∧ effectPending (onEdit (Certification.id award) st) = effectPending st.
Proof.
  intros Hnd Hk. unfold onEdit.
  change (find _ ?l) with (findById (Certification.id award) l).
  rewrite (findById_lookup (Certification.id award) _ k award Hnd Hk eq_refl).
  simpl.
  split_and!; try done. unfold toFormData, dataOf.
  f_equal; by js_simpl.
Qed.

Lemma cert_onEdit_populates_witness :
  toFormData (values (form (onEdit "X" oneRecord))) = awsCert.
Proof.
  apply (cert_onEdit_populates oneRecord 0 (withId "X" awsCert));
    [by_compute|done].
Defined.

(** ** Validation at the form element (lines 16-20 and 107) *)

Lemma schema_NoDup : NoDup schema.*1.
Proof. by_compute. Qed.

Lemma schema_AllRequired : AllRequired schema "Campo obrigatório".
Proof. repeat constructor. Qed.

Lemma validate_Complete (values : gmap string string) :
  validate schema values = ∅ ↔ Complete values.
Proof.
  apply (validate_all_required_empty schema "Campo obrigatório");
    [apply schema_NoDup | apply schema_AllRequired].
Qed.

Lemma formOnSubmit_valid (uuid : string) (st : State) :
  Complete (values (form st)) →
  formOnSubmit uuid st
  = handleFormSubmit uuid (toFormData (values (form st)))
      (setForm {| values := values (form st); errors := ∅ |} st).
Proof.
  intros Hc. unfold formOnSubmit.
  destruct (handleSubmit _ _) as [data f|f] eqn:E.
  - by apply handleSubmit_Valid in E as (_ & -> & ->).
  - apply handleSubmit_Invalid in E as [Hne _].
    by apply validate_Complete in Hc.
Qed.

Lemma formOnSubmit_invalid (uuid : string) (st : State) :
  ¬ Complete (values (form st)) →
  formOnSubmit uuid st
  = setForm {| values := values (form st);
               errors := validate schema (values (form st)) |} st.
Proof.
  intros Hc. unfold formOnSubmit.
  destruct (handleSubmit _ _) as [data f|f] eqn:E.
  - apply handleSubmit_Valid in E as (He & _). by apply validate_Complete in He.
  - by apply handleSubmit_Invalid in E as [_ ->].
Qed.

Lemma calls_Complete (uuid : string) (st : State) :
  Complete (values (form st)) →
  calls (OnSubmit uuid) st = negb (truthy (currentId st)).
Proof.
  intros Hc. unfold calls. destruct (handleSubmit _ _) eqn:E; [done|].
  apply handleSubmit_Invalid in E as [Hne _]. by apply validate_Complete in Hc.
Qed.

(** C7. A submission with a blank required field changes nothing but the
    errors: the array, the modal, the current id and the typed values stay,
    no effect is scheduled, and the errors hold the fixed message for
    exactly the required fields that are blank. *)
Theorem cert_submit_invalid_blocks (uuid : string) (st : State) :
  ¬ Complete (values (form st)) →
  certifications (formOnSubmit uuid st) = certifications st
  ∧ showModal (formOnSubmit uuid st) = showModal st
  ∧ currentId (formOnSubmit uuid st) = currentId st
  ∧ effectPending (formOnSubmit uuid st) = effectPending st
  ∧ values (form (formOnSubmit uuid st)) = values (form st)
  ∧ ∀ name m,
      errors (form (formOnSubmit uuid st)) !! name = Some m ↔
      name ∈ ["title"; "issuer"; "date"]
      ∧ field (values (form st)) name = "" ∧ m = "Campo obrigatório".
Proof.
  intros Hc. rewrite (formOnSubmit_invalid uuid st Hc). simpl.
  split_and!; try done. intros name m.
  apply (validate_all_required schema);
    [apply schema_NoDup | apply schema_AllRequired].
Qed.

Lemma cert_submit_invalid_blocks_witness :
  certifications (formOnSubmit "X" titleOnly) = []
  ∧ showModal (formOnSubmit "X" titleOnly) = true
  ∧ errors (form (formOnSubmit "X" titleOnly)) !! "issuer"
    = Some "Campo obrigatório".
Proof.
  assert (¬ Complete (values (form titleOnly))) as Hc by by_compute.
  destruct (cert_submit_invalid_blocks "X" titleOnly Hc)
    as (H1 & H2 & _ & _ & _ & H6).
  split_and!; [exact H1|exact H2|].
  apply H6. split_and!; [by_compute|reflexivity..].
Defined.

(** ** How one event changes the array *)

Lemma certifications_handleFormSubmit (uuid : string) (data : FormData)
    (st : State) :
  certifications (handleFormSubmit uuid data st)
  = if truthy (currentId st)
    then updateById (currentId st) (λ award, withId (id_of award) data)
           (certifications st)
    else certifications st ++ [withId uuid data].
Proof. unfold handleFormSubmit. by destruct (truthy _). Qed.

Lemma certifications_onEdit (id : string) (st : State) :
  certifications (onEdit id st) = certifications st.
Proof. unfold onEdit. by destruct (find _ _). Qed.

Lemma certifications_dispatch (e : Event) (st : State) :
  certifications (dispatch e st)
  = match e with
    | OnDelete id => removeById id (certifications st)
    | OnSubmit uuid =>
        if decide (Complete (values (form st)))
        then certifications
               (handleFormSubmit uuid (toFormData (values (form st))) st)
        else certifications st
    | _ => certifications st
    end.
Proof.
  destruct e as [|id| | | |uuid]; simpl; try done.
  - apply certifications_onEdit.
  - case_decide as Hc.
    + rewrite (formOnSubmit_valid _ _ Hc). unfold handleFormSubmit. simpl.
      by destruct (truthy _).
    + by rewrite (formOnSubmit_invalid _ _ Hc).
Qed.

Lemma effectPending_dispatch (e : Event) (st : State) :
  effectPending (dispatch e st) = effectPending st || mutates e st.
Proof.
  destruct e as [|id| | | |uuid]; simpl; rewrite ?orb_false_r, ?orb_true_r;
    try done.
  - unfold onEdit. by destruct (find _ _).
  - case_bool_decide as Hc.
    + rewrite (formOnSubmit_valid _ _ Hc), orb_true_r.
      unfold handleFormSubmit. by destruct (truthy _).
    + by rewrite (formOnSubmit_invalid _ _ Hc), orb_false_r.
Qed.

Lemma certifications_dispatch_quiet (e : Event) (st : State) :
  effectPending (dispatch e st) = false →
  certifications (dispatch e st) = certifications st.
Proof.
  rewrite effectPending_dispatch. intros [_ Hm]%orb_false_elim.
  rewrite certifications_dispatch.
  destruct e as [|id| | | |uuid]; simpl in *; try done.
  apply bool_decide_eq_false in Hm. by rewrite decide_False.
Qed.

(** ** The effect and the commit (lines 50-55) *)

Lemma certifications_commit (w : World) :
  certifications (component (commit self w)) = certifications (component w).
Proof.
  rewrite commit_component. by destruct (c_pending self (component w)).
Qed.

Lemma certifications_step (e : Event) (w : World) :
  certifications (component (step self e w))
  = certifications (dispatch e (component w)).
Proof. apply certifications_commit. Qed.




(** C8. After a commit, one event makes exactly one write to the context
    when its handler replaced the array (a deletion, or a submission that
    passed validation), and the value written is the array as the handler
    left it; any other event writes nothing.  The component is quiet again
    afterwards. *)
Theorem cert_effect_exactly_on_mutation (e : Event) (w : World) :
  effectPending (component w) = false →
  context (step self e w)
  = (if mutates e (component w)
     then <["certifications" :=
              VCertifications (certifications (component (step self e w)))]>
            (context w)
     else context w)
  ∧ effectPending (component (step self e w)) = false.
Proof.
  intros Hq. split; [|apply (step_quiet self)].
  rewrite certifications_step. unfold step.
  rewrite commit_context. simpl. by rewrite effectPending_dispatch, Hq.
Qed.

Lemma cert_effect_exactly_on_mutation_witness :
  context (step self (OnDelete "X") {| component := oneRecord; context := ∅ |})
  = {["certifications" := VCertifications []]}.
Proof.
  exact (proj1 (cert_effect_exactly_on_mutation (OnDelete "X")
                  {| component := oneRecord; context := ∅ |} eq_refl)).
Defined.

Lemma Mirrors_dispatch (e : Event) (ctx : gmap string Value) (st : State) :
  effectPending st = false → Mirrors ctx st →
  effectPending (dispatch e st) = false → Mirrors ctx (dispatch e st).
Proof.
  unfold Mirrors. intros _ Hm Hq. by rewrite certifications_dispatch_quiet.
Qed.

(** C6. Whatever the user does after the component mounted, the context
    holds the component's array: the sink mirrors the collection after
    every step. *)
Theorem cert_sink_mirrors (ctx : gmap string Value) (es : list Event) :
  context (run self es (mount self ctx)) !! "certifications"
  = Some (VCertifications
          (certifications (component (run self es (mount self ctx))))).
Proof.
  apply (run_synced self Mirrors); [|apply Mirrors_dispatch].
  intros c st. apply lookup_insert_eq.
Qed.

Lemma useEffect_frame (ctx : gmap string Value) (st : State) :
  sameOutside ["certifications"] ctx (useEffect ctx st).
Proof. apply sameOutside_insert. by left. Qed.

(** C36. The component writes one property of the context and no other:
    every other property is, after any run, what it was. *)
Theorem cert_context_frame (es : list Event) (w : World) (k : string) :
  k ≠ "certifications" → context (run self es w) !! k = context w !! k.
Proof.
  intros Hk.
  apply (run_frame self (sameOutside ["certifications"]) useEffect_frame es w).
  by intros ->%list_elem_of_singleton.
Qed.

Lemma cert_context_frame_witness :
  context (run self [OnDelete "X"]
             {| component := oneRecord;
                context := {["email" := VString "a@b.c"]} |}) !! "email"
  = Some (VString "a@b.c").
Proof.
  by rewrite (cert_context_frame [OnDelete "X"] _ "email" ltac:(done)).
Defined.

(** ** The size of the array *)

Lemma certifications_length_dispatch (e : Event) (st : State) :
  length (certifications (dispatch e st))
  ≤ length (certifications st) + grows e.
Proof.
  rewrite certifications_dispatch.
  destruct e as [|id|id| | |uuid]; unfold grows; try lia.
  - pose proof (length_removeById id (certifications st)). lia.
  - case_decide; [|lia]. rewrite certifications_handleFormSubmit.
    destruct (truthy _); [rewrite length_updateById|rewrite length_app; simpl];
      lia.
Qed.

Lemma certifications_length_dispatch_lower (e : Event) (st : State) :
  NoDup (ids (certifications st)) →
  length (certifications st)
  ≤ length (certifications (dispatch e st)) + shrinks e.
Proof.
  intros Hnd. rewrite certifications_dispatch.
  destruct e as [|id|id| | |uuid]; unfold shrinks; try lia.
  - pose proof (length_removeById_NoDup id (certifications st) Hnd). lia.
  - case_decide; [|lia]. rewrite certifications_handleFormSubmit.
    destruct (truthy _); [rewrite length_updateById|rewrite length_app]; lia.
Qed.

(** C21. The array grows by one record per submission at most: after any
    sequence of events, from any world, it is longer than before by the
    number of submit events at most.  And it shrinks by one record per
    deletion at most: an event other than a deletion never shortens it,
    and a deletion removes one record at most when ids are distinct. *)
Theorem cert_length_bounded (es : list Event) (e : Event) (w : World) :
  length (certifications (component (run self es w)))
  ≤ length (certifications (component w)) + sum_list (grows <$> es)
  ∧ (NoDup (ids (certifications (component w))) →
     length (certifications (component w))
     ≤ length (certifications (component (step self e w))) + shrinks e).
Proof.
  split.
  - apply (run_measure self (λ st, length (certifications st)) grows);
      [done|apply certifications_length_dispatch].
  - rewrite certifications_step. apply certifications_length_dispatch_lower.
Qed.

Lemma cert_length_bounded_witness :
  length
    (certifications
       (component
          (run self (addRecord "X" awsCert ++ [OnSubmit "Y"; OnDelete "X"])
             (mount self ∅))))
  ≤ 0 + 2.
Proof.
  exact (proj1 (cert_length_bounded
                  (addRecord "X" awsCert ++ [OnSubmit "Y"; OnDelete "X"])
                  OnAdd (mount self ∅))).
Defined.

(** ** Well-formed arrays in reachable worlds *)

Lemma Complete_ValidRecord (values : gmap string string) (i : string) :
  Complete values → ValidRecord (withId i (toFormData values)).
Proof.
  unfold Complete. rewrite !Forall_cons. by intros (? & ? & ? & _).
Qed.

Lemma WellFormed_handleFormSubmit (uuid : string) (values : gmap string string)
    (st : State) :
  uuid ≠ "" → uuid ∉ ids (certifications st) → Complete values →
  WellFormed (certifications st) →
  WellFormed (certifications (handleFormSubmit uuid (toFormData values) st)).
Proof.
  intros Hne Hfresh Hc [Hwf Hvalid]. rewrite certifications_handleFormSubmit.
  destruct (truthy _); split.
  - apply wf_ids_updateById; [apply withId_keeps_id|done].
  - apply Forall_updateById; [|done]. intros. by apply Complete_ValidRecord.
  - by apply wf_ids_snoc.
  - apply Forall_app. split; [done|].
    apply Forall_singleton. by apply Complete_ValidRecord.
Qed.

Lemma WellFormed_dispatch (e : Event) (st : State) :
  fresh e st → WellFormed (certifications st) →
  WellFormed (certifications (dispatch e st)).
Proof.
  intros Hf Hwf. rewrite certifications_dispatch.
  destruct e as [|id|id| | |uuid]; try done.
  - destruct Hwf. split; [by apply wf_ids_removeById|by apply Forall_filter].
  - destruct Hf. case_decide; [by apply WellFormed_handleFormSubmit|done].
Qed.

Lemma reachable_WellFormed ctx w :
  reachable self fresh ctx w → WellFormed (certifications (component w)).
Proof.
  apply (reachable_invariant self
         (λ w, WellFormed (certifications (component w)))).
  - split; [apply wf_ids_nil|apply Forall_nil_2].
  - intros e w' _ Hf IH. rewrite certifications_step.
    by apply WellFormed_dispatch.
Qed.

(** C10. In every reachable world the ids of the array are distinct and
    none is the empty string, as long as the identifiers the generator
    returns are fresh and non-empty. *)
Theorem cert_reachable_ids_distinct ctx w :
  reachable self fresh ctx w →
  NoDup (ids (certifications (component w)))
  ∧ Forall (λ award, Certification.id award ≠ "")
    (certifications (component w)).
Proof. intros Hr. by destruct (reachable_WellFormed ctx w Hr) as [[? ?] _]. Qed.

Lemma cert_reachable_ids_distinct_witness :
  NoDup (ids (certifications
              (component (run self (addRecord "X" awsCert) (mount self ∅))))).
Proof.
  refine (proj1 (cert_reachable_ids_distinct ∅ _ _)).
  apply reachable_run; [constructor|by_compute].
Defined.

(** C24. In every reachable world every stored record satisfies the
    schema: its title, issuer and date are non-blank, whether it was added
    or edited. *)
Theorem cert_reachable_records_valid ctx w :
  reachable self fresh ctx w →
  Forall ValidRecord (certifications (component w)).
Proof. intros Hr. by destruct (reachable_WellFormed ctx w Hr) as [_ ?]. Qed.

Lemma cert_reachable_records_valid_witness :
  Forall ValidRecord
    (certifications
     (component (run self (addRecord "X" awsCert) (mount self ∅)))).
Proof.
  apply (cert_reachable_records_valid ∅).
  apply reachable_run; [constructor|by_compute].
Defined.

(** ** Editing a record and submitting it *)

Lemma onEdit_found (st : State) (k : nat) (award : Certification.t) :
  NoDup (ids (certifications st)) →
  certifications st !! k = Some award →
  onEdit (Certification.id award) st
  = {| form :=
         {| values :=
              <["summary" := Certification.summary award]>
                (<["date" := Certification.date award]>
                   (<["issuer" := Certification.issuer award]>
                      (<["title" := Certification.title award]>
                         (values (form st)))));
            errors := errors (form st) |};
       showModal := true;
       currentId := Certification.id award;
       certifications := certifications st;
       effectPending := effectPending st |}.
Proof.
  intros Hnd Hk. unfold onEdit.
  change (find _ ?l) with (findById (Certification.id award) l).
  by rewrite (findById_lookup (Certification.id award) _ k award Hnd Hk
              eq_refl).
Qed.

Lemma Complete_onEdit (st : State) (k : nat) (award : Certification.t) :
  NoDup (ids (certifications st)) →
  certifications st !! k = Some award → ValidRecord award →
  Complete (values (form (onEdit (Certification.id award) st))).
Proof.
  intros Hnd Hk (Ht & Hi & Hd). rewrite (onEdit_found st k award Hnd Hk).
  unfold Complete, schema. simpl. repeat constructor; by js_simpl.
Qed.

(** C25. Opening a stored record for editing and submitting the form as
    it was filled leaves the array as it was: what [onEdit] writes into the
    fields passes the schema and is read back as the record's own data. *)
Theorem cert_edit_then_submit_unchanged (st : State) (k : nat)
    (award : Certification.t) (uuid : string) :
  NoDup (ids (certifications st)) →
  certifications st !! k = Some award →
  Certification.id award ≠ "" → ValidRecord award →
  certifications (formOnSubmit uuid (onEdit (Certification.id award) st))
  = certifications st.
Proof.
  intros Hnd Hk Hid Hv.
  rewrite (formOnSubmit_valid _ _ (Complete_onEdit st k award Hnd Hk Hv)).
  rewrite certifications_handleFormSubmit, (onEdit_found st k award Hnd Hk).
  simpl. rewrite (truthy_ne _ Hid).
  rewrite (updateById_insert _ _ _ k award Hnd Hk eq_refl).
  unfold toFormData. js_simpl. destruct award. by apply list_insert_id.
Qed.

Lemma cert_edit_then_submit_unchanged_witness :
  certifications (formOnSubmit "Y" (onEdit "X" oneRecord))
  = certifications oneRecord.
Proof.
  apply (cert_edit_then_submit_unchanged oneRecord 0 (withId "X" awsCert));
    [by_compute|done|done|by_compute].
Defined.

(** ** Where the component departs from the edit controller *)

(** C9. Closing the modal keeps the current id, and the add button does
    not clear it.  So after "edit a record, close, add", the modal that
    opens is blank but still targets the record: a valid submission
    overwrites that record in place instead of appending a new one, and
    the array does not grow. *)
Theorem cert_add_after_cancelled_edit_overwrites (st : State) (k : nat)
    (award : Certification.t) (uuid : string) (data : FormData) :
  NoDup (ids (certifications st)) →
  certifications st !! k = Some award →
  Certification.id award ≠ "" →
  currentId (dispatch OnAdd (closeModal (onEdit (Certification.id award) st)))
    = Certification.id award
  ∧ form (dispatch OnAdd (closeModal (onEdit (Certification.id award) st)))
    = useForm
  ∧ certifications
      (handleFormSubmit uuid data
         (dispatch OnAdd (closeModal (onEdit (Certification.id award) st))))
    = <[k := withId (Certification.id award) data]> (certifications st).
Proof.
  intros Hnd Hk Hid. rewrite (onEdit_found st k award Hnd Hk).
  split_and!; [done..|]. rewrite certifications_handleFormSubmit. simpl.
  rewrite (truthy_ne _ Hid).
  by rewrite (updateById_insert _ _ _ k award Hnd Hk eq_refl).
Qed.

Lemma cert_add_after_cancelled_edit_overwrites_witness :
  certifications
    (handleFormSubmit "Y" awsCertPro
       (dispatch OnAdd (closeModal (onEdit "X" oneRecord))))
  = [withId "X" awsCertPro].
Proof.
  apply (cert_add_after_cancelled_edit_overwrites oneRecord 0
           (withId "X" awsCert) "Y" awsCertPro); [by_compute|done..].
Defined.

(** C26. A submission whose target no longer exists is dropped: with a
    current id that no record carries (the record was deleted while it was
    being edited), [handleFormSubmit] leaves the array as it is, discards
    the data, clears the current id and closes the modal. *)
Theorem cert_stale_edit_drops_submission (uuid : string) (data : FormData)
    (st : State) :
  currentId st ≠ "" → currentId st ∉ ids (certifications st) →
  certifications (handleFormSubmit uuid data st) = certifications st
  ∧ currentId (handleFormSubmit uuid data st) = ""
  ∧ showModal (handleFormSubmit uuid data st) = false
  ∧ form (handleFormSubmit uuid data st) = useForm.
Proof.
  intros Hcur Hstale. split_and!.
  - rewrite certifications_handleFormSubmit, (truthy_ne _ Hcur).
    by apply updateById_absent.
  - unfold handleFormSubmit. by rewrite (truthy_ne _ Hcur).
  - unfold handleFormSubmit. by destruct (truthy _).
  - unfold handleFormSubmit. by destruct (truthy _).
Qed.

Lemma cert_stale_edit_drops_submission_witness :
  certifications
    (handleFormSubmit "Y" awsCertPro (handleDelete "X" (onEdit "X" oneRecord)))
  = [].
Proof.
  exact (proj1 (cert_stale_edit_drops_submission "Y" awsCertPro
                  (handleDelete "X" (onEdit "X" oneRecord))
                  ltac:(by_compute) ltac:(by_compute))).
Defined.

(** C39. The empty string cannot serve as an id: a record that carries it
    can be opened for editing, but the submission takes the branch without
    a current id and appends a second record instead of replacing the
    first. *)
Theorem cert_empty_id_edit_appends (st : State) (k : nat)
    (award : Certification.t) (uuid : string) (data : FormData) :
  NoDup (ids (certifications st)) →
  certifications st !! k = Some award → Certification.id award = "" →
  showModal (onEdit "" st) = true
  ∧ certifications (handleFormSubmit uuid data (onEdit "" st))
    = certifications st ++ [withId uuid data].
Proof.
  intros Hnd Hk Hid. rewrite <- Hid at 1 2.
  rewrite (onEdit_found st k award Hnd Hk). split; [done|].
  rewrite certifications_handleFormSubmit. simpl. by rewrite Hid.
Qed.

Lemma cert_empty_id_edit_appends_witness :
  certifications
    (handleFormSubmit "Y" awsCertPro
       (onEdit "" (setCertifications [withId "" awsCert] initialState)))
  = [withId "" awsCert; withId "Y" awsCertPro].
Proof.
  apply (cert_empty_id_edit_appends
           (setCertifications [withId "" awsCert] initialState) 0
           (withId "" awsCert) "Y" awsCertPro); [by_compute|done..].
Defined.

(** ** What the render shows (lines 95-149) *)

(** The names of the fields are written as strings in the schema, in
    the [register] calls of the inputs and in what the handler reads of
    the submitted data.  They agree: the inputs register four distinct
    names; every rule of the schema is for a registered field, whose
    input shows the error of that field; the text area, for which the
    schema has no rule, shows none; and the data handed to the handler is
    made of the registered fields, each of which counts. *)
Theorem cert_fields_wired (st : State) :
  let inputs := Modal.content (renderModal st) in
  Input.name <$> inputs = ["title"; "issuer"; "date"; "summary"]
  ∧ schema.*1 ⊆ Input.name <$> inputs
  ∧ Forall (λ input,
       Input.error input
       = if decide (Input.name input ∈ schema.*1)
         then errorMessage (form st) (Input.name input) else None) inputs
  ∧ (∀ values values', toFormData values = toFormData values'
       ↔ Forall (λ name, field values name = field values' name)
           (Input.name <$> inputs)).
Proof.
  split_and!; [done|by_compute|by repeat constructor|]. intros values values'.
  simpl. rewrite !Forall_cons, Forall_nil. unfold toFormData.
  split; [intros [=]; by split_and!|intros (-> & -> & -> & -> & _); done].
Qed.

(** The label of the submit button tells what a valid submission
    does: under "add" the array grows by one record, under "update" its
    length is unchanged; and the label is one of the two. *)
Theorem cert_label_predicts_submit (uuid : string) (data : FormData)
    (st : State) :
  (submitLabel st = Some (FormattedMessage "global.add")
   ∧ length (certifications (handleFormSubmit uuid data st))
     = S (length (certifications st)))
  ∨ (submitLabel st = Some (FormattedMessage "global.update")
     ∧ length (certifications (handleFormSubmit uuid data st))
       = length (certifications st)).
Proof.
  rewrite certifications_handleFormSubmit. unfold submitLabel. simpl.
  unfold ternary. destruct (truthy _); [right|left]; split; try done.
  - apply length_updateById.
  - rewrite length_app. simpl. lia.
Qed.

(** After a submission that failed validation the render shows the
    fixed message under exactly the inputs of the required fields that are
    blank, and nothing under the others; the text area never shows one. *)
Theorem cert_render_shows_errors (uuid : string) (st : State) :
  ¬ Complete (values (form st)) →
  Forall
    (λ input,
       Input.error input
       = if decide (Input.name input ∈ ["title"; "issuer"; "date"]
                    ∧ field (values (form st)) (Input.name input) = "")
         then Some "Campo obrigatório" else None)
    (Modal.content (renderModal (formOnSubmit uuid st))).
Proof.
  intros Hc. rewrite (formOnSubmit_invalid uuid st Hc). simpl.
  unfold errorMessage. simpl.
  repeat constructor; simpl;
    (apply (validate_all_required_decide schema "Campo obrigatório");
     [apply schema_NoDup|apply schema_AllRequired]).
Qed.

Lemma cert_render_shows_errors_witness :
  Forall
    (λ input,
       Input.error input
       = if decide (Input.name input ∈ ["title"; "issuer"; "date"]
                    ∧ field (values (form titleOnly)) (Input.name input) = "")
         then Some "Campo obrigatório" else None)
    (Modal.content (renderModal (formOnSubmit "X" titleOnly))).
Proof. apply cert_render_shows_errors. by_compute. Defined.

(** ** A closed modal has a blank form *)

Lemma ClosedBlank_dispatch (e : Event) (st : State) :
  offered e st → ClosedBlank st → ClosedBlank (dispatch e st).
Proof.
  unfold ClosedBlank. destruct e as [|id|id| |name value|uuid]; simpl;
    try done.
  - intros _ Hst. unfold onEdit. by destruct (find _ _).
  - by intros [-> _].
  - intros Hshow _. destruct (decide (Complete (values (form st)))) as [Hc|Hc].
    + rewrite (formOnSubmit_valid _ _ Hc). intros _.
      unfold handleFormSubmit. by destruct (truthy _).
    + rewrite (formOnSubmit_invalid _ _ Hc). simpl. congruence.
Qed.

Lemma ClosedBlank_step (e : Event) (w : World) :
  offered e (component w) → ClosedBlank (component w) →
  ClosedBlank (component (step self e w)).
Proof.
  intros Ho Hw. unfold step. rewrite commit_component. simpl.
  destruct (effectPending _); by apply ClosedBlank_dispatch.
Qed.

(** C27. In every world reached through events the render offers, a
    closed modal has a blank form: no typed value and no error survives a
    close or a successful submission, so the modal the add button opens
    starts blank although the add callback resets nothing. *)
Theorem cert_closed_modal_blank ctx w :
  reachable self offered ctx w →
  showModal (component w) = false → form (component w) = useForm.
Proof.
  apply (reachable_invariant self (λ w, ClosedBlank (component w))); [done|].
  intros e w' _. apply ClosedBlank_step.
Qed.

Lemma cert_closed_modal_blank_witness :
  form (component
    (run self [OnAdd; OnChange "title" "a"; OnSubmit "X"; OnCloseModal]
     (mount self ∅)))
  = useForm.
Proof.
  apply (cert_closed_modal_blank ∅); [|by_compute].
  apply reachable_run; [constructor|by_compute].
Defined.

(** ** The scenario of the specification, run *)


End AwardsForm.
