(* ===== verification/WorkExperienceForm.v ===== *)
(** * The work experience form

    [src/components/FormSidebar/WorkExperienceForm/index.tsx], component
    [WorkExperienceForm]: the same edit-in-a-modal pattern as the
    certifications form, over six fields of which four are required, with
    the handlers under the names this source gives them ([onSubmit],
    [deleteNetwork]).  The model and the theorems follow the same plan:
    schema, state, handlers, effect, JSX as data, the component as React
    sees it ([self]), the vocabulary of the statements, the theorems. *)

From stdpp Require Import base decidable option list strings gmap.
From S2P Require Import Prelude Collection Yup HookForm Intl Components.
From S2P Require Import React ResumeContext.

#[local] Open Scope js_scope.

Module WorkExperienceForm.

(** ** Schema and data (lines 16-30) *)

Definition schema : ObjectSchema :=
  [("company", required "Campo obrigatório" yup_string);
   ("position", required "Campo obrigatório" yup_string);
   ("startDate", required "Campo obrigatório" yup_string);
   ("endDate", required "Campo obrigatório" yup_string)].

Record FormData := {
  company : string;
  position : string;
  website : string;
  startDate : string;
  endDate : string;
  summary : string;
}.

(** ** State (lines 32-44)

    One field per hook: the react-hook-form state of [useForm], then the
    three [useState] cells.  [effectPending] is ghost: it is set by every
    [setExperiences], which always passes a new array, and cleared when
    the effect of lines 53-58 has run. *)

Record State := {
  form : UseForm;
  showModal : bool;
  currentId : string;
  experiences : list WorkExperience.t;
  effectPending : bool;
}.

Definition initialState : State :=
  {| form := useForm; showModal := false; currentId := "";
     experiences := []; effectPending := true |}.

Definition setForm (f : UseForm) (st : State) : State :=
  {| form := f; showModal := showModal st; currentId := currentId st;
     experiences := experiences st; effectPending := effectPending st |}.

Definition setShowModal (b : bool) (st : State) : State :=
  {| form := form st; showModal := b; currentId := currentId st;
     experiences := experiences st; effectPending := effectPending st |}.

Definition setCurrentId (i : string) (st : State) : State :=
  {| form := form st; showModal := showModal st; currentId := i;
     experiences := experiences st; effectPending := effectPending st |}.

Definition setExperiences (l : list WorkExperience.t) (st : State) : State :=
  {| form := form st; showModal := showModal st; currentId := currentId st;
     experiences := l; effectPending := true |}.

(** [reset] and [setValue] of the component's form (lines 37-38). *)
Definition reset (st : State) : State := setForm (HookForm.reset (form st)) st.

Definition setValue (name value : string) (st : State) : State :=
  setForm (HookForm.setValue name value (form st)) st.

(** ** The effect (lines 53-58) *)

Definition useEffect (contextState : gmap string Value) (st : State) :
    gmap string Value :=
  updateState
    (<["workExperience" := VWorkExperience (experiences st)]> contextState)
    contextState.

(** ** Handlers (lines 60-98) *)

(** [{ id: i, ...data }] *)
Definition withId (i : string) (data : FormData) : WorkExperience.t :=
  {| WorkExperience.id := i;
     WorkExperience.company := company data;
     WorkExperience.position := position data;
     WorkExperience.website := website data;
     WorkExperience.startDate := startDate data;
     WorkExperience.endDate := endDate data;
     WorkExperience.summary := summary data |}.

(** [uuid] is what [uuid()] returns if the handler calls it. *)
Definition onSubmit (uuid : string) (data : FormData) (st : State) :
    State :=
  (if truthy (currentId st) then
     let updatedExperiences :=
       (λ experience,
          if decide (WorkExperience.id experience = currentId st)
          then withId (WorkExperience.id experience) data
          else experience) <$> experiences st in
     st |> setExperiences updatedExperiences |> setCurrentId ""
   else
     st |> setExperiences (experiences st ++ [withId uuid data]))
  |> reset |> setShowModal false.

Definition onEdit (id : string) (st : State) : State :=
  match List.find (λ sn, WorkExperience.id sn === id) (experiences st) with
  | Some experience =>
      st |> setCurrentId (WorkExperience.id experience)
         |> setValue "company" (WorkExperience.company experience)
         |> setValue "position" (WorkExperience.position experience)
         |> setValue "website" (WorkExperience.website experience)
         |> setValue "startDate" (WorkExperience.startDate experience)
         |> setValue "endDate" (WorkExperience.endDate experience)
         |> setValue "summary" (WorkExperience.summary experience)
         |> setShowModal true
  | None => st
  end.

Definition closeModal (st : State) : State :=
  st |> setShowModal false |> reset.

Definition deleteNetwork (id : string) (st : State) : State :=
  st |> setExperiences
          (filter (λ experience, WorkExperience.id experience ≠ id)
             (experiences st)).

(** ** The form element (lines 112-156)

    The data react-hook-form hands to [onSubmit] holds the six registered
    fields; [formOnSubmit] is the form's [onSubmit], that is
    [handleSubmit(onSubmit)]. *)

Definition toFormData (values : gmap string string) : FormData :=
  {| company := field values "company";
     position := field values "position";
     website := field values "website";
     startDate := field values "startDate";
     endDate := field values "endDate";
     summary := field values "summary" |}.

Definition formOnSubmit (uuid : string) (st : State) : State :=
  match handleSubmit (yupResolver schema) (form st) with
  | Valid data f => onSubmit uuid (toFormData data) (setForm f st)
  | Invalid f => setForm f st
  end.

(** ** Events (the callbacks of lines 100-167) *)

Inductive Event :=
  | OnAdd
  | OnEdit (id : string)
  | OnDelete (id : string)
  | OnCloseModal
  | OnChange (name value : string)
  | OnSubmit (uuid : string).

#[global] Instance Event_eq_dec : EqDecision Event.
Proof. solve_decision. Defined.

Definition dispatch (e : Event) (st : State) : State :=
  match e with
  | OnAdd => setShowModal true st
  | OnEdit id => onEdit id st
  | OnDelete id => deleteNetwork id st
  | OnCloseModal => closeModal st
  | OnChange name value => setForm (onChange name value (form st)) st
  | OnSubmit uuid => formOnSubmit uuid st
  end.

(** ** The call of [uuid()] (lines 61-71)

    The identifier of a new record is asked of the generator in the
    branch of [onSubmit] without a current id, which a submission
    reaches when it passed validation.  [calls e st] says that the
    callback of [e] makes the call in [st]; [stamp i e] is the event whose
    call, if made, returns [i]. *)

Definition calls (e : Event) (st : State) : bool :=
  match e with
  | OnSubmit _ =>
      match handleSubmit (yupResolver schema) (form st) with
      | Valid _ _ => negb (truthy (currentId st))
      | Invalid _ => false
      end
  | _ => false
  end.

Definition stamp (i : string) (e : Event) : Event :=
  match e with
  | OnSubmit _ => OnSubmit i
  | _ => e
  end.

(** ** Render (lines 45-51 and 100-169) *)

Definition emptyMessage : Message :=
  withValue
    (withValue (formatMessage "sidebar.crudList.emptyMessage")
       "gender" (text "female"))
    "name" (toLowerCase (formatMessage "global.experience")).

Definition renderList (st : State) : CrudList.Props WorkExperience.t Event :=
  {| CrudList.items := experiences st;
     CrudList.propertyToShow := "company";
     CrudList.emptyMessage := emptyMessage;
     CrudList.onAdd := OnAdd;
     CrudList.onEdit := OnEdit;
     CrudList.onDelete := OnDelete |}.

Definition renderModal (st : State) : Modal.Props Event :=
  {| Modal.show := showModal st;
     Modal.onCloseModal := OnCloseModal;
     Modal.onSubmit := OnSubmit;
     Modal.header :=
       [ FormattedMessage (ternary (currentId st) "global.update" "global.add");
         text " ";
         FormattedMessage "global.experience" ];
     Modal.content :=
       [ {| Input.element := "Input"; Input.type := "text";
            Input.label := formatMessage "sidebar.form.workExperience.company";
            Input.name := "company"; Input.value := None;
            Input.error := errorMessage (form st) "company";
            Input.onChange := OnChange "company" |};
         {| Input.element := "Input"; Input.type := "text";
            Input.label := formatMessage "sidebar.form.workExperience.position";
            Input.name := "position"; Input.value := None;
            Input.error := errorMessage (form st) "position";
            Input.onChange := OnChange "position" |};
         {| Input.element := "Input"; Input.type := "text";
            Input.label := formatMessage "sidebar.form.workExperience.website";
            Input.name := "website"; Input.value := None;
            Input.error := errorMessage (form st) "website";
            Input.onChange := OnChange "website" |};
         {| Input.element := "Input"; Input.type := "date";
            Input.label := formatMessage
              "sidebar.form.workExperience.startDate";
            Input.name := "startDate"; Input.value := None;
            Input.error := errorMessage (form st) "startDate";
            Input.onChange := OnChange "startDate" |};
         {| Input.element := "Input"; Input.type := "date";
            Input.label := formatMessage "sidebar.form.workExperience.endDate";
            Input.name := "endDate"; Input.value := None;
            Input.error := errorMessage (form st) "endDate";
            Input.onChange := OnChange "endDate" |};
         {| Input.element := "Textarea"; Input.type := "text";
            Input.label := formatMessage "sidebar.form.workExperience.summary";
            Input.name := "summary"; Input.value := None;
            Input.error := None;
            Input.onChange := OnChange "summary" |} ];
     Modal.actions :=
       [ {| Button.type := "button"; Button.onClick := Some OnCloseModal;
            Button.children := FormattedMessage "global.close" |};
         {| Button.type := "submit"; Button.onClick := None;
            Button.children :=
              FormattedMessage
                (ternary (currentId st) "global.update" "global.add") |} ] |}.

Definition render (st : State) :
    CrudList.Props WorkExperience.t Event * Modal.Props Event :=
  (renderList st, renderModal st).

(** ** The component (lines 32-58)

    What React needs of the component: its first state, its callbacks,
    and its one effect with the test and the reset of [effectPending]. *)

Definition effectRan (st : State) : State :=
  {| form := form st; showModal := showModal st; currentId := currentId st;
     experiences := experiences st; effectPending := false |}.

Definition self : Component (gmap string Value) State Event :=
  {| c_initial := initialState;
     c_handle := dispatch;
     c_pending := effectPending;
     c_settle := effectRan;
     c_effect := useEffect |}.

#[global] Instance self_lawful : Lawful self.
Proof. intros st. reflexivity. Qed.

#[global] Instance self_mounts_pending : MountsPending self.
Proof. reflexivity. Qed.

(** * Vocabulary of the statements *)

Abbreviation World := (React.World (gmap string Value) State).

(** The data a record was built from. *)
Definition dataOf (experience : WorkExperience.t) : FormData :=
  {| company := WorkExperience.company experience;
     position := WorkExperience.position experience;
     website := WorkExperience.website experience;
     startDate := WorkExperience.startDate experience;
     endDate := WorkExperience.endDate experience;
     summary := WorkExperience.summary experience |}.

(** Every required field holds something. *)
Definition Complete (values : gmap string string) : Prop :=
  Forall (λ name, field values name ≠ "")
    ["company"; "position"; "startDate"; "endDate"].

#[global] Instance Complete_dec values : Decision (Complete values).
Proof. unfold Complete. apply _. Defined.

(** A stored record that satisfies the schema. *)
Definition ValidRecord (experience : WorkExperience.t) : Prop :=
  WorkExperience.company experience ≠ ""
  ∧ WorkExperience.position experience ≠ ""
  ∧ WorkExperience.startDate experience ≠ ""
  ∧ WorkExperience.endDate experience ≠ "".

#[global] Instance ValidRecord_dec experience :
  Decision (ValidRecord experience).
Proof. unfold ValidRecord. apply _. Defined.

Definition WellFormed (l : list WorkExperience.t) : Prop :=
  wf_ids l ∧ Forall ValidRecord l.

(** The events whose handler calls [setExperiences]. *)
Definition mutates (e : Event) (st : State) : bool :=
  match e with
  | OnDelete _ => true
  | OnSubmit _ => bool_decide (Complete (values (form st)))
  | _ => false
  end.

(** The contract of the identifier generator, as a condition on the
    submit event: the identifier [uuid()] would return is non-empty and
    carried by no record. *)
Definition fresh (e : Event) (st : State) : Prop :=
  match e with
  | OnSubmit uuid => uuid ≠ "" ∧ uuid ∉ ids (experiences st)
  | _ => True
  end.

#[global] Instance fresh_dec e st : Decision (fresh e st).
Proof. destruct e; apply _. Defined.

(** The events the rendered tree can raise: the list is always there;
    the inputs, the close button and the form are inside the modal. *)
Definition offered (e : Event) (st : State) : Prop :=
  match e with
  | OnAdd | OnEdit _ | OnDelete _ => True
  | OnCloseModal | OnSubmit _ => Modal.show (renderModal st) = true
  | OnChange name _ =>
      Modal.show (renderModal st) = true
      ∧ name ∈ Input.name <$> Modal.content (renderModal st)
  end.

#[global] Instance offered_dec e st : Decision (offered e st).
Proof. destruct e; simpl; apply _. Defined.

(** What the effect maintains: the context holds the array. *)
Definition Mirrors (ctx : gmap string Value) (st : State) : Prop :=
  ctx !! "workExperience" = Some (VWorkExperience (experiences st)).

(** A closed modal has a blank form. *)
Definition ClosedBlank (st : State) : Prop :=
  showModal st = false → form st = useForm.

(** The label of the submit button. *)
Definition submitLabel (st : State) : option Message :=
  Button.children <$> last (Modal.actions (renderModal st)).

(** How many records an event can add to the array, and how many it can
    remove from an array with distinct ids. *)
Definition grows (e : Event) : nat :=
  match e with OnSubmit _ => 1 | _ => 0 end.

Definition shrinks (e : Event) : nat :=
  match e with OnDelete _ => 1 | _ => 0 end.

(** ** Concrete inputs used by the witnesses *)

Definition acme : FormData :=
  {| company := "Acme"; position := "Engineer"; website := "";
     startDate := "2020-01-01"; endDate := "2022-01-01"; summary := "" |}.

Definition acmeLead : FormData :=
  {| company := "Acme"; position := "Lead engineer"; website := "acme.example";
     startDate := "2020-01-01"; endDate := "2023-06-30"; summary := "" |}.

(** One record of id ["X"], modal closed. *)
Definition oneRecord : State :=
  {| form := useForm; showModal := false; currentId := "";
     experiences := [withId "X" acme]; effectPending := false |}.

(** The same while the record is being edited. *)
Definition editingX : State :=
  {| form := useForm; showModal := true; currentId := "X";
     experiences := [withId "X" acme]; effectPending := false |}.

(** The modal open on a new record with only the company typed. *)
Definition companyOnly : State :=
  setForm (onChange "company" "Acme" useForm) (setShowModal true initialState).

(** Typing the six fields. *)
Definition typed (data : FormData) : list Event :=
  [OnChange "company" (company data); OnChange "position" (position data);
   OnChange "website" (website data); OnChange "startDate" (startDate data);
   OnChange "endDate" (endDate data); OnChange "summary" (summary data)].

(** Opening the modal, typing a record and submitting it. *)
Definition addRecord (uuid : string) (data : FormData) : list Event :=
  [OnAdd] ++ typed data ++ [OnSubmit uuid].

(** * Theorems *)

(** ** The replacement record and the data of the form *)

Lemma work_withId_id (i : string) (data : FormData) :
  WorkExperience.id (withId i data) = i.
Proof. reflexivity. Qed.

Lemma work_withId_keeps_id (data : FormData) :
  KeepsId (λ experience : WorkExperience.t, withId (id_of experience) data).
Proof. intros experience. reflexivity. Qed.

Lemma work_withId_dataOf (experience : WorkExperience.t) :
  withId (WorkExperience.id experience) (dataOf experience) = experience.
Proof. by destruct experience. Qed.

Lemma work_dataOf_withId (i : string) (data : FormData) :
  dataOf (withId i data) = data.
Proof. by destruct data. Qed.

(** ** Submission of valid data (lines 60-75) *)

(** Without a current id, [onSubmit] appends exactly one
    record, built from the data and the fresh identifier, at the end of
    the array; the array grows by one, the modal closes, the form is
    reset and the effect is scheduled. *)
Theorem work_submit_create_appends (uuid : string) (data : FormData)
    (st : State) :
  currentId st = "" →
  experiences (onSubmit uuid data st)
    = experiences st ++ [withId uuid data]
  ∧ length (experiences (onSubmit uuid data st))
    = S (length (experiences st))
  ∧ showModal (onSubmit uuid data st) = false
  ∧ currentId (onSubmit uuid data st) = ""
  ∧ form (onSubmit uuid data st) = useForm
  ∧ effectPending (onSubmit uuid data st) = true.
Proof.
  intros Hid. unfold onSubmit. rewrite Hid. simpl.
  rewrite length_app. simpl. split_and!; [done|lia|done..].
Qed.

Lemma work_submit_create_appends_witness :
  experiences (onSubmit "X" acme initialState)
    = [withId "X" acme].
Proof.
  exact (proj1 (work_submit_create_appends "X" acme initialState eq_refl)).
Defined.

(** With a current id that names the record at position [k] of an
    array with distinct ids, [onSubmit] replaces that record in
    place by the data under the same id: every other position, the length
    and the sequence of ids are unchanged; the current id is cleared, the
    modal closes and the form is reset. *)
Theorem work_submit_edit_in_place (uuid : string) (data : FormData)
    (st : State) (k : nat) (experience : WorkExperience.t) :
  NoDup (ids (experiences st)) →
  currentId st ≠ "" →
  experiences st !! k = Some experience →
  WorkExperience.id experience = currentId st →
  experiences (onSubmit uuid data st)
    = <[k := withId (currentId st) data]> (experiences st)
  ∧ ids (experiences (onSubmit uuid data st))
    = ids (experiences st)
  ∧ length (experiences (onSubmit uuid data st))
    = length (experiences st)
  ∧ currentId (onSubmit uuid data st) = ""
  ∧ showModal (onSubmit uuid data st) = false
  ∧ form (onSubmit uuid data st) = useForm.
Proof.
  intros Hnd Hcur Hk Hid. unfold onSubmit.
  rewrite (truthy_ne _ Hcur). simpl.
  change (fmap _ (experiences st)) with
    (updateById (currentId st) (λ a, withId (id_of a) data) (experiences st)).
  rewrite ids_updateById by apply work_withId_keeps_id.
  rewrite length_updateById. split_and!; try done.
  rewrite (updateById_insert _ _ _ k experience Hnd Hk Hid). simpl.
  by rewrite <- Hid.
Qed.

Lemma work_submit_edit_in_place_witness :
  experiences (onSubmit "Y" acmeLead editingX)
    = [withId "X" acmeLead].
Proof.
  apply (work_submit_edit_in_place "Y" acmeLead editingX 0
           (withId "X" acme)); [by_compute|done..].
Defined.

(** ** Deletion (lines 96-98) *)

(** [deleteNetwork] removes the records of the given id and nothing
    else, keeps the others in their order, and is idempotent: deleting the
    same id again leaves the state as the first deletion left it. *)
Theorem work_delete_idempotent (id : string) (st : State) :
  deleteNetwork id (deleteNetwork id st) = deleteNetwork id st
  ∧ (id ∉ ids (experiences (deleteNetwork id st)))
  ∧ (∀ experience, experience ∈ experiences (deleteNetwork id st)
       ↔ experience ∈ experiences st ∧ WorkExperience.id experience ≠ id)
  ∧ experiences (deleteNetwork id st) `sublist_of` experiences st.
Proof.
  split_and!.
  - unfold deleteNetwork, setExperiences. simpl. f_equal.
    apply (removeById_idemp (A := WorkExperience.t)).
  - apply (removeById_not_elem (A := WorkExperience.t)).
  - intros experience. apply (elem_of_removeById (A := WorkExperience.t)).
  - apply (removeById_sublist (A := WorkExperience.t)).
Qed.

(** ** Editing (lines 77-89) *)

(** [onEdit] on an id that no record carries is a no-op: the state,
    modal included, is the state before. *)
Theorem work_onEdit_absent_noop (id : string) (st : State) :
  id ∉ ids (experiences st) → onEdit id st = st.
Proof.
  intros Hid. unfold onEdit.
  change (find _ ?l) with (findById id l).
  by rewrite (proj2 (findById_None id _) Hid).
Qed.

Lemma work_onEdit_absent_noop_witness : onEdit "Z" oneRecord = oneRecord.
Proof.
  apply work_onEdit_absent_noop. by_compute.
Defined.

(** [onEdit] on the id of the record at position [k] of an array with
    distinct ids makes that id current, opens the modal and fills the six
    fields with the record's values, so that the data the form would
    submit is the record's own; the array and the errors are untouched. *)
Theorem work_onEdit_populates (st : State) (k : nat)
    (experience : WorkExperience.t) :
  NoDup (ids (experiences st)) →
  experiences st !! k = Some experience →
  currentId (onEdit (WorkExperience.id experience) st)
    = WorkExperience.id experience
  ∧ showModal (onEdit (WorkExperience.id experience) st) = true
  ∧ toFormData (values (form (onEdit (WorkExperience.id experience) st)))
    = dataOf experience
  ∧ errors (form (onEdit (WorkExperience.id experience) st)) = errors (form st)
  ∧ experiences (onEdit (WorkExperience.id experience) st) = experiences st
  ∧ effectPending (onEdit (WorkExperience.id experience) st) = effectPending st.
Proof.
  intros Hnd Hk. unfold onEdit.
  change (find _ ?l) with (findById (WorkExperience.id experience) l).
  rewrite (findById_lookup (WorkExperience.id experience) _ k experience
             Hnd Hk eq_refl).
  simpl.
  split_and!; try done. unfold toFormData, dataOf.
  f_equal; by js_simpl.
Qed.

Lemma work_onEdit_populates_witness :
  toFormData (values (form (onEdit "X" oneRecord))) = acme.
Proof.
  apply (work_onEdit_populates oneRecord 0 (withId "X" acme));
    [by_compute|done].
Defined.

(** ** Validation at the form element (lines 16-21 and 112) *)

Lemma work_schema_NoDup : NoDup schema.*1.
Proof. by_compute. Qed.

Lemma work_schema_AllRequired : AllRequired schema "Campo obrigatório".
Proof. repeat constructor. Qed.

Lemma work_validate_Complete (values : gmap string string) :
  validate schema values = ∅ ↔ Complete values.
Proof.
  apply (validate_all_required_empty schema "Campo obrigatório");
    [apply work_schema_NoDup | apply work_schema_AllRequired].
Qed.

Lemma work_formOnSubmit_valid (uuid : string) (st : State) :
  Complete (values (form st)) →
  formOnSubmit uuid st
  = onSubmit uuid (toFormData (values (form st)))
      (setForm {| values := values (form st); errors := ∅ |} st).
Proof.
  intros Hc. unfold formOnSubmit.
  destruct (handleSubmit _ _) as [data f|f] eqn:E.
  - by apply handleSubmit_Valid in E as (_ & -> & ->).
  - apply handleSubmit_Invalid in E as [Hne _].
    by apply work_validate_Complete in Hc.
Qed.

Lemma work_formOnSubmit_invalid (uuid : string) (st : State) :
  ¬ Complete (values (form st)) →
  formOnSubmit uuid st
  = setForm {| values := values (form st);
               errors := validate schema (values (form st)) |} st.
Proof.
  intros Hc. unfold formOnSubmit.
  destruct (handleSubmit _ _) as [data f|f] eqn:E.
  - apply handleSubmit_Valid in E as (He & _).
    by apply work_validate_Complete in He.
  - by apply handleSubmit_Invalid in E as [_ ->].
Qed.

Lemma work_calls_Complete (uuid : string) (st : State) :
  Complete (values (form st)) →
  calls (OnSubmit uuid) st = negb (truthy (currentId st)).
Proof.
  intros Hc. unfold calls. destruct (handleSubmit _ _) eqn:E; [done|].
  apply handleSubmit_Invalid in E as [Hne _].
  by apply work_validate_Complete in Hc.
Qed.

(** A submission with a blank required field changes nothing but the
    errors: the array, the modal, the current id and the typed values stay,
    no effect is scheduled, and the errors hold the fixed message for
    exactly the required fields that are blank. *)
Theorem work_submit_invalid_blocks (uuid : string) (st : State) :
  ¬ Complete (values (form st)) →
  experiences (formOnSubmit uuid st) = experiences st
  ∧ showModal (formOnSubmit uuid st) = showModal st
  ∧ currentId (formOnSubmit uuid st) = currentId st
  ∧ effectPending (formOnSubmit uuid st) = effectPending st
  ∧ values (form (formOnSubmit uuid st)) = values (form st)
  ∧ ∀ name m,
      errors (form (formOnSubmit uuid st)) !! name = Some m ↔
      name ∈ ["company"; "position"; "startDate"; "endDate"]
      ∧ field (values (form st)) name = "" ∧ m = "Campo obrigatório".
Proof.
  intros Hc. rewrite (work_formOnSubmit_invalid uuid st Hc). simpl.
  split_and!; try done. intros name m.
  apply (validate_all_required schema);
    [apply work_schema_NoDup | apply work_schema_AllRequired].
Qed.

Lemma work_submit_invalid_blocks_witness :
  experiences (formOnSubmit "X" companyOnly) = []
  ∧ showModal (formOnSubmit "X" companyOnly) = true
  ∧ errors (form (formOnSubmit "X" companyOnly)) !! "position"
    = Some "Campo obrigatório".
Proof.
  assert (¬ Complete (values (form companyOnly))) as Hc by by_compute.
  destruct (work_submit_invalid_blocks "X" companyOnly Hc)
    as (H1 & H2 & _ & _ & _ & H6).
  split_and!; [exact H1|exact H2|].
  apply H6. split_and!; [by_compute|reflexivity..].
Defined.

(** ** How one event changes the array *)

Lemma work_experiences_onSubmit (uuid : string) (data : FormData)
    (st : State) :
  experiences (onSubmit uuid data st)
  = if truthy (currentId st)
    then updateById (currentId st)
      (λ experience, withId (id_of experience) data)
           (experiences st)
    else experiences st ++ [withId uuid data].
Proof. unfold onSubmit. by destruct (truthy _). Qed.

Lemma work_experiences_onEdit (id : string) (st : State) :
  experiences (onEdit id st) = experiences st.
Proof. unfold onEdit. by destruct (find _ _). Qed.

Lemma work_experiences_dispatch (e : Event) (st : State) :
  experiences (dispatch e st)
  = match e with
    | OnDelete id => removeById id (experiences st)
    | OnSubmit uuid =>
        if decide (Complete (values (form st)))
        then experiences
               (onSubmit uuid (toFormData (values (form st))) st)
        else experiences st
    | _ => experiences st
    end.
Proof.
  destruct e as [|id| | | |uuid]; simpl; try done.
  - apply work_experiences_onEdit.
  - case_decide as Hc.
    + rewrite (work_formOnSubmit_valid _ _ Hc). unfold onSubmit. simpl.
      by destruct (truthy _).
    + by rewrite (work_formOnSubmit_invalid _ _ Hc).
Qed.

Lemma work_effectPending_dispatch (e : Event) (st : State) :
  effectPending (dispatch e st) = effectPending st || mutates e st.
Proof.
  destruct e as [|id| | | |uuid]; simpl; rewrite ?orb_false_r, ?orb_true_r;
    try done.
  - unfold onEdit. by destruct (find _ _).
  - case_bool_decide as Hc.
    + rewrite (work_formOnSubmit_valid _ _ Hc), orb_true_r.
      unfold onSubmit. by destruct (truthy _).
    + by rewrite (work_formOnSubmit_invalid _ _ Hc), orb_false_r.
Qed.

Lemma work_experiences_dispatch_quiet (e : Event) (st : State) :
  effectPending (dispatch e st) = false →
  experiences (dispatch e st) = experiences st.
Proof.
  rewrite work_effectPending_dispatch. intros [_ Hm]%orb_false_elim.
  rewrite work_experiences_dispatch.
  destruct e as [|id| | | |uuid]; simpl in *; try done.
  apply bool_decide_eq_false in Hm. by rewrite decide_False.
Qed.

(** ** The effect and the commit (lines 53-58) *)

Lemma work_experiences_commit (w : World) :
  experiences (component (commit self w)) = experiences (component w).
Proof.
  rewrite commit_component. by destruct (c_pending self (component w)).
Qed.

Lemma work_experiences_step (e : Event) (w : World) :
  experiences (component (step self e w))
  = experiences (dispatch e (component w)).
Proof. apply work_experiences_commit. Qed.

(** The render loop ends: with fuel for one commit or more it answers
    the world of the one commit, and committing again changes nothing, so
    the effect cannot feed itself through the context it writes. *)
Theorem work_commit_idempotent (fuel : nat) (w : World) :
  rerender self (S fuel) w = Some (commit self w)
  ∧ commit self (commit self w) = commit self w
  ∧ effectPending (component (commit self w)) = false.
Proof.
  split_and!; [apply (rerender_commit self)|apply (commit_idempotent self)|].
  apply (commit_quiet self).
Qed.

Lemma work_effectRan_dispatch (e : Event) (st : State) :
  effectRan (dispatch e (effectRan st)) = effectRan (dispatch e st).
Proof.
  destruct e as [|id| | | |uuid]; simpl; try done.
  - unfold onEdit. simpl. by destruct (find _ _).
  - unfold formOnSubmit. simpl. destruct (handleSubmit _ _); [|done].
    unfold onSubmit. simpl. by destruct (truthy _).
Qed.

(** What the component renders after any run is what its callbacks
    alone make of the state it started from: the commit resets the ghost
    flag and nothing else, no callback reads the flag, and what the effect
    writes to the context never comes back to the component. *)
Theorem work_render_by_handlers (es : list Event) (w : World) :
  render (component (run self es w))
  = render (foldl (λ st e, dispatch e st) (component w) es).
Proof.
  assert (∀ st, render st = render (effectRan st)) as Hr by done.
  rewrite Hr, (Hr (foldl _ _ _)). f_equal.
  by apply (run_alike self); [|apply work_effectRan_dispatch].
Qed.

(** After a commit, one event makes exactly one write to the context
    when its handler replaced the array (a deletion, or a submission that
    passed validation), and the value written is the array as the handler
    left it; any other event writes nothing.  The component is quiet again
    afterwards. *)
Theorem work_effect_exactly_on_mutation (e : Event) (w : World) :
  effectPending (component w) = false →
  context (step self e w)
  = (if mutates e (component w)
     then <["workExperience" :=
              VWorkExperience (experiences (component (step self e w)))]>
            (context w)
     else context w)
  ∧ effectPending (component (step self e w)) = false.
Proof.
  intros Hq. split; [|apply (step_quiet self)].
  rewrite work_experiences_step. unfold step.
  rewrite commit_context. simpl. by rewrite work_effectPending_dispatch, Hq.
Qed.

Lemma work_effect_exactly_on_mutation_witness :
  context (step self (OnDelete "X") {| component := oneRecord; context := ∅ |})
  = {["workExperience" := VWorkExperience []]}.
Proof.
  exact (proj1 (work_effect_exactly_on_mutation (OnDelete "X")
                  {| component := oneRecord; context := ∅ |} eq_refl)).
Defined.

Lemma work_Mirrors_dispatch (e : Event) (ctx : gmap string Value) (st : State) :
  effectPending st = false → Mirrors ctx st →
  effectPending (dispatch e st) = false → Mirrors ctx (dispatch e st).
Proof.
  unfold Mirrors. intros _ Hm Hq. by rewrite work_experiences_dispatch_quiet.
Qed.

(** Whatever the user does after the component mounted, the context
    holds the component's array: the sink mirrors the collection after
    every step. *)
Theorem work_sink_mirrors (ctx : gmap string Value) (es : list Event) :
  context (run self es (mount self ctx)) !! "workExperience"
  = Some (VWorkExperience
          (experiences (component (run self es (mount self ctx))))).
Proof.
  apply (run_synced self Mirrors); [|apply work_Mirrors_dispatch].
  intros c st. apply lookup_insert_eq.
Qed.

Lemma work_useEffect_frame (ctx : gmap string Value) (st : State) :
  sameOutside ["workExperience"] ctx (useEffect ctx st).
Proof. apply sameOutside_insert. by left. Qed.

(** The component writes one property of the context and no other:
    every other property is, after any run, what it was. *)
Theorem work_context_frame (es : list Event) (w : World) (k : string) :
  k ≠ "workExperience" → context (run self es w) !! k = context w !! k.
Proof.
  intros Hk.
  apply (run_frame self (sameOutside ["workExperience"])
           work_useEffect_frame es w).
  by intros ->%list_elem_of_singleton.
Qed.

Lemma work_context_frame_witness :
  context (run self [OnDelete "X"]
             {| component := oneRecord;
                context := {["email" := VString "a@b.c"]} |}) !! "email"
  = Some (VString "a@b.c").
Proof.
  by rewrite (work_context_frame [OnDelete "X"] _ "email" ltac:(done)).
Defined.

(** ** The size of the array *)

Lemma work_experiences_length_dispatch (e : Event) (st : State) :
  length (experiences (dispatch e st))
  ≤ length (experiences st) + grows e.
Proof.
  rewrite work_experiences_dispatch.
  destruct e as [|id|id| | |uuid]; unfold grows; try lia.
  - pose proof (length_removeById id (experiences st)). lia.
  - case_decide; [|lia]. rewrite work_experiences_onSubmit.
    destruct (truthy _); [rewrite length_updateById|rewrite length_app; simpl];
      lia.
Qed.

Lemma work_experiences_length_dispatch_lower (e : Event) (st : State) :
  NoDup (ids (experiences st)) →
  length (experiences st)
  ≤ length (experiences (dispatch e st)) + shrinks e.
Proof.
  intros Hnd. rewrite work_experiences_dispatch.
  destruct e as [|id|id| | |uuid]; unfold shrinks; try lia.
  - pose proof (length_removeById_NoDup id (experiences st) Hnd). lia.
  - case_decide; [|lia]. rewrite work_experiences_onSubmit.
    destruct (truthy _); [rewrite length_updateById|rewrite length_app]; lia.
Qed.

(** The array grows by one record per submission at most: after any
    sequence of events, from any world, it is longer than before by the
    number of submit events at most.  And it shrinks by one record per
    deletion at most: an event other than a deletion never shortens it,
    and a deletion removes one record at most when ids are distinct. *)
Theorem work_length_bounded (es : list Event) (e : Event) (w : World) :
  length (experiences (component (run self es w)))
  ≤ length (experiences (component w)) + sum_list (grows <$> es)
  ∧ (NoDup (ids (experiences (component w))) →
     length (experiences (component w))
     ≤ length (experiences (component (step self e w))) + shrinks e).
Proof.
  split.
  - apply (run_measure self (λ st, length (experiences st)) grows);
      [done|apply work_experiences_length_dispatch].
  - rewrite work_experiences_step. apply work_experiences_length_dispatch_lower.
Qed.

Lemma work_length_bounded_witness :
  length
    (experiences
       (component
          (run self (addRecord "X" acme ++ [OnSubmit "Y"; OnDelete "X"])
             (mount self ∅))))
  ≤ 0 + 2.
Proof.
  exact (proj1 (work_length_bounded
                  (addRecord "X" acme ++ [OnSubmit "Y"; OnDelete "X"])
                  OnAdd (mount self ∅))).
Defined.

(** ** Well-formed arrays in reachable worlds *)

Lemma work_Complete_ValidRecord (values : gmap string string) (i : string) :
  Complete values → ValidRecord (withId i (toFormData values)).
Proof.
  unfold Complete. rewrite !Forall_cons. by intros (? & ? & ? & ? & _).
Qed.

Lemma work_WellFormed_onSubmit (uuid : string) (values : gmap string string)
    (st : State) :
  uuid ≠ "" → uuid ∉ ids (experiences st) → Complete values →
  WellFormed (experiences st) →
  WellFormed (experiences (onSubmit uuid (toFormData values) st)).
Proof.
  intros Hne Hfresh Hc [Hwf Hvalid]. rewrite work_experiences_onSubmit.
  destruct (truthy _); split.
  - apply wf_ids_updateById; [apply work_withId_keeps_id|done].
  - apply Forall_updateById; [|done]. intros.
    by apply work_Complete_ValidRecord.
  - by apply wf_ids_snoc.
  - apply Forall_app. split; [done|].
    apply Forall_singleton. by apply work_Complete_ValidRecord.
Qed.

Lemma work_WellFormed_dispatch (e : Event) (st : State) :
  fresh e st → WellFormed (experiences st) →
  WellFormed (experiences (dispatch e st)).
Proof.
  intros Hf Hwf. rewrite work_experiences_dispatch.
  destruct e as [|id|id| | |uuid]; try done.
  - destruct Hwf. split; [by apply wf_ids_removeById|by apply Forall_filter].
  - destruct Hf. case_decide; [by apply work_WellFormed_onSubmit|done].
Qed.

Lemma work_reachable_WellFormed ctx w :
  reachable self fresh ctx w → WellFormed (experiences (component w)).
Proof.
  apply (reachable_invariant self
         (λ w, WellFormed (experiences (component w)))).
  - split; [apply wf_ids_nil|apply Forall_nil_2].
  - intros e w' _ Hf IH. rewrite work_experiences_step.
    by apply work_WellFormed_dispatch.
Qed.

(** In every reachable world the ids of the array are distinct and
    none is the empty string, as long as the identifiers the generator
    returns are fresh and non-empty. *)
Theorem work_reachable_ids_distinct ctx w :
  reachable self fresh ctx w →
  NoDup (ids (experiences (component w)))
  ∧ Forall (λ experience, WorkExperience.id experience ≠ "")
    (experiences (component w)).
Proof.
  intros Hr. by destruct (work_reachable_WellFormed ctx w Hr) as [[? ?] _].
Qed.

Lemma work_reachable_ids_distinct_witness :
  NoDup (ids (experiences
              (component (run self (addRecord "X" acme) (mount self ∅))))).
Proof.
  refine (proj1 (work_reachable_ids_distinct ∅ _ _)).
  apply reachable_run; [constructor|by_compute].
Defined.

(** In every reachable world every stored record satisfies the
    schema: its company, position, start date and end date are non-blank,
    whether it was added or edited. *)
Theorem work_reachable_records_valid ctx w :
  reachable self fresh ctx w → Forall ValidRecord (experiences (component w)).
Proof.
  intros Hr. by destruct (work_reachable_WellFormed ctx w Hr) as [_ ?].
Qed.

Lemma work_reachable_records_valid_witness :
  Forall ValidRecord
    (experiences (component (run self (addRecord "X" acme) (mount self ∅)))).
Proof.
  apply (work_reachable_records_valid ∅).
  apply reachable_run; [constructor|by_compute].
Defined.

(** ** Editing a record and submitting it *)

Lemma work_onEdit_found (st : State) (k : nat) (experience : WorkExperience.t) :
  NoDup (ids (experiences st)) →
  experiences st !! k = Some experience →
  onEdit (WorkExperience.id experience) st
  = {| form :=
         {| values :=
              <["summary" := WorkExperience.summary experience]>
                (<["endDate" := WorkExperience.endDate experience]>
                   (<["startDate" := WorkExperience.startDate experience]>
                      (<["website" := WorkExperience.website experience]>
                         (<["position" := WorkExperience.position experience]>
                            (<["company" := WorkExperience.company experience]>
                               (values (form st)))))));
            errors := errors (form st) |};
       showModal := true;
       currentId := WorkExperience.id experience;
       experiences := experiences st;
       effectPending := effectPending st |}.
Proof.
  intros Hnd Hk. unfold onEdit.
  change (find _ ?l) with (findById (WorkExperience.id experience) l).
  by rewrite (findById_lookup (WorkExperience.id experience) _ k experience
                Hnd Hk eq_refl).
Qed.

Lemma work_Complete_onEdit (st : State) (k : nat)
    (experience : WorkExperience.t) :
  NoDup (ids (experiences st)) →
  experiences st !! k = Some experience → ValidRecord experience →
  Complete (values (form (onEdit (WorkExperience.id experience) st))).
Proof.
  intros Hnd Hk (Hc & Hp & Hs & He).
  rewrite (work_onEdit_found st k experience Hnd Hk).
  unfold Complete, schema. simpl. repeat constructor; by js_simpl.
Qed.

(** Opening a stored record for editing and submitting the form as
    it was filled leaves the array as it was: what [onEdit] writes into the
    fields passes the schema and is read back as the record's own data. *)
Theorem work_edit_then_submit_unchanged (st : State) (k : nat)
    (experience : WorkExperience.t) (uuid : string) :
  NoDup (ids (experiences st)) →
  experiences st !! k = Some experience →
  WorkExperience.id experience ≠ "" → ValidRecord experience →
  experiences (formOnSubmit uuid (onEdit (WorkExperience.id experience) st))
  = experiences st.
Proof.
  intros Hnd Hk Hid Hv.
  rewrite (work_formOnSubmit_valid _ _
           (work_Complete_onEdit st k experience Hnd Hk Hv)).
  rewrite work_experiences_onSubmit, (work_onEdit_found st k experience Hnd Hk).
  simpl. rewrite (truthy_ne _ Hid).
  rewrite (updateById_insert _ _ _ k experience Hnd Hk eq_refl).
  unfold toFormData. js_simpl. destruct experience. by apply list_insert_id.
Qed.

Lemma work_edit_then_submit_unchanged_witness :
  experiences (formOnSubmit "Y" (onEdit "X" oneRecord))
  = experiences oneRecord.
Proof.
  apply (work_edit_then_submit_unchanged oneRecord 0 (withId "X" acme));
    [by_compute|done|done|by_compute].
Defined.

(** ** Where the component departs from the edit controller *)

(** C31. Closing the modal keeps the current id, and the add button does
    not clear it.  So after "edit a record, close, add", the modal that
    opens is blank but still targets the record: a valid submission
    overwrites that record in place instead of appending a new one, and
    the array does not grow. *)
Theorem work_add_after_cancelled_edit_overwrites (st : State) (k : nat)
    (experience : WorkExperience.t) (uuid : string) (data : FormData) :
  NoDup (ids (experiences st)) →
  experiences st !! k = Some experience →
  WorkExperience.id experience ≠ "" →
  currentId (dispatch OnAdd
             (closeModal (onEdit (WorkExperience.id experience) st)))
    = WorkExperience.id experience
  ∧ form (dispatch OnAdd
          (closeModal (onEdit (WorkExperience.id experience) st)))
    = useForm
  ∧ experiences
      (onSubmit uuid data
         (dispatch OnAdd
          (closeModal (onEdit (WorkExperience.id experience) st))))
    = <[k := withId (WorkExperience.id experience) data]> (experiences st).
Proof.
  intros Hnd Hk Hid. rewrite (work_onEdit_found st k experience Hnd Hk).
  split_and!; [done..|]. rewrite work_experiences_onSubmit. simpl.
  rewrite (truthy_ne _ Hid).
  by rewrite (updateById_insert _ _ _ k experience Hnd Hk eq_refl).
Qed.

Lemma work_add_after_cancelled_edit_overwrites_witness :
  experiences
    (onSubmit "Y" acmeLead
       (dispatch OnAdd (closeModal (onEdit "X" oneRecord))))
  = [withId "X" acmeLead].
Proof.
  apply (work_add_after_cancelled_edit_overwrites oneRecord 0
           (withId "X" acme) "Y" acmeLead); [by_compute|done..].
Defined.

(** A submission whose target no longer exists is dropped: with a
    current id that no record carries (the record was deleted while it was
    being edited), [onSubmit] leaves the array as it is, discards
    the data, clears the current id and closes the modal. *)
Theorem work_stale_edit_drops_submission (uuid : string) (data : FormData)
    (st : State) :
  currentId st ≠ "" → currentId st ∉ ids (experiences st) →
  experiences (onSubmit uuid data st) = experiences st
  ∧ currentId (onSubmit uuid data st) = ""
  ∧ showModal (onSubmit uuid data st) = false
  ∧ form (onSubmit uuid data st) = useForm.
Proof.
  intros Hcur Hstale. split_and!.
  - rewrite work_experiences_onSubmit, (truthy_ne _ Hcur).
    by apply updateById_absent.
  - unfold onSubmit. by rewrite (truthy_ne _ Hcur).
  - unfold onSubmit. by destruct (truthy _).
  - unfold onSubmit. by destruct (truthy _).
Qed.

Lemma work_stale_edit_drops_submission_witness :
  experiences
    (onSubmit "Y" acmeLead (deleteNetwork "X" (onEdit "X" oneRecord)))
  = [].
Proof.
  exact (proj1 (work_stale_edit_drops_submission "Y" acmeLead
                  (deleteNetwork "X" (onEdit "X" oneRecord))
                  ltac:(by_compute) ltac:(by_compute))).
Defined.

(** The empty string cannot serve as an id: a record that carries it
    can be opened for editing, but the submission takes the branch without
    a current id and appends a second record instead of replacing the
    first. *)
Theorem work_empty_id_edit_appends (st : State) (k : nat)
    (experience : WorkExperience.t) (uuid : string) (data : FormData) :
  NoDup (ids (experiences st)) →
  experiences st !! k = Some experience → WorkExperience.id experience = "" →
  showModal (onEdit "" st) = true
  ∧ experiences (onSubmit uuid data (onEdit "" st))
    = experiences st ++ [withId uuid data].
Proof.
  intros Hnd Hk Hid. rewrite <- Hid at 1 2.
  rewrite (work_onEdit_found st k experience Hnd Hk). split; [done|].
  rewrite work_experiences_onSubmit. simpl. by rewrite Hid.
Qed.

Lemma work_empty_id_edit_appends_witness :
  experiences
    (onSubmit "Y" acmeLead
       (onEdit "" (setExperiences [withId "" acme] initialState)))
  = [withId "" acme; withId "Y" acmeLead].
Proof.
  apply (work_empty_id_edit_appends
           (setExperiences [withId "" acme] initialState) 0
           (withId "" acme) "Y" acmeLead); [by_compute|done..].
Defined.

(** ** What the render shows (lines 100-169) *)

(** The label of the submit button tells what a valid submission
    does: under "add" the array grows by one record, under "update" its
    length is unchanged; and the label is one of the two. *)
Theorem work_label_predicts_submit (uuid : string) (data : FormData)
    (st : State) :
  (submitLabel st = Some (FormattedMessage "global.add")
   ∧ length (experiences (onSubmit uuid data st))
     = S (length (experiences st)))
  ∨ (submitLabel st = Some (FormattedMessage "global.update")
     ∧ length (experiences (onSubmit uuid data st))
       = length (experiences st)).
Proof.
  rewrite work_experiences_onSubmit. unfold submitLabel. simpl.
  unfold ternary. destruct (truthy _); [right|left]; split; try done.
  - apply length_updateById.
  - rewrite length_app. simpl. lia.
Qed.

(** After a submission that failed validation the render shows the
    fixed message under exactly the inputs of the required fields that are
    blank, and nothing under the others; the text area never shows one. *)
Theorem work_render_shows_errors (uuid : string) (st : State) :
  ¬ Complete (values (form st)) →
  Forall
    (λ input,
       Input.error input
       = if decide (Input.name input ∈
                    ["company"; "position"; "startDate"; "endDate"]
                    ∧ field (values (form st)) (Input.name input) = "")
         then Some "Campo obrigatório" else None)
    (Modal.content (renderModal (formOnSubmit uuid st))).
Proof.
  intros Hc. rewrite (work_formOnSubmit_invalid uuid st Hc). simpl.
  unfold errorMessage. simpl.
  repeat constructor; simpl;
    (apply (validate_all_required_decide schema "Campo obrigatório");
     [apply work_schema_NoDup|apply work_schema_AllRequired]).
Qed.

Lemma work_render_shows_errors_witness :
  Forall
    (λ input,
       Input.error input
       = if decide (Input.name input ∈
                    ["company"; "position"; "startDate"; "endDate"]
                    ∧ field (values (form companyOnly)) (Input.name input) = "")
         then Some "Campo obrigatório" else None)
    (Modal.content (renderModal (formOnSubmit "X" companyOnly))).
Proof. apply work_render_shows_errors. by_compute. Defined.

(** The header of the modal and the submit button name the same
    action: both read the current id, so the header says "update" exactly
    when a valid submission would replace a record. *)
Theorem work_header_follows_session (st : State) :
  head (Modal.header (renderModal st)) = submitLabel st
  ∧ (currentId st = "" ↔
     submitLabel st = Some (FormattedMessage "global.add")).
Proof.
  unfold submitLabel. simpl. unfold ternary. split; [done|].
  case_truthy; simpl; split; try done; intros; simplify_eq.
Qed.

Lemma work_website_not_flagged (uuid : string) (st : State) :
  errorMessage (form (formOnSubmit uuid st)) "website" = None.
Proof.
  unfold errorMessage.
  destruct (decide (Complete (values (form st)))) as [Hc|Hc].
  - rewrite (work_formOnSubmit_valid _ _ Hc). unfold onSubmit.
    by destruct (truthy _).
  - rewrite (work_formOnSubmit_invalid _ _ Hc). simpl.
    by rewrite (validate_all_required_decide schema "Campo obrigatório" _ _
                  work_schema_NoDup work_schema_AllRequired).
Qed.

(** C32. The names of the fields are written as strings in the schema, in
    the [register] calls of the inputs and in what the handler reads of
    the submitted data.  They agree: the inputs register six distinct
    names; every rule of the schema is for a registered field, whose
    input shows the error of that field; and the data handed to the
    handler is made of the registered fields, each of which counts.  One
    wire leads nowhere: the website input reads an error of the form
    state, but the schema has no rule for that field, so that whatever was
    typed a submission leaves the input without a message. *)
Theorem work_fields_wired (uuid : string) (st : State) :
  let inputs := Modal.content (renderModal st) in
  Input.name <$> inputs
  = ["company"; "position"; "website"; "startDate"; "endDate"; "summary"]
  ∧ schema.*1 ⊆ Input.name <$> inputs
  ∧ Forall (λ input,
       Input.name input ∈ schema.*1 →
       Input.error input = errorMessage (form st) (Input.name input)) inputs
  ∧ (∀ values values', toFormData values = toFormData values'
       ↔ Forall (λ name, field values name = field values' name)
           (Input.name <$> inputs))
  ∧ ("website" ∉ schema.*1)
  ∧ Forall (λ input, Input.name input ∉ schema.*1 → Input.error input = None)
      (Modal.content (renderModal (formOnSubmit uuid st))).
Proof.
  split_and!; [done|by_compute| | |by_compute|].
  - repeat (apply Forall_cons; split); try apply Forall_nil_2; simpl; try done.
    intros Hin. by apply (bool_decide_pack _) in Hin.
  - intros values values'. simpl. rewrite !Forall_cons, Forall_nil.
    unfold toFormData. split; [intros [=]; by split_and!|].
    by intros (-> & -> & -> & -> & -> & -> & _).
  - repeat (apply Forall_cons; split); try apply Forall_nil_2; simpl;
      try done; try (intros []; by_compute).
    intros _. apply work_website_not_flagged.
Qed.

(** ** A closed modal has a blank form *)

Lemma work_ClosedBlank_dispatch (e : Event) (st : State) :
  offered e st → ClosedBlank st → ClosedBlank (dispatch e st).
Proof.
  unfold ClosedBlank. destruct e as [|id|id| |name value|uuid]; simpl;
    try done.
  - intros _ Hst. unfold onEdit. by destruct (find _ _).
  - by intros [-> _].
  - intros Hshow _. destruct (decide (Complete (values (form st)))) as [Hc|Hc].
    + rewrite (work_formOnSubmit_valid _ _ Hc). intros _.
      unfold onSubmit. by destruct (truthy _).
    + rewrite (work_formOnSubmit_invalid _ _ Hc). simpl. congruence.
Qed.

Lemma work_ClosedBlank_step (e : Event) (w : World) :
  offered e (component w) → ClosedBlank (component w) →
  ClosedBlank (component (step self e w)).
Proof.
  intros Ho Hw. unfold step. rewrite commit_component. simpl.
  destruct (effectPending _); by apply work_ClosedBlank_dispatch.
Qed.

(** In every world reached through events the render offers, a
    closed modal has a blank form: no typed value and no error survives a
    close or a successful submission, so the modal the add button opens
    starts blank although the add callback resets nothing. *)
Theorem work_closed_modal_blank ctx w :
  reachable self offered ctx w →
  showModal (component w) = false → form (component w) = useForm.
Proof.
  apply (reachable_invariant self (λ w, ClosedBlank (component w))); [done|].
  intros e w' _. apply work_ClosedBlank_step.
Qed.

Lemma work_closed_modal_blank_witness :
  form (component
    (run self [OnAdd; OnChange "company" "a"; OnSubmit "X"; OnCloseModal]
     (mount self ∅)))
  = useForm.
Proof.
  apply (work_closed_modal_blank ∅); [|by_compute].
  apply reachable_run; [constructor|by_compute].
Defined.

(** ** The scenario of the specification, run *)

(** Start empty; add a position at Acme; edit it into the lead
    position; delete it.  The arrays along the way are the ones expected:
    one record under the fresh id, then the same id at the same place with
    the new data, then none; the context holds the last one. *)
Theorem work_end_to_end :
  let w1 := run self (addRecord "X" acme) (mount self ∅) in
  let w2 := run self ([OnEdit "X"] ++ typed acmeLead ++ [OnSubmit "Y"]) w1 in
  let w3 := run self [OnDelete "X"] w2 in
  experiences (component w1) = [withId "X" acme]
  ∧ experiences (component w2) = [withId "X" acmeLead]
  ∧ experiences (component w3) = []
  ∧ context w3 !! "workExperience" = Some (VWorkExperience []).
Proof. vm_compute. by split_and!. Qed.

End WorkExperienceForm.
