(* ===== verification/ContactForm.v ===== *)
(** * The contact form

    [src/components/FormSidebar/ContactForm/index.tsx], component
    [ContactForm]: three controlled inputs over one state object, and an
    effect that copies the three properties into the resume context each
    time the object is replaced.  There is no modal, no schema and no
    array here.  The state object is a JavaScript object, a finite map: the
    handler writes it under a computed key, the name of the input that
    raised the event.  The file has the model first (state, change event,
    effect, handler, JSX as data, the component as React sees it), then the
    vocabulary of the statements, then the theorems. *)

From stdpp Require Import base decidable option list strings gmap.
From S2P Require Import Prelude Intl Components React ResumeContext.

#[local] Open Scope js_scope.

Module ContactForm.

(** ** State (lines 8-13)

    The one [useState] cell.  [effectPending] is ghost: [setState] is
    always given a new object, so every call changes the dependency of the
    effect of lines 15-22. *)

Record State := {
  state : gmap string string;
  effectPending : bool;
}.

Definition initialState : State :=
  {| state := <["phoneNumber" := ""]> (<["website" := ""]>
                (<["email" := ""]> ∅));
     effectPending := true |}.

Definition setState (next : gmap string string) (st : State) : State :=
  {| state := next; effectPending := true |}.

(** ** The change event (lines 24-26)

    What the handler reads of a [ChangeEvent<HTMLInputElement>]. *)

Record Target := {
  name : string;
  value : string;
}.

Record ChangeEvent := {
  target : Target;
}.

#[global] Instance Target_eq_dec : EqDecision Target.
Proof. solve_decision. Defined.

#[global] Instance ChangeEvent_eq_dec : EqDecision ChangeEvent.
Proof. solve_decision. Defined.

(** ** The effect (lines 15-22) *)

Definition useEffect (contextState : gmap string Value) (st : State) :
    gmap string Value :=
  updateState
    (<["email" := VString (field (state st) "email")]>
       (<["website" := VString (field (state st) "website")]>
          (<["phoneNumber" := VString (field (state st) "phoneNumber")]>
             contextState)))
    contextState.

(** ** The handler (lines 24-32) *)

Definition handleChange (event : ChangeEvent) (st : State) : State :=
  let name := name (target event) in
  let value := value (target event) in
  st |> setState (<[name := value]> (state st)).

(** ** Events and render (lines 34-58)

    The only callback is [onChange={handleChange}].  An input raises the
    change event whose target is itself: its own name and what was
    typed. *)

Inductive Event :=
  | OnChange (event : ChangeEvent).

#[global] Instance Event_eq_dec : EqDecision Event.
Proof. solve_decision. Defined.

Definition dispatch (e : Event) (st : State) : State :=
  match e with
  | OnChange event => handleChange event st
  end.

Definition render (st : State) : list (Input.Props Event) :=
  [ {| Input.element := "Input"; Input.type := "text";
       Input.label := formatMessage "sidebar.form.contact.phoneNumber";
       Input.name := "phoneNumber";
       Input.value := Some (field (state st) "phoneNumber");
       Input.error := None;
       Input.onChange := λ typed,
         OnChange {| target :=
                   {| name := "phoneNumber"; value := typed |} |} |};
    {| Input.element := "Input"; Input.type := "text";
       Input.label := formatMessage "sidebar.form.contact.website";
       Input.name := "website";
       Input.value := Some (field (state st) "website");
       Input.error := None;
       Input.onChange := λ typed,
         OnChange {| target := {| name := "website"; value := typed |} |} |};
    {| Input.element := "Input"; Input.type := "email";
       Input.label := formatMessage "sidebar.form.contact.email";
       Input.name := "email";
       Input.value := Some (field (state st) "email");
       Input.error := None;
       Input.onChange := λ typed,
         OnChange {| target := {| name := "email"; value := typed |} |} |} ].

(** ** The component (lines 6-22)

    What React sees of [ContactForm]: its initial state, its callback, and
    the effect with its dependency [state]. *)

Definition effectRan (st : State) : State :=
  {| state := state st; effectPending := false |}.

Definition self : Component (gmap string Value) State Event :=
  {| c_initial := initialState;
     c_handle := dispatch;
     c_pending := effectPending;
     c_settle := effectRan;
     c_effect := useEffect |}.

#[global] Instance self_lawful : Lawful self.
Proof. intros st. reflexivity. Qed.

#[global] Instance self_mounts_pending : MountsPending self.
Proof. reflexivity. Qed.

(** * Vocabulary of the statements *)

Abbreviation World := (React.World (gmap string Value) State).

(** The properties of the state object, which are the names of the inputs
    and the properties of the context the component owns. *)
Definition fields : list string := ["phoneNumber"; "website"; "email"].

(** The change events the rendered inputs raise: one of them, with
    anything typed. *)
Definition offered (e : Event) (st : State) : Prop :=
  match e with
  | OnChange event =>
      e ∈ (λ input, Input.onChange input (value (target event))) <$> render st
  end.

#[global] Instance offered_dec e st : Decision (offered e st).
Proof. destruct e; simpl; apply _. Defined.

(** The state object has the three properties and no other. *)
Definition Shaped (st : State) : Prop :=
  dom (state st) = list_to_set fields.

(** What the effect maintains: the context holds the three values. *)
Definition Mirrors (ctx : gmap string Value) (st : State) : Prop :=
  ∀ k, k ∈ fields → ctx !! k = Some (VString (field (state st) k)).

#[global] Instance Mirrors_dec ctx st : Decision (Mirrors ctx st).
Proof.
  refine (cast_if (decide (Forall (λ k, ctx !! k
                                        = Some (VString (field (state st) k)))
                             fields)));
    unfold Mirrors; by rewrite <- Forall_forall.
Defined.

(** What the inputs display. *)
Definition shown (st : State) : list (option string) :=
  Input.value <$> render st.

(** ** Concrete inputs used by the witnesses *)

Definition change (name value : string) : Event :=
  OnChange {| target := {| name := name; value := value |} |}.

Definition typedEmail : State :=
  dispatch (change "email" "ada@example.org") (effectRan initialState).

(** * Theorems *)

(** ** The handler (lines 24-32) *)

Lemma contact_offered_name (event : ChangeEvent) (st : State) :
  offered (OnChange event) st ↔ name (target event) ∈ fields.
Proof.
  destruct event as [[n v]]. unfold offered, fields. simpl.
  rewrite !elem_of_cons, !elem_of_nil. split.
  - intros [?|[?|[?|[]]]]; simplify_eq; auto.
  - intros [->|[->|[->|[]]]]; auto.
Qed.

(** C33. [handleChange] sets the property named by the event's target to
    the typed value and leaves every other property of the state object
    as it was; the effect is scheduled. *)
Theorem contact_handleChange_sets (event : ChangeEvent) (st : State) :
  state (handleChange event st) !! name (target event)
    = Some (value (target event))
  ∧ (∀ k, k ≠ name (target event) →
       state (handleChange event st) !! k = state st !! k)
  ∧ effectPending (handleChange event st) = true.
Proof.
  unfold handleChange. simpl. split_and!; [|intros k Hk|done].
  - apply lookup_insert_eq.
  - by apply lookup_insert_ne.
Qed.

(** Typing again into the same input keeps the last value only. *)
Lemma contact_handleChange_last_wins (e1 e2 : ChangeEvent) (st : State) :
  name (target e1) = name (target e2) →
  handleChange e2 (handleChange e1 st) = handleChange e2 st.
Proof.
  intros Hn. unfold handleChange, setState. simpl. f_equal.
  rewrite Hn. apply insert_insert_eq.
Qed.

(** Changes of two different inputs commute. *)
Lemma contact_handleChange_comm (e1 e2 : ChangeEvent) (st : State) :
  name (target e1) ≠ name (target e2) →
  handleChange e2 (handleChange e1 st) = handleChange e1 (handleChange e2 st).
Proof.
  intros Hn. unfold handleChange, setState. simpl. f_equal.
  by apply insert_insert_ne.
Qed.

(** ** The shape of the state object *)

Lemma contact_Shaped_initial : Shaped initialState.
Proof. by_compute. Qed.

Lemma contact_Shaped_dispatch (e : Event) (st : State) :
  offered e st → Shaped st → Shaped (dispatch e st).
Proof.
  destruct e as [event]. rewrite contact_offered_name. unfold Shaped.
  intros Hin Hst.
  change (state (dispatch (OnChange event) st))
    with (<[name (target event) := value (target event)]> (state st)).
  rewrite dom_insert_L, Hst.
  apply subseteq_union_1_L, singleton_subseteq_l.
  by apply elem_of_list_to_set.
Qed.

Lemma contact_state_commit (w : World) :
  state (component (commit self w)) = state (component w).
Proof.
  rewrite commit_component. by destruct (c_pending self (component w)).
Qed.

Lemma contact_state_step (e : Event) (w : World) :
  state (component (step self e w)) = state (dispatch e (component w)).
Proof. apply contact_state_commit. Qed.

(** C35. Under the events the inputs raise, the state object keeps its
    shape: it has the three properties [phoneNumber], [website] and
    [email] and no other, so no input ever reads an unset property. *)
Theorem contact_state_keeps_shape ctx w :
  reachable self offered ctx w →
  dom (state (component w)) = list_to_set fields
  ∧ Forall (λ input, is_Some (state (component w) !! Input.name input))
      (render (component w)).
Proof.
  intros Hr.
  assert (Shaped (component w)) as Hs.
  { apply (reachable_invariant self (λ w, Shaped (component w)) offered ctx w);
      [apply contact_Shaped_initial| |done].
    intros e w' _ Ho Hw. unfold Shaped. rewrite contact_state_step.
    by apply contact_Shaped_dispatch. }
  split; [done|].
  repeat constructor; simpl; apply elem_of_dom; rewrite Hs; by_compute.
Qed.

Lemma contact_state_keeps_shape_witness :
  dom (state (component
    (run self [change "email" "a"; change "website" "b"] (mount self ∅))))
  = list_to_set fields.
Proof.
  refine (proj1 (contact_state_keeps_shape ∅ _ _)).
  apply reachable_run; [constructor|by_compute].
Defined.

(** ** The inputs are controlled *)

(** What is typed into an input is what that input shows at the next
    render, and the other inputs show what they showed. *)
Theorem contact_input_shows_typed (st : State) (i : nat)
    (input : Input.Props Event) (typed : string) :
  render st !! i = Some input →
  shown (dispatch (Input.onChange input typed) st)
  = <[i := Some typed]> (shown st).
Proof.
  intros Hi. unfold shown.
  destruct i as [|[|[|i]]]; simpl in Hi; simplify_eq; simpl;
    unfold field; by simpl_map.
Qed.

Lemma contact_input_shows_typed_witness :
  shown typedEmail = [Some ""; Some ""; Some "ada@example.org"].
Proof.
  exact (contact_input_shows_typed (effectRan initialState) 2 _
           "ada@example.org" eq_refl).
Defined.

(** ** The effect and the context (lines 15-22) *)

Lemma contact_Mirrors_effect (ctx : gmap string Value) (st : State) :
  Mirrors (useEffect ctx st) (effectRan st).
Proof.
  intros k. unfold fields. rewrite !elem_of_cons, elem_of_nil.
  unfold useEffect, updateState. simpl.
  intros [->|[->|[->|[]]]]; by simpl_map.
Qed.

(** C34. Whatever the user types after the component mounted, the context
    holds the three values of the state object: the sink mirrors the form
    after every step. *)
Theorem contact_sink_mirrors (ctx : gmap string Value) (es : list Event)
    (k : string) :
  k ∈ fields →
  context (run self es (mount self ctx)) !! k
  = Some (VString (field (state (component (run self es (mount self ctx)))) k)).
Proof.
  revert k. apply (run_synced self Mirrors contact_Mirrors_effect).
  intros e c st _ _ Hq. by destruct e.
Qed.

Lemma contact_sink_mirrors_witness :
  context (run self [change "email" "ada@example.org"] (mount self ∅))
    !! "email"
  = Some (VString "ada@example.org").
Proof.
  exact (contact_sink_mirrors ∅ [change "email" "ada@example.org"] "email"
           ltac:(by_compute)).
Defined.

Lemma contact_useEffect_frame (ctx : gmap string Value) (st : State) :
  sameOutside fields ctx (useEffect ctx st).
Proof.
  intros k Hk. unfold useEffect, updateState.
  rewrite !lookup_insert_ne; [done|intros <-; apply Hk; by_compute..].
Qed.

(** The component writes its three properties of the context and no
    other: every other property is, after any run, what it was. *)
Theorem contact_context_frame (es : list Event) (w : World) (k : string) :
  k ∉ fields → context (run self es w) !! k = context w !! k.
Proof.
  apply (run_frame self (sameOutside fields) contact_useEffect_frame es w).
Qed.

Lemma contact_context_frame_witness :
  context (run self [change "email" "a"]
             {| component := effectRan initialState;
                context := {["certifications" := VCertifications []]} |})
    !! "certifications"
  = Some (VCertifications []).
Proof.
  by rewrite (contact_context_frame [change "email" "a"] _ "certifications"
                ltac:(by_compute)).
Defined.

(** Every change event writes the context, whether or not the value
    differs from the one held: the handler always passes a new object to
    [setState], so the effect runs after each keystroke, and what it
    writes is the state the handler left. *)
Theorem contact_effect_each_change (e : Event) (w : World) :
  context (step self e w) = useEffect (context w) (dispatch e (component w))
  ∧ effectPending (component (step self e w)) = false.
Proof.
  split; [|apply (step_quiet self)].
  unfold step. rewrite commit_context. simpl. by destruct e.
Qed.

(** ** A session, run *)

(** Mount on an empty context, type a phone number, an address, then
    correct the phone number: the state object and the context hold the
    last value of each field. *)
Theorem contact_end_to_end :
  let w := run self [change "phoneNumber" "555"; change "email" "a@b.c";
                     change "phoneNumber" "556"] (mount self ∅) in
  shown (component w) = [Some "556"; Some ""; Some "a@b.c"]
  ∧ context w
    = <["phoneNumber" := VString "556"]>
        (<["website" := VString ""]> (<["email" := VString "a@b.c"]> ∅)).
Proof. split; vm_compute; reflexivity. Qed.

End ContactForm.
