(* ===== verification/Refinement.v ===== *)
(** * The list forms implement the controller

    Each list form is mapped, state by state and event by event, onto its
    instance of the pattern of [ListForm.v], and proved to be that
    instance: a morphism of components, so the form and the pattern have
    the same runs.  With it the refinement proved of the pattern holds of
    the form as the sources write it: on [good] events the form is the
    specification's controller, operation by operation and output by
    output, and its records have the life section 3 of the
    specification gives them and keep their order.  The records of a form
    become records of the specification by listing their fields under
    their names. *)

From stdpp Require Import base decidable option list strings gmap.
From S2P Require Import Prelude Collection Yup HookForm React Uuid.
From S2P Require Import ResumeContext.
From S2P Require Import Controller ListForm CertificationsForm.
From S2P Require Import WorkExperienceForm.

#[local] Open Scope js_scope.

(** ** What an instance of the pattern inherits

    A component that is mapped onto an instance of the pattern by a
    morphism has the runs of the pattern, and with them what
    [ListForm.v] proves of the pattern. *)

Section instance.
Context {St Ev R : Type} `{HasId R}.
Context (C : Component (gmap string Value) St Ev) (P : ListForm.Pattern R).
Context (proj : St → ListForm.State R) (ev : Ev → ListForm.Event).
Context (morphism : Morphism C (ListForm.component P) proj ev).
Implicit Types (es : list Ev) (w : World (gmap string Value) St).

Lemma instance_implements ctx es :
  onWorld proj (run C es (mount C ctx))
  = run (ListForm.component P) (ev <$> es) (mount (ListForm.component P) ctx).
Proof.
  rewrite (morphism_run _ _ proj ev morphism).
  by rewrite (morphism_mount _ _ proj ev morphism).
Qed.

Lemma instance_items es w :
  ListForm.items (proj (component (run C es w)))
  = ListForm.items
      (component (run (ListForm.component P) (ev <$> es) (onWorld proj w))).
Proof. by rewrite <- (morphism_run _ _ proj ev morphism). Qed.

(** The life of the records of the component is the life of the records
    of the pattern: where they come from, where they go, and the order
    they keep. *)
Lemma instance_life es w :
  (∀ i values, id_of (ListForm.p_build P i values) = i) →
  let before := ListForm.items (proj (component w)) in
  let after := ListForm.items (proj (component (run C es w))) in
  ids after ⊆ ids before ++ ListForm.uuids (ev <$> es)
  ∧ (∀ i, i ∈ ids before → i ∉ ids after →
       i ∈ ListForm.deletions (ev <$> es))
  ∧ (ListForm.uuids (ev <$> es) = [] → after `sublist_of` before)
  ∧ (ListForm.deletions (ev <$> es) = [] → ids before `prefix_of` ids after)
  ∧ (Forall (.∉ ids before) (ListForm.uuids (ev <$> es)) →
     filter (.∈ ids before) (ids after) `sublist_of` ids before).
Proof.
  intros Hid before after. subst before after. rewrite instance_items.
  split_and!.
  - apply (ListForm.created P Hid _ (onWorld proj w)).
  - apply (ListForm.destroyed P Hid _ (onWorld proj w)).
  - apply (ListForm.untouched P _ (onWorld proj w)).
  - apply (ListForm.places P Hid _ (onWorld proj w)).
  - intros Hnew. etrans; [by apply (ListForm.order_stable P Hid)|].
    apply sublist_filter.
Qed.

(** The component uses the identifier generator as the pattern does. *)
Lemma instance_appends (U : Usage St Ev) :
  (∀ i values, id_of (ListForm.p_build P i values) = i) →
  (∀ i e, ev (u_stamp U i e) = ListForm.stamp i (ev e)) →
  (∀ e st, u_calls U e st = ListForm.calls P (ev e) (proj st)) →
  (∀ st, u_owned U st = ids (ListForm.items (proj st))) →
  Appends C U.
Proof.
  intros Hid Hs Hc Ho.
  apply (appends_morphism C (ListForm.component P) proj ev morphism U
           (ListForm.usage P)); try done.
  by apply ListForm.pattern_appends.
Qed.

Context (entry : R → Controller.Entry).
Context (candidate : gmap string string → gmap string string).
Context `{!ListForm.Abstraction P entry candidate}.

Lemma instance_refines ctx es :
  allowed C (λ e st, ListForm.good (ev e) (proj st)) es (mount C ctx) →
  Controller.run (ListForm.validator P)
    (ListForm.ops P candidate (ev <$> es) (onWorld proj (mount C ctx)))
    Controller.initial
  = (ListForm.abs entry (proj (component (run C es (mount C ctx)))),
     ListForm.observations P entry (ev <$> es) (onWorld proj (mount C ctx))).
Proof.
  intros Hes. apply (morphism_allowed _ _ proj ev morphism) in Hes.
  change (proj (component ?w)) with (component (onWorld proj w)).
  rewrite (morphism_run _ _ proj ev morphism).
  rewrite (morphism_mount _ _ proj ev morphism) in *.
  rewrite <- (ListForm.abs_mount P entry ctx).
  apply (ListForm.refines_run P entry candidate); [|done].
  apply ListForm.Settled_mount.
Qed.

End instance.

(** ** The certifications form *)

Module CertificationsRefinement.
Import AwardsForm.

Definition pattern : ListForm.Pattern Certification.t :=
  {| ListForm.p_schema := schema;
     ListForm.p_build := λ i values, withId i (toFormData values);
     ListForm.p_fill := λ award f,
       f |> HookForm.setValue "title" (Certification.title award)
         |> HookForm.setValue "issuer" (Certification.issuer award)
         |> HookForm.setValue "date" (Certification.date award)
         |> HookForm.setValue "summary" (Certification.summary award);
     ListForm.p_key := "certifications";
     ListForm.p_inject := VCertifications |}.

Definition proj (st : State) : ListForm.State Certification.t :=
  {| ListForm.form := form st;
     ListForm.showModal := showModal st;
     ListForm.currentId := currentId st;
     ListForm.items := certifications st;
     ListForm.effectPending := effectPending st |}.

Definition ev (e : Event) : ListForm.Event :=
  match e with
  | OnAdd => ListForm.OnAdd
  | OnEdit id => ListForm.OnEdit id
  | OnDelete id => ListForm.OnDelete id
  | OnCloseModal => ListForm.OnCloseModal
  | OnChange name value => ListForm.OnChange name value
  | OnSubmit uuid => ListForm.OnSubmit uuid
  end.

(** A certification as a record of the specification. *)
Definition entry (award : Certification.t) : Controller.Entry :=
  {| Controller.id := Certification.id award;
     Controller.fields :=
       <["title" := Certification.title award]>
         (<["issuer" := Certification.issuer award]>
            (<["date" := Certification.date award]>
               (<["summary" := Certification.summary award]> ∅))) |}.

(** What a submission keeps of the values of the form. *)
Definition candidate (values : gmap string string) : gmap string string :=
  Controller.fields (entry (withId "" (toFormData values))).

Definition abs (st : State) : Controller.t := ListForm.abs entry (proj st).

Definition good (e : Event) (st : State) : Prop :=
  ListForm.good (ev e) (proj st).

#[global] Instance good_dec e st : Decision (good e st).
Proof. unfold good. apply _. Defined.

Definition ops (es : list Event) (w : World) : list (option Controller.Op) :=
  ListForm.ops pattern candidate (ev <$> es) (onWorld proj w).

Definition observations (es : list Event) (w : World) :
    list Controller.Output :=
  ListForm.observations pattern entry (ev <$> es) (onWorld proj w).

(** The identifiers the generator gave during a run. *)
Definition uuids (es : list Event) : list string :=
  ListForm.uuids (ev <$> es).

(** The identifiers the user asked to delete during a run. *)
Definition deletions (es : list Event) : list string :=
  ListForm.deletions (ev <$> es).

(** The scenario of the specification, with a cancelled creation in the
    middle. *)
Definition scenario : list Event :=
  addRecord "X" awsCert ++ [OnAdd; OnChange "title" "draft"; OnCloseModal]
  ++ [OnEdit "X"] ++ typed awsCertPro ++ [OnSubmit "Y"; OnDelete "X"].

(** The maps of states and events commute with the initial state, every
    handler, the test and the reset of the effect, and the effect
    itself. *)
Lemma cert_morphism : Morphism self (ListForm.component pattern) proj ev.
Proof.
  split; try done. intros e st. destruct e as [|id|id| | |uuid]; try done.
  - simpl. unfold onEdit, ListForm.edit. simpl. by destruct (find _ _).
  - simpl. unfold formOnSubmit, ListForm.formSubmit. simpl.
    destruct (handleSubmit _ _); [|done].
    unfold handleFormSubmit, ListForm.submit. simpl. by destruct (truthy _).
Qed.


#[global] Instance abstraction : ListForm.Abstraction pattern entry candidate.
Proof.
  split; [done..|]. intros values. apply validate_ext. intros name Hin.
  repeat (apply elem_of_cons in Hin as [->|Hin]);
    [..|by apply elem_of_nil in Hin];
    unfold candidate, field; simpl; by simpl_map.
Qed.

(** C11. As long as no add is raised while an edit target is set and no
    submission targets a deleted record, a run of the certifications form
    from its mount is a run of the specification's controller from its
    initial state: the operations of the events lead the controller to
    the collection, the session and the sink the form ends in, and the
    controller's outputs are the context writes and the errors the form
    shows, in order. *)
Theorem cert_refines_controller (ctx : gmap string Value) (es : list Event) :
  allowed self good es (mount self ctx) →
  Controller.run (validate schema) (ops es (mount self ctx)) Controller.initial
  = (abs (component (run self es (mount self ctx))),
     observations es (mount self ctx)).
Proof.
  apply (instance_refines self pattern proj ev cert_morphism entry candidate).
Qed.

Lemma cert_refines_controller_witness :
  Controller.run (validate schema) (ops scenario (mount self ∅))
    Controller.initial
  = (abs (component (run self scenario (mount self ∅))),
     observations scenario (mount self ∅)).
Proof. apply cert_refines_controller. by_compute. Defined.

(** C22. The life of a record, as section 3 of the specification has it.
    Over any run of the form: an id in the array afterwards was there
    before or was given by the generator to a submission of the run; an
    id that is gone was deleted by name; without a submission the
    records left are records of before, unchanged and in their order;
    without a deletion the records keep their places and new ones go to
    the end; and the records that outlive the run are in the order they
    were in, as long as the generator does not give the id of one of them
    again.  No sequence of additions, edits and deletions swaps two
    records. *)
Theorem cert_record_life (es : list Event) (w : World) :
  let before := certifications (component w) in
  let after := certifications (component (run self es w)) in
  ids after ⊆ ids before ++ uuids es
  ∧ (∀ i, i ∈ ids before → i ∉ ids after → i ∈ deletions es)
  ∧ (uuids es = [] → after `sublist_of` before)
  ∧ (deletions es = [] → ids before `prefix_of` ids after)
  ∧ (Forall (.∉ ids before) (uuids es) →
     filter (.∈ ids before) (ids after) `sublist_of` ids before).
Proof.
  apply (instance_life self pattern proj ev cert_morphism es w).
  by intros i values.
Qed.

Lemma cert_record_life_witness :
  filter (.∈ ["X"])
    (ids (certifications
            (component
               (run self
                  (addRecord "Y" awsCert ++ [OnEdit "X"; OnSubmit "Z"; OnDelete "Y"])
                  {| component := oneRecord; context := ∅ |}))))
  `sublist_of` ["X"].
Proof.
  refine (proj2 (proj2 (proj2 (proj2 (cert_record_life
           (addRecord "Y" awsCert ++ [OnEdit "X"; OnSubmit "Z"; OnDelete "Y"])
           {| component := oneRecord; context := ∅ |})))) _).
  by_compute.
Defined.

End CertificationsRefinement.

(** ** The work experience form *)

Module WorkExperienceRefinement.
Import WorkExperienceForm.

Definition pattern : ListForm.Pattern WorkExperience.t :=
  {| ListForm.p_schema := schema;
     ListForm.p_build := λ i values, withId i (toFormData values);
     ListForm.p_fill := λ experience f,
       f |> HookForm.setValue "company" (WorkExperience.company experience)
         |> HookForm.setValue "position" (WorkExperience.position experience)
         |> HookForm.setValue "website" (WorkExperience.website experience)
         |> HookForm.setValue "startDate" (WorkExperience.startDate experience)
         |> HookForm.setValue "endDate" (WorkExperience.endDate experience)
         |> HookForm.setValue "summary" (WorkExperience.summary experience);
     ListForm.p_key := "workExperience";
     ListForm.p_inject := VWorkExperience |}.

Definition proj (st : State) : ListForm.State WorkExperience.t :=
  {| ListForm.form := form st;
     ListForm.showModal := showModal st;
     ListForm.currentId := currentId st;
     ListForm.items := experiences st;
     ListForm.effectPending := effectPending st |}.

Definition ev (e : Event) : ListForm.Event :=
  match e with
  | OnAdd => ListForm.OnAdd
  | OnEdit id => ListForm.OnEdit id
  | OnDelete id => ListForm.OnDelete id
  | OnCloseModal => ListForm.OnCloseModal
  | OnChange name value => ListForm.OnChange name value
  | OnSubmit uuid => ListForm.OnSubmit uuid
  end.

(** A work experience as a record of the specification. *)
Definition entry (experience : WorkExperience.t) : Controller.Entry :=
  {| Controller.id := WorkExperience.id experience;
     Controller.fields :=
       <["company" := WorkExperience.company experience]>
         (<["position" := WorkExperience.position experience]>
            (<["website" := WorkExperience.website experience]>
               (<["startDate" := WorkExperience.startDate experience]>
                  (<["endDate" := WorkExperience.endDate experience]>
                     (<["summary" := WorkExperience.summary experience]>
                        ∅))))) |}.

Definition candidate (values : gmap string string) : gmap string string :=
  Controller.fields (entry (withId "" (toFormData values))).

Definition abs (st : State) : Controller.t := ListForm.abs entry (proj st).

Definition good (e : Event) (st : State) : Prop :=
  ListForm.good (ev e) (proj st).

#[global] Instance good_dec e st : Decision (good e st).
Proof. unfold good. apply _. Defined.

Definition ops (es : list Event) (w : World) : list (option Controller.Op) :=
  ListForm.ops pattern candidate (ev <$> es) (onWorld proj w).

Definition observations (es : list Event) (w : World) :
    list Controller.Output :=
  ListForm.observations pattern entry (ev <$> es) (onWorld proj w).

(** The identifiers the generator gave during a run. *)
Definition uuids (es : list Event) : list string :=
  ListForm.uuids (ev <$> es).

(** The identifiers the user asked to delete during a run. *)
Definition deletions (es : list Event) : list string :=
  ListForm.deletions (ev <$> es).

(** Add a position, fail to add a second one, edit the first, delete
    it. *)
Definition scenario : list Event :=
  addRecord "X" acme ++ [OnAdd; OnChange "company" "Initech"; OnSubmit "Z"]
  ++ [OnCloseModal; OnEdit "X"] ++ typed acmeLead
  ++ [OnSubmit "Y"; OnDelete "X"].

Lemma work_morphism : Morphism self (ListForm.component pattern) proj ev.
Proof.
  split; try done. intros e st. destruct e as [|id|id| | |uuid]; try done.
  - simpl. unfold onEdit, ListForm.edit. simpl. by destruct (find _ _).
  - simpl. unfold formOnSubmit, ListForm.formSubmit. simpl.
    destruct (handleSubmit _ _); [|done].
    unfold onSubmit, ListForm.submit. simpl. by destruct (truthy _).
Qed.

(** The work experience form is its instance of the list form
    pattern: whatever the user does, the form as the source writes it and
    the pattern are in the same state and have written the same context. *)
Theorem work_implements_pattern (ctx : gmap string Value) (es : list Event) :
  onWorld proj (run self es (mount self ctx))
  = run (ListForm.component pattern) (ev <$> es)
      (mount (ListForm.component pattern) ctx).
Proof. apply (instance_implements self pattern proj ev work_morphism). Qed.

#[global] Instance abstraction : ListForm.Abstraction pattern entry candidate.
Proof.
  split; [done..|]. intros values. apply validate_ext. intros name Hin.
  repeat (apply elem_of_cons in Hin as [->|Hin]);
    [..|by apply elem_of_nil in Hin];
    unfold candidate, field; simpl; by simpl_map.
Qed.

(** C29. As long as no add is raised while an edit target is set and no
    submission targets a deleted record, a run of the work experience
    form from its mount is a run of the specification's controller from
    its initial state, with the same collection, session and sink at the
    end and the same outputs on the way. *)
Theorem work_refines_controller (ctx : gmap string Value) (es : list Event) :
  allowed self good es (mount self ctx) →
  Controller.run (validate schema) (ops es (mount self ctx)) Controller.initial
  = (abs (component (run self es (mount self ctx))),
     observations es (mount self ctx)).
Proof.
  apply (instance_refines self pattern proj ev work_morphism entry candidate).
Qed.

Lemma work_refines_controller_witness :
  Controller.run (validate schema) (ops scenario (mount self ∅))
    Controller.initial
  = (abs (component (run self scenario (mount self ∅))),
     observations scenario (mount self ∅)).
Proof. apply work_refines_controller. by_compute. Defined.

(** The life of a record, as section 3 of the specification has it.
    Over any run of the form: an id in the array afterwards was there
    before or was given by the generator to a submission of the run; an
    id that is gone was deleted by name; without a submission the
    records left are records of before, unchanged and in their order;
    without a deletion the records keep their places and new ones go to
    the end; and the records that outlive the run are in the order they
    were in, as long as the generator does not give the id of one of them
    again.  No sequence of additions, edits and deletions swaps two
    records. *)
Theorem work_record_life (es : list Event) (w : World) :
  let before := experiences (component w) in
  let after := experiences (component (run self es w)) in
  ids after ⊆ ids before ++ uuids es
  ∧ (∀ i, i ∈ ids before → i ∉ ids after → i ∈ deletions es)
  ∧ (uuids es = [] → after `sublist_of` before)
  ∧ (deletions es = [] → ids before `prefix_of` ids after)
  ∧ (Forall (.∉ ids before) (uuids es) →
     filter (.∈ ids before) (ids after) `sublist_of` ids before).
Proof.
  apply (instance_life self pattern proj ev work_morphism es w).
  by intros i values.
Qed.

Lemma work_record_life_witness :
  filter (.∈ ["X"])
    (ids (experiences
            (component
               (run self
                  (addRecord "Y" acme ++ [OnEdit "X"; OnSubmit "Z"; OnDelete "Y"])
                  {| component := oneRecord; context := ∅ |}))))
  `sublist_of` ["X"].
Proof.
  refine (proj2 (proj2 (proj2 (proj2 (work_record_life
           (addRecord "Y" acme ++ [OnEdit "X"; OnSubmit "Z"; OnDelete "Y"])
           {| component := oneRecord; context := ∅ |})))) _).
  by_compute.
Defined.

End WorkExperienceRefinement.
