(* ===== verification/Liveness.v ===== *)
(** * What a user can bring the forms to

    The theorems of the form files say what cannot happen.  This file
    says what can: every array the invariants allow can be entered through
    the events the render offers, and from whatever state a list form is
    in (an open modal, a form with errors, an edit target left behind by a
    cancelled edit) the user can get back to an idle form and from there
    to any such array.

    The argument is the same for both list forms, so it is made once, for
    any component, against an interface: [Moves] names the sequences of
    events a journey is made of (adding a record, deleting one, opening
    and closing the modal) and [Journeys] states what each of them does.
    Each form then gives its moves and discharges the laws by running its
    handlers. *)

From stdpp Require Import base decidable option list strings gmap.
From S2P Require Import Prelude Collection HookForm React ResumeContext.
From S2P Require Import CertificationsForm WorkExperienceForm ContactForm.

#[local] Open Scope js_scope.

(** ** Journeys of a list component *)

Section journeys.
Context {Ctx St Ev R : Type} `{HasId R}.

Record Moves := {
  (** the array of the component *)
  m_items : St → list R;
  (** nothing in progress *)
  m_idle : St → Prop;
  (** the modal closed and the form blank, an edit target possibly left *)
  m_calm : St → Prop;
  (** a record the schema accepts *)
  m_storable : R → Prop;
  (** opening the modal, typing a record and submitting it, the generator
      giving the id of the record *)
  m_add : R → list Ev;
  m_del : string → Ev;
  (** opening the modal and closing it *)
  m_reopen : list Ev;
  m_spare : R;
}.

Context (C : Component Ctx St Ev) (G : Ev → St → Prop) (M : Moves).
Implicit Types (w : World Ctx St) (l : list R) (r : R) (i : string).

Class Journeys : Prop := {
  mount_Idle ctx :
    m_idle M (component (mount C ctx))
    ∧ m_items M (component (mount C ctx)) = [];
  Idle_Calm st : m_idle M st → m_calm M st;
  spare_Storable : m_storable M (m_spare M) ∧ id_of (m_spare M) ≠ "";
  add_allowed r w :
    m_calm M (component w) → id_of r ≠ "" →
    id_of r ∉ ids (m_items M (component w)) → allowed C G (m_add M r) w;
  add_Idle r w :
    m_idle M (component w) → m_storable M r →
    m_idle M (component (run C (m_add M r) w))
    ∧ m_items M (component (run C (m_add M r) w))
      = m_items M (component w) ++ [r];
  add_Calm r w :
    m_calm M (component w) → m_storable M r → m_items M (component w) = [] →
    m_idle M (component (run C (m_add M r) w))
    ∧ (m_items M (component (run C (m_add M r) w)) = []
       ∨ m_items M (component (run C (m_add M r) w)) = [r]);
  del_step i w :
    G (m_del M i) (component w)
    ∧ m_items M (component (step C (m_del M i) w))
      = removeById i (m_items M (component w));
  del_Calm i w :
    m_calm M (component w) → m_calm M (component (step C (m_del M i) w));
  del_Idle i w :
    m_idle M (component w) → m_idle M (component (step C (m_del M i) w));
  reopen_run w :
    allowed C G (m_reopen M) w ∧ m_calm M (component (run C (m_reopen M) w))
    ∧ m_items M (component (run C (m_reopen M) w)) = m_items M (component w);
}.

(** Entering a collection, record by record. *)
Definition enter l : list Ev := l ≫= m_add M.

(** Back to an idle component with an empty array: close whatever is
    open, delete every record, and add and delete a spare record, which
    uses up an edit target that was left behind. *)
Definition clear (st : St) : list Ev :=
  m_reopen M ++ (m_del M <$> ids (m_items M st))
  ++ m_add M (m_spare M) ++ [m_del M (id_of (m_spare M))].

Context `{!Journeys}.

Lemma enter_cons r l : enter (r :: l) = m_add M r ++ enter l.
Proof. reflexivity. Qed.

(** From an idle world, entering [l] is allowed, appends [l] and ends
    idle. *)
Lemma enter_appends l w :
  m_idle M (component w) → Forall (m_storable M) l →
  NoDup (ids (m_items M (component w)) ++ ids l) → "" ∉ ids l →
  allowed C G (enter l) w
  ∧ m_items M (component (run C (enter l) w)) = m_items M (component w) ++ l
  ∧ m_idle M (component (run C (enter l) w)).
Proof.
  revert w. induction l as [|r l IH]; intros w Hw Hv Hnd Hne.
  { by rewrite app_nil_r. }
  apply Forall_cons in Hv as [Hv Hvl].
  apply not_elem_of_cons in Hne as [Hne Hnel].
  destruct (add_Idle r w Hw Hv) as [Hi Hr].
  rewrite enter_cons, allowed_app, run_app.
  destruct (IH (run C (m_add M r) w)) as (Ha & Hc & Hi'); [done..| |done|].
  - rewrite Hr, ids_snoc, <- app_assoc. done.
  - split_and!; [|exact Ha| |exact Hi'].
    + apply add_allowed; [by apply Idle_Calm|by apply not_eq_sym|].
      apply NoDup_app in Hnd as (_ & Hnd & _). intros Hin.
      apply (Hnd _ Hin). by left.
    + rewrite Hc, Hr. by rewrite <- app_assoc.
Qed.

(** Deleting ids one after the other is always possible. *)
Lemma deletes_run (js : list string) w :
  allowed C G (m_del M <$> js) w
  ∧ m_items M (component (run C (m_del M <$> js) w))
    = removeAll js (m_items M (component w))
  ∧ (m_calm M (component w) →
     m_calm M (component (run C (m_del M <$> js) w))).
Proof.
  revert w. induction js as [|i js IH]; intros w; [done|].
  rewrite fmap_cons, run_cons. destruct (del_step i w) as [Hg Hi].
  destruct (IH (step C (m_del M i) w)) as (Ha & Hr & Hc).
  split_and!; [by split|by rewrite Hr, Hi|].
  intros Hw. by apply Hc, del_Calm.
Qed.

(** From anywhere, [clear] is allowed and ends idle and empty. *)
Lemma clear_run w :
  allowed C G (clear (component w)) w
  ∧ m_idle M (component (run C (clear (component w)) w))
  ∧ m_items M (component (run C (clear (component w)) w)) = [].
Proof.
  unfold clear. destruct (reopen_run w) as (Ha1 & Hc1 & Hi1).
  destruct (deletes_run (ids (m_items M (component w)))
              (run C (m_reopen M) w)) as (Ha2 & Hi2 & Hc2).
  rewrite Hi1, removeAll_ids in Hi2. specialize (Hc2 Hc1).
  destruct spare_Storable as [Hs Hne].
  set (w2 := run C (m_del M <$> ids (m_items M (component w)))
               (run C (m_reopen M) w)) in *.
  destruct (add_Calm (m_spare M) w2 Hc2 Hs Hi2) as [Hi3 Hl3].
  destruct (del_step (id_of (m_spare M)) (run C (m_add M (m_spare M)) w2))
    as [Hg4 Hi4].
  rewrite !allowed_app, !run_app. fold w2. rewrite run_cons, run_nil.
  split_and!; try done.
  - apply add_allowed; [done..|]. rewrite Hi2. apply not_elem_of_nil.
  - by apply del_Idle.
  - rewrite Hi4. destruct Hl3 as [->| ->]; [done|].
    unfold removeById. rewrite filter_cons, decide_False; [done|]. by intros [].
Qed.

Lemma wf_ids_blank_free l : wf_ids l → "" ∉ ids l.
Proof.
  intros [_ Hne] (r & Hin & Hid)%elem_of_ids.
  by apply (proj1 (Forall_forall _ _) Hne r).
Qed.

Lemma enter_mount ctx l :
  wf_ids l → Forall (m_storable M) l →
  allowed C G (enter l) (mount C ctx)
  ∧ m_items M (component (run C (enter l) (mount C ctx))) = l.
Proof.
  intros Hwf Hv. destruct (mount_Idle ctx) as [Hi Hl].
  destruct (enter_appends l (mount C ctx)) as (Ha & Hc & _); try done.
  - rewrite Hl. apply Hwf.
  - by apply wf_ids_blank_free.
  - split; [done|]. by rewrite Hc, Hl.
Qed.

(** Every collection the invariants allow can be entered after the
    mount. *)
Theorem every_collection ctx l :
  wf_ids l → Forall (m_storable M) l →
  reachable C G ctx (run C (enter l) (mount C ctx))
  ∧ m_items M (component (run C (enter l) (mount C ctx))) = l.
Proof.
  intros Hwf Hv. destruct (enter_mount ctx l Hwf Hv) as [Ha Hl].
  split; [apply reachable_run; [constructor|done]|done].
Qed.

(** From any world whatever, every collection the invariants allow can
    be entered. *)
Theorem recovers w l :
  wf_ids l → Forall (m_storable M) l →
  allowed C G (clear (component w) ++ enter l) w
  ∧ m_items M (component (run C (clear (component w) ++ enter l) w)) = l.
Proof.
  intros Hwf Hv. destruct (clear_run w) as (Ha & Hi & Hl).
  destruct (enter_appends l (run C (clear (component w)) w))
    as (Ha' & Hc & _); try done.
  - rewrite Hl. apply Hwf.
  - by apply wf_ids_blank_free.
  - rewrite allowed_app, run_app. split; [done|]. by rewrite Hc, Hl.
Qed.

End journeys.

Arguments Moves : clear implicits.

(** ** The certifications form *)

Module CertificationsLiveness.
Import AwardsForm.

(** What a user with a working identifier generator can do. *)
Definition user (e : Event) (st : State) : Prop := fresh e st ∧ offered e st.

#[global] Instance user_dec e st : Decision (user e st).
Proof. unfold user. apply _. Defined.

(** The effect has run, the modal is closed and the form is blank. *)
Definition Calm (st : State) : Prop :=
  effectPending st = false ∧ showModal st = false ∧ form st = useForm.

(** And no edit target is set. *)
Definition Idle (st : State) : Prop := Calm st ∧ currentId st = "".

Definition moves : Moves State Event Certification.t :=
  {| m_items := certifications;
     m_idle := Idle;
     m_calm := Calm;
     m_storable := ValidRecord;
     m_add := λ award, addRecord (Certification.id award) (dataOf award);
     m_del := OnDelete;
     m_reopen := [OnAdd; OnCloseModal];
     m_spare := withId "spare" awsCert |}.

Abbreviation enter := (Liveness.enter moves).
Abbreviation clear := (Liveness.clear moves).

(** The state after a record was typed into a calm form and submitted. *)
Lemma cert_addRecord_Calm (award : Certification.t) (w : World) :
  Calm (component w) → ValidRecord award →
  component (run self (addRecord (Certification.id award) (dataOf award)) w)
  = {| form := useForm; showModal := false; currentId := "";
       certifications :=
         certifications
           (handleFormSubmit (Certification.id award) (dataOf award)
              (component w));
       effectPending := false |}.
Proof.
  destruct w as [st ctx]. intros (Hq & Hs & Hf) Hv.
  rewrite component_run. simpl.
  destruct st as [f sm cur certs pend]; simpl in *; subst.
  unfold settled; cbn. rewrite formOnSubmit_valid.
  - simpl. unfold toFormData. js_simpl. unfold handleFormSubmit.
    simpl. destruct (truthy cur) eqn:E; [|apply truthy_false in E; subst];
      destruct award; reflexivity.
  - destruct Hv as (? & ? & ?). unfold Complete. simpl.
    repeat constructor; by js_simpl.
Qed.

#[global] Instance cert_journeys : Journeys self user moves.
Proof.
  split; unfold moves;
    cbn [m_items m_idle m_calm m_storable m_add m_del m_reopen m_spare].
  - intros ctx. by repeat split.
  - by intros st [? ?].
  - by_compute.
  - intros r [[f sm cur certs pend] ctx] (? & ? & ?) Hne Hnew.
    simpl in *. subst. unfold user, offered, fresh. simpl.
    split_and!; try done; by_compute.
  - intros r w [Hc Hcur] Hv. rewrite (cert_addRecord_Calm r w Hc Hv).
    rewrite certifications_handleFormSubmit, Hcur, withId_dataOf.
    by repeat split.
  - intros r w Hc Hv Hl. rewrite (cert_addRecord_Calm r w Hc Hv).
    rewrite certifications_handleFormSubmit, Hl, withId_dataOf.
    split; [by repeat split|]. destruct (truthy _); auto.
  - intros i w. split; [by split|]. by rewrite certifications_step.
  - intros i [[f sm cur certs pend] ctx] (? & ? & ?). by repeat split.
  - intros i [[f sm cur certs pend] ctx] [(? & ? & ?) ?]. by repeat split.
  - intros [[f sm cur certs pend] ctx]. unfold user. simpl.
    rewrite !component_step. unfold settled. simpl.
    by destruct pend; repeat split.
Qed.

(** Every collection the invariants allow can be entered: for records
    with distinct non-empty ids that satisfy the schema, adding them one
    after the other, the generator giving their ids, is a sequence of
    events the render offers at every step, and it ends with exactly that
    collection in the component. *)
Theorem cert_every_collection_reachable (ctx : gmap string Value)
    (l : list Certification.t) :
  WellFormed l →
  reachable self user ctx (run self (enter l) (mount self ctx))
  ∧ certifications (component (run self (enter l) (mount self ctx))) = l.
Proof. intros [Hwf Hv]. by apply (every_collection self user moves). Qed.

Lemma cert_every_collection_reachable_witness :
  certifications
    (component
       (run self (enter [withId "X" awsCert; withId "Y" awsCertPro])
          (mount self ∅)))
  = [withId "X" awsCert; withId "Y" awsCertPro].
Proof. apply (cert_every_collection_reachable ∅). by_compute. Defined.

(** C19. The form cannot get stuck: from any state whatever (the modal
    open, errors shown, an edit target left behind by a cancelled edit or
    pointing at a deleted record), closing the modal, deleting every
    record and adding and deleting a spare one is offered by the render
    step by step and leaves an idle, empty form, from which every
    collection the invariants allow can be entered. *)
Theorem cert_recovers (w : World) (l : list Certification.t) :
  WellFormed l →
  allowed self user (clear (component w) ++ enter l) w
  ∧ certifications (component (run self (clear (component w) ++ enter l) w))
    = l.
Proof. intros [Hwf Hv]. by apply (recovers self user moves). Qed.

Lemma cert_recovers_witness :
  certifications
    (component
       (run self (clear editingX ++ enter [withId "Y" awsCertPro])
          {| component := editingX; context := ∅ |}))
  = [withId "Y" awsCertPro].
Proof.
  apply (cert_recovers {| component := editingX; context := ∅ |}). by_compute.
Defined.

End CertificationsLiveness.

(** ** The work experience form *)

Module WorkExperienceLiveness.
Import WorkExperienceForm.

(** What a user with a working identifier generator can do. *)
Definition user (e : Event) (st : State) : Prop := fresh e st ∧ offered e st.

#[global] Instance user_dec e st : Decision (user e st).
Proof. unfold user. apply _. Defined.

(** The effect has run, the modal is closed and the form is blank. *)
Definition Calm (st : State) : Prop :=
  effectPending st = false ∧ showModal st = false ∧ form st = useForm.

(** And no edit target is set. *)
Definition Idle (st : State) : Prop := Calm st ∧ currentId st = "".

Definition moves : Moves State Event WorkExperience.t :=
  {| m_items := experiences;
     m_idle := Idle;
     m_calm := Calm;
     m_storable := ValidRecord;
     m_add := λ experience,
       addRecord (WorkExperience.id experience) (dataOf experience);
     m_del := OnDelete;
     m_reopen := [OnAdd; OnCloseModal];
     m_spare := withId "spare" acme |}.

Abbreviation enter := (Liveness.enter moves).
Abbreviation clear := (Liveness.clear moves).

(** The state after a record was typed into a calm form and submitted. *)
Lemma work_addRecord_Calm (experience : WorkExperience.t) (w : World) :
  Calm (component w) → ValidRecord experience →
  component
    (run self (addRecord (WorkExperience.id experience) (dataOf experience)) w)
  = {| form := useForm; showModal := false; currentId := "";
       experiences :=
         experiences
           (onSubmit (WorkExperience.id experience) (dataOf experience)
              (component w));
       effectPending := false |}.
Proof.
  destruct w as [st ctx]. intros (Hq & Hs & Hf) Hv.
  rewrite component_run. simpl.
  destruct st as [f sm cur exps pend]; simpl in *; subst.
  unfold settled; cbn. rewrite work_formOnSubmit_valid.
  - simpl. unfold toFormData. js_simpl. unfold onSubmit.
    simpl. destruct (truthy cur) eqn:E; [|apply truthy_false in E; subst];
      destruct experience; reflexivity.
  - destruct Hv as (? & ? & ? & ?). unfold Complete. simpl.
    repeat constructor; by js_simpl.
Qed.

#[global] Instance work_journeys : Journeys self user moves.
Proof.
  split; unfold moves;
    cbn [m_items m_idle m_calm m_storable m_add m_del m_reopen m_spare].
  - intros ctx. by repeat split.
  - by intros st [? ?].
  - by_compute.
  - intros r [[f sm cur exps pend] ctx] (? & ? & ?) Hne Hnew.
    simpl in *. subst. unfold user, offered, fresh. simpl.
    split_and!; try done; by_compute.
  - intros r w [Hc Hcur] Hv. rewrite (work_addRecord_Calm r w Hc Hv).
    rewrite work_experiences_onSubmit, Hcur, work_withId_dataOf.
    by repeat split.
  - intros r w Hc Hv Hl. rewrite (work_addRecord_Calm r w Hc Hv).
    rewrite work_experiences_onSubmit, Hl, work_withId_dataOf.
    split; [by repeat split|]. destruct (truthy _); auto.
  - intros i w. split; [by split|]. by rewrite work_experiences_step.
  - intros i [[f sm cur exps pend] ctx] (? & ? & ?). by repeat split.
  - intros i [[f sm cur exps pend] ctx] [(? & ? & ?) ?]. by repeat split.
  - intros [[f sm cur exps pend] ctx]. unfold user. simpl.
    rewrite !component_step. unfold settled. simpl.
    by destruct pend; repeat split.
Qed.

(** Every collection of experiences the invariants allow can be
    entered: for records with distinct non-empty ids that satisfy the
    schema, adding them one after the other is a sequence of events the
    render offers at every step, and it ends with exactly that collection
    in the component. *)
Theorem work_every_collection_reachable (ctx : gmap string Value)
    (l : list WorkExperience.t) :
  WellFormed l →
  reachable self user ctx (run self (enter l) (mount self ctx))
  ∧ experiences (component (run self (enter l) (mount self ctx))) = l.
Proof. intros [Hwf Hv]. by apply (every_collection self user moves). Qed.

Lemma work_every_collection_reachable_witness :
  experiences
    (component
       (run self (enter [withId "X" acme; withId "Y" acmeLead]) (mount self ∅)))
  = [withId "X" acme; withId "Y" acmeLead].
Proof. apply (work_every_collection_reachable ∅). by_compute. Defined.

(** C30. The work experience form cannot get stuck: from any state
    whatever, closing the modal, deleting every record and adding and
    deleting a spare one is offered by the render step by step and leaves
    an idle, empty form, from which every collection the invariants allow
    can be entered. *)
Theorem work_recovers (w : World) (l : list WorkExperience.t) :
  WellFormed l →
  allowed self user (clear (component w) ++ enter l) w
  ∧ experiences (component (run self (clear (component w) ++ enter l) w)) = l.
Proof. intros [Hwf Hv]. by apply (recovers self user moves). Qed.

Lemma work_recovers_witness :
  experiences
    (component
       (run self (clear editingX ++ enter [withId "Y" acmeLead])
          {| component := editingX; context := ∅ |}))
  = [withId "Y" acmeLead].
Proof.
  apply (work_recovers {| component := editingX; context := ∅ |}). by_compute.
Defined.

End WorkExperienceLiveness.

(** ** The contact form *)

Module ContactLiveness.
Import ContactForm.

(** Typing into the three inputs. *)
Definition fill (phoneNumber website email : string) : list Event :=
  [change "phoneNumber" phoneNumber; change "website" website;
   change "email" email].

(** The state object that holds three given values. *)
Definition holding (phoneNumber website email : string) : gmap string string :=
  <["email" := email]>
    (<["website" := website]> (<["phoneNumber" := phoneNumber]> ∅)).

Lemma holding_insert (phoneNumber website email : string)
    (o : gmap string string) :
  dom o = list_to_set fields →
  <["email" := email]>
    (<["website" := website]> (<["phoneNumber" := phoneNumber]> o))
  = holding phoneNumber website email.
Proof.
  intros Ho. apply map_eq. intros k. unfold holding.
  destruct (decide (k = "email")) as [->|?]; [by rewrite !lookup_insert_eq|].
  rewrite !(lookup_insert_ne _ "email") by done.
  destruct (decide (k = "website")) as [->|?]; [by rewrite !lookup_insert_eq|].
  rewrite !(lookup_insert_ne _ "website") by done.
  destruct (decide (k = "phoneNumber")) as [->|?];
    [by rewrite !lookup_insert_eq|].
  rewrite !(lookup_insert_ne _ "phoneNumber") by done.
  rewrite lookup_empty. apply not_elem_of_dom. rewrite Ho. unfold fields.
  rewrite elem_of_list_to_set, !elem_of_cons, elem_of_nil. tauto.
Qed.

(** Every state object of the right shape can be typed: from any world
    whose state object has the three properties, typing into the three
    inputs is offered by the render at every step and leaves exactly the
    typed values in the state object. *)
Lemma contact_fill_run (w : World) (phoneNumber website email : string) :
  Shaped (component w) →
  allowed self offered (fill phoneNumber website email) w
  ∧ state (component (run self (fill phoneNumber website email) w))
    = holding phoneNumber website email.
Proof.
  intros Hs. split.
  - unfold fill. cbn [allowed].
    split_and!; try done; apply contact_offered_name; by_compute.
  - rewrite component_run. simpl. unfold settled. simpl.
    by apply holding_insert.
Qed.

End ContactLiveness.
