(* ===== verification/Identifiers.v ===== *)
(** * The list forms with their identifier generator

    The form files prove their invariants of the worlds reached with
    fresh identifiers, the identifier being a parameter of the submit
    event.  Here each list form is closed with a generator ([Uuid.v]):
    [calls] and [stamp] of the form file say where the form calls
    [uuid()], the form is shown to add no identifier but the one it drew,
    at the end of its array (it is an instance of the pattern, which does
    so), and so the closed
    form, driven by the events the render offers and nothing else, is the
    open form driven by a user whose generator works.  The invariants of
    the form files hold of it with no hypothesis on identifiers left, and
    every list of valid records can be entered in it, the generator
    naming the records. *)

From stdpp Require Import base decidable option list strings gmap.
From S2P Require Import Prelude Collection Yup HookForm React Uuid.
From S2P Require Import ResumeContext ListForm CertificationsForm.
From S2P Require Import WorkExperienceForm Refinement Liveness.

#[local] Open Scope js_scope.

(** ** Entering records, the generator naming them

    A list component whose journeys are known ([Liveness.v]) is closed
    with its generator.  Adding a record is the same sequence of events,
    but the identifier is the generator's: [Naming] says that the stamped
    events of an addition are the addition of the record renamed, and
    that an addition from an idle component makes one call.  Then any
    list of storable records can be entered, and the records carry the
    identifiers issued meanwhile, in order. *)
Section naming.
Context `{!Generator} {Ctx St Ev R : Type} `{HasId R}.
Context (C : Component Ctx St Ev) (U : Usage St Ev).
Context (G : Ev → St → Prop) (M : Moves St Ev R) (rename : string → R → R).
Implicit Types (w : World Ctx (St * nat)) (l : list R) (r : R) (n : nat).

Class Naming : Prop := {
  owned_items st : u_owned U st = ids (m_items M st);
  rename_id i r : id_of (rename i r) = i;
  rename_storable i r : m_storable M r → m_storable M (rename i r);
  stamped_add r w :
    stamped C U (m_add M r) w
    = m_add M (rename (uuidAt (component w).2) r);
  count_add r w :
    m_idle M (component w).1 → m_storable M r →
    (component (run (closed C U) (m_add M r) w)).2 = S (component w).2;
}.

(** An addition is named when it ends with the one event that calls the
    generator, made in a state in which it does. *)
Lemma naming_by_last (pre : R → list Ev) (last : R → Ev) :
  (∀ st, u_owned U st = ids (m_items M st)) →
  (∀ i r, id_of (rename i r) = i) →
  (∀ i r, m_storable M r → m_storable M (rename i r)) →
  (∀ r, m_add M r = pre r ++ [last r]) →
  (∀ r, Forall (λ e, ∀ st, u_calls U e st = false) (pre r)) →
  (∀ i r, u_stamp U i <$> pre r = pre (rename i r)) →
  (∀ i r, u_stamp U i (last r) = last (rename i r)) →
  (∀ i r (w : World Ctx St),
     m_idle M (component w) → m_storable M r →
     u_calls U (last r) (component (run C (pre (rename i r)) w)) = true) →
  Naming.
Proof.
  intros Ho Hid Hst Hadd Hpre Hspre Hslast Hcall. split; try done.
  - intros r w. rewrite !Hadd, stamped_app.
    destruct (stamped_calls_none C U (pre r) w (Hpre r)) as [-> Hn].
    cbn [stamped]. by rewrite Hn, Hspre, Hslast.
  - intros r w Hi Hs.
    rewrite Hadd, run_app, run_cons, run_nil, closed_step_count.
    destruct (stamped_calls_none C U (pre r) w (Hpre r)) as [Hp ->].
    rewrite (closed_component_run C U), Hp, Hspre. by rewrite Hcall.
Qed.

(** The records of [l] under the identifiers issued from call [n] on. *)
Definition named n l : list R :=
  zip_with rename (uuidAt <$> seq n (length l)) l.

Context `{!Journeys C G M, !Draws C U, !Naming}.

Lemma generated_add r w :
  m_idle M (component w).1 → m_storable M r → Issued U (component w) →
  let w' := run (closed C U) (m_add M r) w in
  allowed (closed C U) (drawing U G) (m_add M r) w
  ∧ m_idle M (component w').1
  ∧ m_items M (component w').1
    = m_items M (component w).1 ++ [rename (uuidAt (component w).2) r].
Proof.
  intros Hi Hs Hw w'. apply (rename_storable (uuidAt (component w).2)) in Hs.
  destruct (Issued_unique U _ Hw) as (_ & _ & Hnew).
  rewrite owned_items in Hnew.
  rewrite (closed_allowed C U G), stamped_add. unfold w'.
  rewrite (closed_component_run C U), stamped_add.
  split; [|by apply (add_Idle C G M)].
  apply (add_allowed C G M); rewrite ?rename_id;
    [by apply (Idle_Calm C G M)|apply uuidAt_nonblank|done].
Qed.

Theorem generated_enter l w :
  m_idle M (component w).1 → Forall (m_storable M) l →
  Issued U (component w) →
  allowed (closed C U) (drawing U G) (enter M l) w
  ∧ m_items M (component (run (closed C U) (enter M l) w)).1
    = m_items M (component w).1 ++ named (component w).2 l.
Proof.
  revert w. induction l as [|r l IH]; intros w Hi Hv Hw.
  { unfold named. simpl. by rewrite app_nil_r. }
  apply Forall_cons in Hv as [Hr Hv].
  destruct (generated_add r w Hi Hr Hw) as (Ha & Hi' & Hl).
  destruct (IH (run (closed C U) (m_add M r) w)) as [Ha' Hl'];
    [done..|by apply Issued_run|].
  rewrite enter_cons, allowed_app, run_app. split; [done|].
  rewrite Hl', Hl, count_add, <- app_assoc by done. reflexivity.
Qed.

End naming.

(** ** The certifications form *)

Module CertificationsIdentifiers.
Import AwardsForm.

Definition usage : Usage State Event :=
  {| u_stamp := stamp;
     u_calls := calls;
     u_owned := λ st, ids (certifications st) |}.

(** The form with the generator it imports. *)
Definition withUuid `{!Generator} :
    Component (gmap string Value) (State * nat) Event :=
  closed self usage.

(** Adding two records, the generator naming them. *)
Definition twoRecords : list Event :=
  addRecord "" awsCert ++ addRecord "" awsCertPro.

#[global] Instance cert_appends : Appends self usage.
Proof.
  apply (instance_appends self CertificationsRefinement.pattern
           CertificationsRefinement.proj CertificationsRefinement.ev
           CertificationsRefinement.cert_morphism); try done.
  - by intros i [].
  - by intros [] st.
Qed.

Lemma cert_fresh_stamp (e : Event) (i : string) (st : State) :
  i ≠ "" → i ∉ ids (certifications st) → fresh (stamp i e) st.
Proof. intros. by destruct e. Qed.

(** A record under another identifier. *)
Definition rename (i : string) (award : Certification.t) : Certification.t :=
  withId i (dataOf award).

(** Typing a valid record into an idle form: the submission will call
    the generator. *)
Lemma cert_calls_typed (uuid : string) (award : Certification.t) (w : World) :
  CertificationsLiveness.Idle (component w) → ValidRecord award →
  calls (OnSubmit uuid)
    (component (run self ([OnAdd] ++ typed (dataOf award)) w))
  = true.
Proof.
  destruct w as [st ctx]. intros [(Hq & Hs & Hf) Hcur] (? & ? & ?).
  rewrite calls_Complete; rewrite component_run; simpl;
    destruct st as [f sm cur certs pend]; simpl in *; subst;
    unfold settled; cbn; [done|].
  unfold Complete. repeat constructor; by js_simpl.
Qed.

#[global] Instance cert_naming `{!Generator} :
  Naming self usage CertificationsLiveness.moves rename.
Proof.
  apply (naming_by_last _ _ _ _ (λ r, [OnAdd] ++ typed (dataOf r))
           (λ r, OnSubmit (Certification.id r))); try done.
  - intros r. by repeat constructor.
  - intros i r w Hi Hv. unfold rename. rewrite dataOf_withId.
    by apply cert_calls_typed.
Qed.

(** The closed form under the events its render offers is the open form
    under a user whose generator works. *)
Lemma cert_generated_reachable `{!Generator} ctx w :
  reachable withUuid (drawing usage offered) ctx w →
  reachable self CertificationsLiveness.user ctx (onWorld fst w).
Proof.
  apply (closed_reachable self usage fresh offered cert_fresh_stamp).
Qed.

(** C12. With a generator that never gives the same identifier twice nor
    the empty one, whatever the user does with the form through the
    events its render offers, the array is well formed (ids distinct and
    non-empty, every record valid), the identifier the generator would
    give next is carried by no record, and the records stand in the order
    in which they were created: their ids are, in order, among the
    identifiers issued so far.  The hypothesis of fresh identifiers of
    the form's invariants is met by the generator's contract. *)
Theorem cert_generated_well_formed `{!Generator} (ctx : gmap string Value)
    (w : React.World (gmap string Value) (State * nat)) :
  reachable withUuid (drawing usage offered) ctx w →
  WellFormed (certifications (component w).1)
  ∧ uuidAt (component w).2 ∉ ids (certifications (component w).1)
  ∧ ids (certifications (component w).1) `sublist_of` issued (component w).2.
Proof.
  intros Hr. split_and!.
  - apply (reachable_WellFormed ctx (onWorld fst w)).
    eapply reachable_impl, cert_generated_reachable, Hr. by intros e st [? _].
  - by apply (Issued_unique usage),
      (reachable_Issued self usage offered ctx).
  - apply (reachable_InOrder self usage offered ctx w Hr).
Qed.

Lemma cert_generated_well_formed_witness :
  WellFormed
    (certifications (component (run withUuid twoRecords (mount withUuid ∅))).1).
Proof.
  refine (proj1 (cert_generated_well_formed ∅ _ _)).
  apply reachable_run; [constructor|by_compute].
Defined.

(** C20. In the closed form every list of valid records can be entered,
    whatever the generator: adding them one after the other is offered by
    the render step by step, and the array is then the list, each record
    under the identifier the generator issued for it, in the order of
    issue. *)
Theorem cert_generated_enters `{!Generator} (ctx : gmap string Value)
    (l : list Certification.t) :
  Forall ValidRecord l →
  allowed withUuid (drawing usage offered) (CertificationsLiveness.enter l)
    (mount withUuid ctx)
  ∧ certifications
      (component
         (run withUuid (CertificationsLiveness.enter l) (mount withUuid ctx))).1
    = zip_with rename (issued (length l)) l.
Proof.
  intros Hv.
  destruct (generated_enter self usage CertificationsLiveness.user
              CertificationsLiveness.moves rename l (mount withUuid ctx))
    as [Ha Hl]; [by repeat split|done|apply Issued_mount, _|].
  split; [|done]. eapply allowed_impl, Ha. by intros e st [_ ?].
Qed.

Lemma cert_generated_enters_witness :
  certifications
    (component
       (run withUuid
          (CertificationsLiveness.enter
             [withId "" awsCert; withId "" awsCertPro])
          (mount withUuid ∅))).1
  = [withId "id-0" awsCert; withId "id-1" awsCertPro].
Proof.
  refine (proj2 (cert_generated_enters ∅
                   [withId "" awsCert; withId "" awsCertPro] _)).
  by_compute.
Defined.

(** With the generator that counts, the two records are named by the
    first two identifiers. *)
Lemma cert_generated_counts :
  ids (certifications
         (component (run withUuid twoRecords (mount withUuid ∅))).1)
  = ["id-0"; "id-1"].
Proof. by vm_compute. Qed.

End CertificationsIdentifiers.

(** ** The work experience form *)

Module WorkExperienceIdentifiers.
Import WorkExperienceForm.

Definition usage : Usage State Event :=
  {| u_stamp := stamp;
     u_calls := calls;
     u_owned := λ st, ids (experiences st) |}.

Definition withUuid `{!Generator} :
    Component (gmap string Value) (State * nat) Event :=
  closed self usage.

Definition twoRecords : list Event :=
  addRecord "" acme ++ addRecord "" acmeLead.

#[global] Instance work_appends : Appends self usage.
Proof.
  apply (instance_appends self WorkExperienceRefinement.pattern
           WorkExperienceRefinement.proj WorkExperienceRefinement.ev
           WorkExperienceRefinement.work_morphism); try done.
  - by intros i [].
  - by intros [] st.
Qed.

Lemma work_fresh_stamp (e : Event) (i : string) (st : State) :
  i ≠ "" → i ∉ ids (experiences st) → fresh (stamp i e) st.
Proof. intros. by destruct e. Qed.

(** A record under another identifier. *)
Definition rename (i : string) (experience : WorkExperience.t) :
    WorkExperience.t :=
  withId i (dataOf experience).

Lemma work_calls_typed (uuid : string) (experience : WorkExperience.t)
    (w : World) :
  WorkExperienceLiveness.Idle (component w) → ValidRecord experience →
  calls (OnSubmit uuid)
    (component (run self ([OnAdd] ++ typed (dataOf experience)) w))
  = true.
Proof.
  destruct w as [st ctx]. intros [(Hq & Hs & Hf) Hcur] (? & ? & ? & ?).
  rewrite work_calls_Complete; rewrite component_run; simpl;
    destruct st as [f sm cur exps pend]; simpl in *; subst;
    unfold settled; cbn; [done|].
  unfold Complete. repeat constructor; by js_simpl.
Qed.

#[global] Instance work_naming `{!Generator} :
  Naming self usage WorkExperienceLiveness.moves rename.
Proof.
  apply (naming_by_last _ _ _ _ (λ r, [OnAdd] ++ typed (dataOf r))
           (λ r, OnSubmit (WorkExperience.id r))); try done.
  - intros r. by repeat constructor.
  - intros i r w Hi Hv. unfold rename. rewrite work_dataOf_withId.
    by apply work_calls_typed.
Qed.

Lemma work_generated_reachable `{!Generator} ctx w :
  reachable withUuid (drawing usage offered) ctx w →
  reachable self WorkExperienceLiveness.user ctx (onWorld fst w).
Proof.
  apply (closed_reachable self usage fresh offered work_fresh_stamp).
Qed.

(** With a generator that never gives the same identifier twice nor the
    empty one, whatever the user does with the form through the events
    its render offers, the array of experiences is well formed, the
    identifier the generator would give next is carried by no record, and
    the records stand in the order in which they were created. *)
Theorem work_generated_well_formed `{!Generator} (ctx : gmap string Value)
    (w : React.World (gmap string Value) (State * nat)) :
  reachable withUuid (drawing usage offered) ctx w →
  WellFormed (experiences (component w).1)
  ∧ uuidAt (component w).2 ∉ ids (experiences (component w).1)
  ∧ ids (experiences (component w).1) `sublist_of` issued (component w).2.
Proof.
  intros Hr. split_and!.
  - apply (work_reachable_WellFormed ctx (onWorld fst w)).
    eapply reachable_impl, work_generated_reachable, Hr. by intros e st [? _].
  - by apply (Issued_unique usage),
      (reachable_Issued self usage offered ctx).
  - apply (reachable_InOrder self usage offered ctx w Hr).
Qed.

Lemma work_generated_well_formed_witness :
  WellFormed
    (experiences (component (run withUuid twoRecords (mount withUuid ∅))).1).
Proof.
  refine (proj1 (work_generated_well_formed ∅ _ _)).
  apply reachable_run; [constructor|by_compute].
Defined.

(** In the closed form every list of valid experiences can be entered,
    whatever the generator, and the array is then the list, each record
    under the identifier the generator issued for it, in the order of
    issue. *)
Theorem work_generated_enters `{!Generator} (ctx : gmap string Value)
    (l : list WorkExperience.t) :
  Forall ValidRecord l →
  allowed withUuid (drawing usage offered) (WorkExperienceLiveness.enter l)
    (mount withUuid ctx)
  ∧ experiences
      (component
         (run withUuid (WorkExperienceLiveness.enter l) (mount withUuid ctx))).1
    = zip_with rename (issued (length l)) l.
Proof.
  intros Hv.
  destruct (generated_enter self usage WorkExperienceLiveness.user
              WorkExperienceLiveness.moves rename l (mount withUuid ctx))
    as [Ha Hl]; [by repeat split|done|apply Issued_mount, _|].
  split; [|done]. eapply allowed_impl, Ha. by intros e st [_ ?].
Qed.

Lemma work_generated_enters_witness :
  experiences
    (component
       (run withUuid
          (WorkExperienceLiveness.enter [withId "" acme; withId "" acmeLead])
          (mount withUuid ∅))).1
  = [withId "id-0" acme; withId "id-1" acmeLead].
Proof.
  refine (proj2 (work_generated_enters ∅
                   [withId "" acme; withId "" acmeLead] _)).
  by_compute.
Defined.

End WorkExperienceIdentifiers.
