(* ===== verification/App.v ===== *)
(** * The three forms under the same context

    The sidebar mounts the forms under one resume context.  The component
    that does so is not among the sources, so this file takes the three
    forms side by side in the sense of [both] of [React.v], nested: one
    context value, events of any form, and in each commit the effects
    that are due, each built from the context value of the render and
    each replacing the context value.  The order taken is contact, work
    experience, certifications; the theorems need of it only which form
    comes last.

    The forms write different properties, and the specification concludes
    that they cannot disturb each other.  That holds for every commit
    after the first one, where one effect at most runs.  At the mount all
    effects run from the same context value and the last replaces what
    the others wrote: the properties of the other forms are in the context
    afterwards only if they were there before.  The states of the forms
    do not depend on each other at all: each form in the application is
    the form alone, so every resume can be entered, from the mount and
    from wherever the forms were left, and the invariants of the forms
    hold in the application.  The forms share one thing more, the
    identifier generator: closed with it ([session]), the application
    keeps identifiers unique across the whole resume. *)

From stdpp Require Import base decidable option list strings gmap.
From S2P Require Import Prelude Collection React Uuid ResumeContext.
From S2P Require Import CertificationsForm WorkExperienceForm ContactForm.
From S2P Require Import Liveness Identifiers.

#[local] Open Scope js_scope.

Module App.

Abbreviation State :=
  ((ContactForm.State * WorkExperienceForm.State) * AwardsForm.State)%type.

Abbreviation Event :=
  ((ContactForm.Event + WorkExperienceForm.Event) + AwardsForm.Event)%type.

(** The forms, the effects of a commit in this order. *)
Definition resume : Component (gmap string Value) State Event :=
  both (both ContactForm.self WorkExperienceForm.self) AwardsForm.self.

(** * Vocabulary of the statements *)

Abbreviation World := (React.World (gmap string Value) State).

Definition contact (e : ContactForm.Event) : Event := inl (inl e).
Definition experience (e : WorkExperienceForm.Event) : Event := inl (inr e).
Definition certification : AwardsForm.Event → Event := inr.

(** Every section of the context holds what its form holds. *)
Definition Mirrored (w : World) : Prop :=
  ContactForm.Mirrors (context w) (component w).1.1
  ∧ WorkExperienceForm.Mirrors (context w) (component w).1.2
  ∧ AwardsForm.Mirrors (context w) (component w).2.

#[global] Instance Mirrored_dec w : Decision (Mirrored w).
Proof.
  unfold Mirrored, WorkExperienceForm.Mirrors, AwardsForm.Mirrors. apply _.
Defined.

(** What the provider must hold before the forms mount for nothing to be
    missing afterwards: the blank contact properties and an empty work
    experience section. *)
Definition Prepared (ctx : gmap string Value) : Prop :=
  ContactForm.Mirrors ctx ContactForm.initialState
  ∧ WorkExperienceForm.Mirrors ctx WorkExperienceForm.initialState.

#[global] Instance Prepared_dec ctx : Decision (Prepared ctx).
Proof. unfold Prepared, WorkExperienceForm.Mirrors. apply _. Defined.

Definition prepared : gmap string Value :=
  <["workExperience" := VWorkExperience []]>
    (<["phoneNumber" := VString ""]>
       (<["website" := VString ""]> (<["email" := VString ""]> ∅))).

(** The properties of the context the forms write. *)
Definition sections : list string :=
  ContactForm.fields ++ ["workExperience"; "certifications"].

(** The events of each form, in order. *)
Definition ofContact (es : list Event) : list ContactForm.Event :=
  lefts (lefts es).

Definition ofExperience (es : list Event) : list WorkExperienceForm.Event :=
  rights (lefts es).

Definition ofCertification (es : list Event) : list AwardsForm.Event :=
  rights es.

(** What a user can do in the application: what the render of the form
    the event belongs to offers, with a working identifier generator. *)
Definition user : Event → State → Prop :=
  either (either ContactForm.offered WorkExperienceLiveness.user)
    CertificationsLiveness.user.

#[global] Instance user_dec e st : Decision (user e st).
Proof. unfold user. apply _. Defined.

(** Filling in a whole resume: the contact values, then the experiences,
    then the certifications. *)
Definition fillIn (phoneNumber website email : string)
    (experiences : list WorkExperience.t)
    (certifications : list Certification.t) : list Event :=
  (contact <$> ContactLiveness.fill phoneNumber website email)
  ++ (experience <$> WorkExperienceLiveness.enter experiences)
  ++ (certification <$> CertificationsLiveness.enter certifications).

(** From wherever the forms are to a given resume: the contact values
    typed over, each list form cleared and filled again. *)
Definition recover (st : State) (phoneNumber website email : string)
    (experiences : list WorkExperience.t)
    (certifications : list Certification.t) : list Event :=
  (contact <$> ContactLiveness.fill phoneNumber website email)
  ++ (experience
      <$> WorkExperienceLiveness.clear st.1.2
          ++ WorkExperienceLiveness.enter experiences)
  ++ (certification
      <$> CertificationsLiveness.clear st.2
          ++ CertificationsLiveness.enter certifications).

(** Both list forms in the middle of an edit. *)
Definition stuck : World :=
  {| component :=
       (ContactForm.effectRan ContactForm.initialState,
        WorkExperienceForm.editingX, AwardsForm.editingX);
     context := ∅ |}.

(** A session that goes from one form to the other and back. *)
Definition scenario : list Event :=
  (experience <$> WorkExperienceForm.addRecord "W" WorkExperienceForm.acme)
  ++ [contact (ContactForm.change "email" "ada@example.org")]
  ++ (certification <$> AwardsForm.addRecord "C" AwardsForm.awsCert)
  ++ [experience (WorkExperienceForm.OnDelete "W");
      certification (AwardsForm.OnEdit "C")].

(** What the renders of the three forms offer. *)
Definition offered : Event → State → Prop :=
  either (either ContactForm.offered WorkExperienceForm.offered)
    AwardsForm.offered.

#[global] Instance offered_dec e st : Decision (offered e st).
Proof. unfold offered. apply _. Defined.

(** The forms share the generator of the [uuid] module: the contact form
    never calls it, the list forms call it where they build a record. *)
Definition usage : Usage State Event :=
  usage_both (usage_both usage_none WorkExperienceIdentifiers.usage)
    CertificationsIdentifiers.usage.

(** The application with its generator. *)
Definition session `{!Generator} :
    Component (gmap string Value) (State * nat) Event :=
  closed resume usage.

(** Two experiences and a certification, added in turn. *)
Definition threeRecords : list Event :=
  (experience <$> WorkExperienceForm.addRecord "" WorkExperienceForm.acme)
  ++ (certification <$> AwardsForm.addRecord "" AwardsForm.awsCert)
  ++ (experience <$> WorkExperienceForm.addRecord "" WorkExperienceForm.acmeLead).

(** * Theorems *)

(** ** Each form keeps its section *)

Lemma contact_keeps : Keeps ContactForm.self ContactForm.Mirrors.
Proof.
  apply (Synced_step _ _ ContactForm.contact_Mirrors_effect).
  intros e c st _ _ Hq. by destruct e.
Qed.

Lemma work_keeps : Keeps WorkExperienceForm.self WorkExperienceForm.Mirrors.
Proof.
  apply (Synced_step WorkExperienceForm.self WorkExperienceForm.Mirrors);
    [|apply WorkExperienceForm.work_Mirrors_dispatch].
  intros c st. apply lookup_insert_eq.
Qed.

Lemma cert_keeps : Keeps AwardsForm.self AwardsForm.Mirrors.
Proof.
  apply (Synced_step AwardsForm.self AwardsForm.Mirrors);
    [|apply AwardsForm.Mirrors_dispatch].
  intros c st. apply lookup_insert_eq.
Qed.

(** ** Each form spares the sections of the others *)

Lemma contact_key_not (k key : string) :
  k ∈ ContactForm.fields → key ∉ ContactForm.fields → k ≠ key.
Proof. by intros Hk Hkey ->. Qed.

Lemma contact_spares_experiences :
  Spares ContactForm.self WorkExperienceForm.Mirrors.
Proof.
  intros ctx st s. unfold WorkExperienceForm.Mirrors. simpl.
  unfold ContactForm.useEffect, updateState. by rewrite !lookup_insert_ne.
Qed.

Lemma contact_spares_certifications :
  Spares ContactForm.self AwardsForm.Mirrors.
Proof.
  intros ctx st s. unfold AwardsForm.Mirrors. simpl.
  unfold ContactForm.useEffect, updateState. by rewrite !lookup_insert_ne.
Qed.

Lemma work_spares_contact :
  Spares WorkExperienceForm.self ContactForm.Mirrors.
Proof.
  intros ctx st s Hm k Hk. simpl.
  unfold WorkExperienceForm.useEffect, updateState.
  rewrite lookup_insert_ne; [by apply Hm|].
  apply not_eq_sym, (contact_key_not _ _ Hk). by_compute.
Qed.

Lemma work_spares_certifications :
  Spares WorkExperienceForm.self AwardsForm.Mirrors.
Proof.
  intros ctx st s. unfold AwardsForm.Mirrors. simpl.
  unfold WorkExperienceForm.useEffect, updateState.
  by rewrite lookup_insert_ne.
Qed.

Lemma cert_spares_contact : Spares AwardsForm.self ContactForm.Mirrors.
Proof.
  intros ctx st s Hm k Hk. simpl. unfold AwardsForm.useEffect, updateState.
  rewrite lookup_insert_ne; [by apply Hm|].
  apply not_eq_sym, (contact_key_not _ _ Hk). by_compute.
Qed.

Lemma cert_spares_experiences :
  Spares AwardsForm.self WorkExperienceForm.Mirrors.
Proof.
  intros ctx st s. unfold WorkExperienceForm.Mirrors. simpl.
  unfold AwardsForm.useEffect, updateState. by rewrite lookup_insert_ne.
Qed.

(** ** The three together *)

Lemma resume_synced (ctx : gmap string Value) (es : list Event) :
  Prepared ctx →
  Synced resume
    (Sync12 (Sync12 ContactForm.Mirrors WorkExperienceForm.Mirrors)
       AwardsForm.Mirrors)
    (run resume es (mount resume ctx)).
Proof.
  intros [Hc Hw].
  apply (both_run_synced
           (both ContactForm.self WorkExperienceForm.self) AwardsForm.self
           (Sync12 ContactForm.Mirrors WorkExperienceForm.Mirrors)
           AwardsForm.Mirrors).
  - apply both_keeps;
      auto using contact_keeps, work_keeps, contact_spares_experiences,
        work_spares_contact.
  - apply cert_keeps.
  - apply both_spares;
      auto using contact_spares_certifications, work_spares_certifications.
  - apply spares_both;
      auto using cert_spares_contact, cert_spares_experiences.
  - apply _.
  - rewrite settleIfPending_both. by split.
  - apply (Synced_mount AwardsForm.self AwardsForm.Mirrors).
    intros c st. apply lookup_insert_eq.
Qed.

(** C14. Mounted on a context that already holds the blank contact
    properties and an empty work experience section, the three forms keep
    every section of the context equal to what its form holds, whatever
    the user does in whichever form and in whatever order: after the mount
    no write of one form is lost to another. *)
Theorem app_sections_mirror (ctx : gmap string Value) (es : list Event) :
  Prepared ctx → Mirrored (run resume es (mount resume ctx)).
Proof.
  intros Hctx. by destruct (resume_synced ctx es Hctx) as (_ & [? ?] & ?).
Qed.

Lemma app_sections_mirror_witness :
  Mirrored (run resume scenario (mount resume prepared)).
Proof. apply app_sections_mirror. by_compute. Defined.



(** ** Each form in the application is the form alone *)


(** So on a prepared provider the lists of the context are a function of
    what was done in their own forms. *)
Theorem app_context_determined (ctx : gmap string Value) (es : list Event) :
  Prepared ctx →
  context (run resume es (mount resume ctx)) !! "workExperience"
  = Some (VWorkExperience
            (WorkExperienceForm.experiences
               (component
                  (run WorkExperienceForm.self (ofExperience es)
                     (mount WorkExperienceForm.self ∅)))))
  ∧ context (run resume es (mount resume ctx)) !! "certifications"
    = Some (VCertifications
              (AwardsForm.certifications
                 (component
                    (run AwardsForm.self (ofCertification es)
                       (mount AwardsForm.self ∅))))).
Proof.
  intros Hctx. destruct (resume_synced ctx es Hctx) as (_ & [_ Hw] & Ha).
  unfold WorkExperienceForm.Mirrors, AwardsForm.Mirrors in *.
  unfold resume in Hw, Ha. rewrite (both_alone _ _ es ctx ctx ∅) in Hw, Ha.
  simpl in Hw. by rewrite (both_alone _ _ (lefts es) ctx ∅ ∅) in Hw.
Qed.

(** ** Every resume can be entered *)

(** The events of one form among those of [fillIn]. *)
Ltac parts :=
  unfold ofContact, ofExperience, ofCertification, fillIn, recover, contact,
    experience, certification;
  change (λ e, inl (inl e))
    with (@inl _ AwardsForm.Event
          ∘ @inl ContactForm.Event WorkExperienceForm.Event);
  change (λ e, inl (inr e))
    with (@inl _ AwardsForm.Event
          ∘ @inr ContactForm.Event WorkExperienceForm.Event);
  repeat (progress rewrite ?list_fmap_compose, ?lefts_app, ?rights_app,
            ?lefts_inl, ?lefts_inr, ?rights_inl, ?rights_inr, ?app_nil_r);
  try done.

Lemma ofContact_fillIn p w e lw lc :
  ofContact (fillIn p w e lw lc) = ContactLiveness.fill p w e.
Proof. parts. Qed.

Lemma ofExperience_fillIn p w e lw lc :
  ofExperience (fillIn p w e lw lc) = WorkExperienceLiveness.enter lw.
Proof. parts. Qed.

Lemma ofCertification_fillIn p w e lw lc :
  ofCertification (fillIn p w e lw lc) = CertificationsLiveness.enter lc.
Proof. parts. Qed.

(** Every resume can be entered: whatever the contact values, and
    for any experiences and certifications with distinct non-empty ids
    that satisfy their schemas, filling in the three forms one after the
    other is offered by the renders step by step and leaves exactly those
    data in the three forms. *)
Theorem app_every_resume_reachable (ctx : gmap string Value)
    (phoneNumber website email : string) (lw : list WorkExperience.t)
    (lc : list Certification.t) :
  WorkExperienceForm.WellFormed lw → AwardsForm.WellFormed lc →
  let final :=
    run resume (fillIn phoneNumber website email lw lc) (mount resume ctx) in
  reachable resume user ctx final
  ∧ ContactForm.state (component final).1.1
    = ContactLiveness.holding phoneNumber website email
  ∧ WorkExperienceForm.experiences (component final).1.2 = lw
  ∧ AwardsForm.certifications (component final).2 = lc.
Proof.
  intros [Hwi Hwv] [Hci Hcv] final.
  destruct (ContactLiveness.contact_fill_run (mount ContactForm.self ∅)
              phoneNumber website email) as [Ha1 Hs1]; [by_compute|].
  destruct (enter_mount WorkExperienceForm.self WorkExperienceLiveness.user
              WorkExperienceLiveness.moves ∅ lw Hwi Hwv) as [Ha2 Hs2].
  destruct (enter_mount AwardsForm.self CertificationsLiveness.user
              CertificationsLiveness.moves ∅ lc Hci Hcv) as [Ha3 Hs3].
  split.
  - apply reachable_run; [constructor|]. unfold user, resume.
    apply (both_allowed_mount _ _ _ _ _ ctx ∅ ∅).
    fold (ofCertification (fillIn phoneNumber website email lw lc)).
    rewrite ofCertification_fillIn. split; [|done].
    apply (both_allowed_mount _ _ _ _ _ ∅ ∅ ∅).
    fold (ofContact (fillIn phoneNumber website email lw lc)).
    fold (ofExperience (fillIn phoneNumber website email lw lc)).
    by rewrite ofContact_fillIn, ofExperience_fillIn.
  - unfold final, resume.
    rewrite (both_alone _ _ _ ctx ∅ ∅), (both_alone _ _ _ ∅ ∅ ∅).
    fold (ofCertification (fillIn phoneNumber website email lw lc)).
    fold (ofContact (fillIn phoneNumber website email lw lc)).
    fold (ofExperience (fillIn phoneNumber website email lw lc)).
    rewrite ofContact_fillIn, ofExperience_fillIn, ofCertification_fillIn.
    by split_and!.
Qed.

Lemma app_every_resume_reachable_witness :
  AwardsForm.certifications
    (component
       (run resume
          (fillIn "555 0100" "ada.example.org" "ada@example.org"
             [WorkExperienceForm.withId "W" WorkExperienceForm.acme]
             [AwardsForm.withId "C" AwardsForm.awsCert])
          (mount resume ∅))).2
  = [AwardsForm.withId "C" AwardsForm.awsCert].
Proof.
  refine (proj2 (proj2 (proj2 (app_every_resume_reachable ∅
    "555 0100" "ada.example.org" "ada@example.org"
    [WorkExperienceForm.withId "W" WorkExperienceForm.acme]
    [AwardsForm.withId "C" AwardsForm.awsCert] _ _)))); by_compute.
Defined.

(** ** The order of the forms does not matter *)

Lemma resume_frame_effect (ctx : gmap string Value) (st : State) :
  sameOutside sections ctx (c_effect resume ctx st).
Proof.
  revert ctx st. unfold resume.
  repeat apply both_frame_effect; try apply _; intros ctx st;
    (eapply sameOutside_mono;
     [|first [apply ContactForm.contact_useEffect_frame
             |apply WorkExperienceForm.work_useEffect_frame
             |apply AwardsForm.useEffect_frame]]);
    by_compute.
Qed.

(** The application writes the sections of the forms and nothing else. *)
Theorem app_context_frame (es : list Event) (w : World) (k : string) :
  k ∉ sections → context (run resume es w) !! k = context w !! k.
Proof.
  apply (run_frame resume (sameOutside sections) resume_frame_effect es w).
Qed.

(** Worlds whose sections mirror the same states, and that agree outside
    the sections, are the same world. *)
Lemma Mirrored_eq (w w' : World) :
  Mirrored w → Mirrored w' → component w = component w' →
  sameOutside sections (context w) (context w') → w = w'.
Proof.
  destruct w as [st ctx], w' as [st' ctx']. simpl.
  intros (Hk & Hw & Hc) (Hk' & Hw' & Hc') <- Hout. f_equal.
  apply map_eq. intros k. destruct (decide (k ∈ sections)) as [Hin|Hin];
    [|symmetry; by apply Hout].
  unfold sections in Hin.
  rewrite elem_of_app, !elem_of_cons, elem_of_nil in Hin.
  unfold WorkExperienceForm.Mirrors, AwardsForm.Mirrors in *.
  cbn [context component] in *.
  destruct Hin as [Hin|[->|[->|[]]]]; [|congruence..].
  by rewrite (Hk k Hin), (Hk' k Hin).
Qed.

(** C16. The order in which the user goes from form to form does not
    matter: on a prepared provider, two sessions in which each form
    receives the same events in the same order end in the same world,
    states and context alike, however the events of different forms are
    interleaved. *)
Theorem app_interleaving_irrelevant (ctx : gmap string Value)
    (es es' : list Event) :
  Prepared ctx →
  ofContact es = ofContact es' → ofExperience es = ofExperience es' →
  ofCertification es = ofCertification es' →
  run resume es (mount resume ctx) = run resume es' (mount resume ctx).
Proof.
  intros Hctx H1 H2 H3.
  destruct (resume_synced ctx es Hctx) as (_ & [? ?] & ?).
  destruct (resume_synced ctx es' Hctx) as (_ & [? ?] & ?).
  apply Mirrored_eq; [by split_and!..| |].
  - unfold resume, ofContact, ofExperience, ofCertification in *.
    rewrite (both_alone _ _ es ctx ctx ∅), (both_alone _ _ es' ctx ctx ∅).
    rewrite (both_alone _ _ (lefts es) ctx ∅ ∅).
    rewrite (both_alone _ _ (lefts es') ctx ∅ ∅). by rewrite H1, H2, H3.
  - intros k Hk. by rewrite !app_context_frame.
Qed.

Lemma app_interleaving_irrelevant_witness :
  run resume scenario (mount resume prepared)
  = run resume
      ((contact <$> ofContact scenario)
       ++ (certification <$> ofCertification scenario)
       ++ (experience <$> ofExperience scenario))
      (mount resume prepared).
Proof. apply app_interleaving_irrelevant; by_compute. Defined.

(** ** From any world back to any resume *)

Lemma ofContact_recover st p w e lw lc :
  ofContact (recover st p w e lw lc) = ContactLiveness.fill p w e.
Proof. parts. Qed.

Lemma ofExperience_recover st p w e lw lc :
  ofExperience (recover st p w e lw lc)
  = WorkExperienceLiveness.clear st.1.2 ++ WorkExperienceLiveness.enter lw.
Proof. parts. Qed.

Lemma ofCertification_recover st p w e lw lc :
  ofCertification (recover st p w e lw lc)
  = CertificationsLiveness.clear st.2 ++ CertificationsLiveness.enter lc.
Proof. parts. Qed.

(** Between two commits, the forms run in the application as each
    would alone, and the user can do in it what she could do in each. *)
Section alone.
Context (s1 : ContactForm.State) (s2 : WorkExperienceForm.State)
  (s3 : AwardsForm.State) (ctx : gmap string Value).
Context (quiet1 : c_pending ContactForm.self s1 = false).
Context (quiet2 : c_pending WorkExperienceForm.self s2 = false).
Context (quiet3 : c_pending AwardsForm.self s3 = false).

Lemma resume_quiet12 :
  c_pending (both ContactForm.self WorkExperienceForm.self) (s1, s2) = false.
Proof. simpl in *. by rewrite quiet1, quiet2. Qed.

Lemma resume_allowed_alone (es : list Event) :
  allowed resume user es {| component := (s1, s2, s3); context := ctx |}
  ↔ allowed ContactForm.self ContactForm.offered (ofContact es)
      {| component := s1; context := ∅ |}
    ∧ allowed WorkExperienceForm.self WorkExperienceLiveness.user
        (ofExperience es) {| component := s2; context := ∅ |}
    ∧ allowed AwardsForm.self CertificationsLiveness.user
        (ofCertification es) {| component := s3; context := ∅ |}.
Proof.
  unfold resume, user, ofContact, ofExperience, ofCertification.
  rewrite (both_allowed _ _ _ _ es (s1, s2) s3 ctx ∅ ∅)
    by auto using resume_quiet12.
  rewrite (both_allowed _ _ _ _ (lefts es) s1 s2 ∅ ∅ ∅) by done. tauto.
Qed.

Lemma resume_run_alone (es : list Event) :
  component (run resume es {| component := (s1, s2, s3); context := ctx |})
  = (component (run ContactForm.self (ofContact es)
                  {| component := s1; context := ∅ |}),
     component (run WorkExperienceForm.self (ofExperience es)
                  {| component := s2; context := ∅ |}),
     component (run AwardsForm.self (ofCertification es)
                  {| component := s3; context := ∅ |})).
Proof.
  unfold resume, ofContact, ofExperience, ofCertification.
  rewrite (both_run_alone _ _ es (s1, s2) s3 ctx ∅ ∅)
    by auto using resume_quiet12.
  by rewrite (both_run_alone _ _ (lefts es) s1 s2 ∅ ∅ ∅).
Qed.

End alone.

(** C18. The application cannot get stuck: from any world between two
    commits in which the contact state has its three properties (modals
    open, errors shown, edit targets left behind, any records stored),
    typing the contact values over and, in each list form, closing the
    modal, deleting every record and entering the wanted ones, is offered
    by the renders step by step and leaves exactly the wanted resume in
    the three forms. *)
Theorem app_recovers (w : World) (phoneNumber website email : string)
    (lw : list WorkExperience.t) (lc : list Certification.t) :
  c_pending resume (component w) = false →
  ContactForm.Shaped (component w).1.1 →
  WorkExperienceForm.WellFormed lw → AwardsForm.WellFormed lc →
  let es := recover (component w) phoneNumber website email lw lc in
  allowed resume user es w
  ∧ ContactForm.state (component (run resume es w)).1.1
    = ContactLiveness.holding phoneNumber website email
  ∧ WorkExperienceForm.experiences (component (run resume es w)).1.2 = lw
  ∧ AwardsForm.certifications (component (run resume es w)).2 = lc.
Proof.
  destruct w as [[[s1 s2] s3] ctx].
  intros [[H1 H2]%orb_false_elim H3]%orb_false_elim Hs [Hwi Hwv] [Hci Hcv] es.
  subst es. cbn [component] in *.
  rewrite resume_allowed_alone, resume_run_alone by done.
  rewrite ofContact_recover, ofExperience_recover, ofCertification_recover.
  destruct (ContactLiveness.contact_fill_run
              {| component := s1; context := ∅ |} phoneNumber website email Hs).
  destruct (recovers WorkExperienceForm.self WorkExperienceLiveness.user
              WorkExperienceLiveness.moves
              {| component := s2; context := ∅ |} lw Hwi Hwv).
  destruct (recovers AwardsForm.self CertificationsLiveness.user
              CertificationsLiveness.moves
              {| component := s3; context := ∅ |} lc Hci Hcv).
  by split_and!.
Qed.

Lemma app_recovers_witness :
  AwardsForm.certifications
    (component
       (run resume
          (recover (component stuck) "555 0100" "" "ada@example.org" []
             [AwardsForm.withId "D" AwardsForm.awsCertPro]) stuck)).2
  = [AwardsForm.withId "D" AwardsForm.awsCertPro].
Proof.
  refine (proj2 (proj2 (proj2 (app_recovers stuck "555 0100" ""
    "ada@example.org" [] [AwardsForm.withId "D" AwardsForm.awsCertPro]
    _ _ _ _)))); by_compute.
Defined.

(** ** The invariants of the forms, in the application *)

(** What the user can do in the application, each form could do alone:
    a world of the application is made of worlds of the forms. *)
Lemma app_reachable_alone (ctx : gmap string Value) (w : World) :
  reachable resume user ctx w →
  ∃ w1 w2 w3,
    reachable ContactForm.self ContactForm.offered ∅ w1
    ∧ reachable WorkExperienceForm.self WorkExperienceLiveness.user ∅ w2
    ∧ reachable AwardsForm.self CertificationsLiveness.user ∅ w3
    ∧ component w = (component w1, component w2, component w3).
Proof.
  intros (w12 & w3 & H12 & H3 & Hw)%(both_reachable _ _ _ _ ctx ∅ ∅).
  apply (both_reachable _ _ _ _ ∅ ∅ ∅) in H12 as (w1 & w2 & H1 & H2 & Hw').
  exists w1, w2, w3. by rewrite Hw, Hw'.
Qed.

Theorem app_well_formed (ctx : gmap string Value) (w : World) :
  reachable resume user ctx w →
  WorkExperienceForm.WellFormed
    (WorkExperienceForm.experiences (component w).1.2)
  ∧ AwardsForm.WellFormed (AwardsForm.certifications (component w).2).
Proof.
  intros (w1 & w2 & w3 & _ & H2 & H3 & ->)%app_reachable_alone. split.
  - apply (WorkExperienceForm.work_reachable_WellFormed ∅ w2).
    eapply reachable_impl, H2. by intros e st [? _].
  - apply (AwardsForm.reachable_WellFormed ∅ w3).
    eapply reachable_impl, H3. by intros e st [? _].
Qed.

(** ** One generator for the whole application *)

#[global] Instance resume_draws : Draws resume usage.
Proof. unfold resume, usage. apply _. Qed.

(** With the generator, the events the renders offer are those of a user
    whose generator works. *)
Lemma session_reachable `{!Generator} (ctx : gmap string Value)
    (w : React.World (gmap string Value) (State * nat)) :
  reachable session (drawing usage offered) ctx w →
  reachable resume user ctx (onWorld fst w).
Proof.
  intros Hr.
  eapply reachable_impl;
    [|apply (closed_reachable resume usage
               (either (either (λ _ _, True) WorkExperienceForm.fresh)
                  AwardsForm.fresh) offered), Hr].
  - unfold user, offered, WorkExperienceLiveness.user,
      CertificationsLiveness.user.
    intros [[e|e]|e] st; simpl; tauto.
  - intros [[e|e]|e] i [[s1 s2] s3] Hi Hnew; simpl in *; [done|..].
    + apply WorkExperienceIdentifiers.work_fresh_stamp; [done|].
      intros Hin. apply Hnew, elem_of_app. by left.
    + apply CertificationsIdentifiers.cert_fresh_stamp; [done|].
      intros Hin. apply Hnew, elem_of_app. by right.
Qed.

(** The experiences are the only identifiers of the first two forms. *)
#[global] Instance contact_work_appends :
  Appends (both ContactForm.self WorkExperienceForm.self)
    (usage_both usage_none WorkExperienceIdentifiers.usage).
Proof.
  apply (right_appends ContactForm.self WorkExperienceForm.self usage_none
           WorkExperienceIdentifiers.usage).
Qed.

(** C17. In the application with one generator, whatever the user does
    in whichever form through the events the renders offer, both arrays
    are well formed and no identifier is carried by two records, be they
    of the same form or one of each: identifiers are unique in the whole
    resume, as the contract of the generator promises, without any
    hypothesis on the identifiers left.  And each array lists its records
    in the order in which they were created, whatever was created in the
    other form in between. *)
Theorem app_identifiers_unique `{!Generator} (ctx : gmap string Value)
    (w : React.World (gmap string Value) (State * nat)) :
  reachable session (drawing usage offered) ctx w →
  let experiences := WorkExperienceForm.experiences (component w).1.1.2 in
  let certifications := AwardsForm.certifications (component w).1.2 in
  WorkExperienceForm.WellFormed experiences
  ∧ AwardsForm.WellFormed certifications
  ∧ NoDup (ids experiences ++ ids certifications)
  ∧ ids experiences `sublist_of` issued (component w).2
  ∧ ids certifications `sublist_of` issued (component w).2.
Proof.
  intros Hr. cbv zeta.
  destruct (app_well_formed ctx _ (session_reachable ctx w Hr)).
  destruct (both_in_order _ AwardsForm.self _ CertificationsIdentifiers.usage
              offered ctx w Hr) as [Hw Hc].
  split_and!; [done|done| |exact Hw|exact Hc].
  by apply (Issued_unique usage (component w)),
    (reachable_Issued resume usage offered ctx).
Qed.

Lemma app_identifiers_unique_witness :
  NoDup
    (ids (WorkExperienceForm.experiences
            (component (run session threeRecords (mount session ∅))).1.1.2)
     ++ ids (AwardsForm.certifications
               (component (run session threeRecords (mount session ∅))).1.2)).
Proof.
  refine (proj1 (proj2 (proj2 (app_identifiers_unique ∅ _ _)))).
  apply reachable_run; [constructor|by_compute].
Defined.

End App.
